(** * HVAC scraper: record pipeline and job orchestration

    A shallow embedding of [data_processor.py] (class [HVACDataProcessor]),
    [src/models/scraping_job.py] and [src/routes/scraping.py], of the login
    of [src/auth.py] and of the loops of [src/hvac_scraper_core.py], followed
    by the properties of the specification checked against it and by further
    properties of the code.

    Python strings are sequences of Unicode code points, integers are
    unbounded, floats are IEEE binary64 (Rocq's primitive floats), a
    [DataFrame] is a list of rows that keep their index label, and the
    database is a finite map from job ids to job rows plus the table of
    business rows. *)

From Stdlib Require Import ZArith NArith Ascii String DecimalString Floats Lia.
From Stdlib Require DecimalNat.
From Stdlib Require Import Sorting.Sorted.
From stdpp Require Import gmap list sorting.

Open Scope Z_scope.

(** ** Strings *)

(** A character is a Unicode code point; [str] is Python's [str]. *)
Abbreviation char := N (only parsing).
Abbreviation str := (list N) (only parsing).

Definition chr (a : ascii) : char := N_of_ascii a.

(** [lit "abc"] is the Python literal ['abc'] (ASCII literals only). *)
Definition lit (x : string) : str := map chr (list_ascii_of_string x).
Arguments lit : simpl never.

(** The character tables of the interpreter and of the [re] module: they
    are not part of the repository, so the embedding is parametric in them. *)
Class CharTables := {
  (** [\d]: the Unicode decimal digits. *)
  is_digit : char -> bool;
  (** [\s], and the white space of [str.strip] and [str.split]. *)
  is_space : char -> bool;
  (** [\w]: alphanumerics and the underscore. *)
  is_word : char -> bool;
  (** [ci_eq p c]: the pattern literal [p] matches [c] under [re.IGNORECASE]. *)
  ci_eq : char -> char -> bool
}.

Definition ascii_digit (c : char) : bool := ((48 <=? c) && (c <=? 57))%N.
Definition ascii_upper (c : char) : bool := ((65 <=? c) && (c <=? 90))%N.
Definition ascii_lower (c : char) : bool := ((97 <=? c) && (c <=? 122))%N.
Definition ascii_space (c : char) : bool :=
  (((9 <=? c) && (c <=? 13)) || ((28 <=? c) && (c <=? 32)))%N.
Definition ascii_word (c : char) : bool :=
  ascii_digit c || ascii_upper c || ascii_lower c || (c =? 95)%N.
Definition ascii_fold (c : char) : char :=
  if ascii_upper c then (c + 32)%N else c.

(** What the tables say on ASCII, and the one fact about the rest that the
    proofs use: no white space character is a decimal digit. *)
Class CharTablesLaws `{CharTables} : Prop := {
  digit_ascii : forall c, (c < 128)%N -> is_digit c = ascii_digit c;
  space_ascii : forall c, (c < 128)%N -> is_space c = ascii_space c;
  word_ascii : forall c, (c < 128)%N -> is_word c = ascii_word c;
  ci_ascii : forall p c, (p < 128)%N -> (c < 128)%N ->
    ci_eq p c = (ascii_fold p =? ascii_fold c)%N;
  space_not_digit : forall c, is_space c = true -> is_digit c = false
}.

(** The tables restricted to ASCII: every other code point is in no class
    and matches only itself. *)
Definition ascii_tables : CharTables := {|
  is_digit c := (c <? 128)%N && ascii_digit c;
  is_space c := (c <? 128)%N && ascii_space c;
  is_word c := (c <? 128)%N && ascii_word c;
  ci_eq p c := (ascii_fold p =? ascii_fold c)%N
|}.

(** [not s] for a string. *)
Definition falsy (s : str) : bool := match s with [] => true | _ => false end.

Fixpoint lstrip `{CharTables} (s : str) : str :=
  match s with
  | [] => []
  | c :: s' => if is_space c then lstrip s' else s
  end.

Definition rstrip `{CharTables} (s : str) : str := rev (lstrip (rev s)).

(** [s.strip()] *)
Definition strip `{CharTables} (s : str) : str := rstrip (lstrip s).

(** [s.split()]: the maximal runs of characters that are not white space.
    [cur] is the run being read, last character first. *)
Fixpoint split_aux `{CharTables} (cur : str) (s : str) : list str :=
  match s with
  | [] => match cur with [] => [] | _ => [rev cur] end
  | c :: s' =>
    if is_space c
    then match cur with [] => split_aux [] s' | _ => rev cur :: split_aux [] s' end
    else split_aux (c :: cur) s'
  end.

Definition split `{CharTables} (s : str) : list str := split_aux [] s.

(** [s in [...]] for a string and a list of literals. *)
Definition str_in (s : str) (l : list str) : bool := bool_decide (s ∈ l).

(** ** Regular expressions of the field cleaners

    Each pattern of [data_processor.py] is embedded as the matcher the [re]
    module runs for it: leftmost match, greedy quantifiers, backtracking. *)

Definition c_newline : char := 10%N.
Definition c_space : char := chr " ".
Definition c_dot : char := chr ".".
Definition c_comma : char := chr ",".
Definition c_quote : char := 34%N.
Definition c_lparen : char := chr "(".
Definition c_rparen : char := chr ")".

(** [$] without [re.MULTILINE]: the end of the string, or just before a
    newline that ends the string. *)
Definition at_end (s : str) : bool :=
  match s with
  | [] => true
  | [c] => (c =? c_newline)%N
  | _ => false
  end.

(** The literal [p] at the start of [s] under [re.IGNORECASE]; the rest of
    [s] after it. *)
Fixpoint ci_prefix `{CharTables} (p s : str) : option str :=
  match p, s with
  | [], _ => Some s
  | _ :: _, [] => None
  | a :: p', c :: s' => if ci_eq a c then ci_prefix p' s' else None
  end.

(** Any characters but a newline, then a double quote, then [$], from the
    current position. *)
Fixpoint dotstar_quote_end (s : str) : bool :=
  match s with
  | [] => false
  | c :: s' =>
    ((c =? c_quote)%N && at_end s') || (negb (c =? c_newline)%N && dotstar_quote_end s')
  end.

(** [re.match] of the first artifact pattern, a quoted string: a double
    quote, any characters but a newline, a double quote, [$]. *)
Definition match_quoted (s : str) : bool :=
  match s with
  | c :: s' => (c =? c_quote)%N && dotstar_quote_end s'
  | [] => false
  end.

(** [\d*\.] from the current position. *)
Fixpoint digits_dot `{CharTables} (s : str) : bool :=
  match s with
  | [] => false
  | c :: s' => (c =? c_dot)%N || (is_digit c && digits_dot s')
  end.

(** [re.match(r'^\d+\.\s*', name, re.IGNORECASE)] *)
Definition match_numbered `{CharTables} (s : str) : bool :=
  match s with
  | c :: s' => is_digit c && digits_dot s'
  | [] => false
  end.

(** [re.match(r'Google Maps.*', name, re.IGNORECASE)] *)
Definition match_google_maps `{CharTables} (s : str) : bool :=
  match ci_prefix (lit "Google Maps") s with Some _ => true | None => false end.

(** [\b] between the character before the position (if any) and the one at
    it (if any). *)
Definition word_boundary `{CharTables} (prev next : option char) : bool :=
  xorb (from_option is_word false prev) (from_option is_word false next).

(** [W\.?$] at the start of [s], case-insensitively: what is left of [s]
    after the match. The dot is tried first (greedy), then the empty match. *)
Definition match_suffix `{CharTables} (W s : str) : option str :=
  match ci_prefix W s with
  | Some rest =>
    match rest with
    | d :: rest' =>
      if (d =? c_dot)%N && at_end rest' then Some rest'
      else if at_end rest then Some rest else None
    | [] => Some []
    end
  | None => None
  end.

(** [re.sub(r'\bW\.?$', W, s, flags=re.IGNORECASE)] for a literal [W]:
    the leftmost match is replaced; what follows a match is at most one
    newline, where the pattern cannot match again. *)
Fixpoint sub_suffix_from `{CharTables} (W : str) (prev : option char) (s : str) : str :=
  match s with
  | [] => []
  | c :: s' =>
    match (if word_boundary prev (Some c) then match_suffix W s else None) with
    | Some rest => W ++ rest
    | None => c :: sub_suffix_from W (Some c) s'
    end
  end.

Definition sub_suffix `{CharTables} (W s : str) : str := sub_suffix_from W None s.

(** [re.sub(r'\s+', ' ', s)]: [in_run] says that the previous character was
    white space, already replaced. *)
Fixpoint collapse_spaces_aux `{CharTables} (in_run : bool) (s : str) : str :=
  match s with
  | [] => []
  | c :: s' =>
    if is_space c
    then if in_run then collapse_spaces_aux true s' else c_space :: collapse_spaces_aux true s'
    else c :: collapse_spaces_aux false s'
  end.

Definition collapse_spaces `{CharTables} (s : str) : str := collapse_spaces_aux false s.

(** [\s*,] at the start of [s]: the number of characters matched. *)
Fixpoint spaces_comma `{CharTables} (s : str) : option nat :=
  match s with
  | [] => None
  | c :: s' =>
    if (c =? c_comma)%N then Some 1%nat
    else if is_space c then S <$> spaces_comma s' else None
  end.

(** [re.sub(r',\s*,', ',', s)]: matches do not overlap, so the comma that
    closes one match does not open the next. [skip] counts the characters
    of the current match still to be dropped. *)
Fixpoint collapse_commas_aux `{CharTables} (skip : nat) (s : str) : str :=
  match s with
  | [] => []
  | c :: s' =>
    match skip with
    | S n => collapse_commas_aux n s'
    | O =>
      if (c =? c_comma)%N
      then match spaces_comma s' with
           | Some k => c_comma :: collapse_commas_aux k s'
           | None => c :: collapse_commas_aux 0 s'
           end
      else c :: collapse_commas_aux 0 s'
    end
  end.

Definition collapse_commas `{CharTables} (s : str) : str := collapse_commas_aux 0 s.

(** [[^)]*\)] at the start of [s]: the number of characters matched. *)
Fixpoint to_rparen (s : str) : option nat :=
  match s with
  | [] => None
  | c :: s' => if (c =? c_rparen)%N then Some 1%nat else S <$> to_rparen s'
  end.

(** [\s*\([^)]*\)] at the start of [s]: the number of characters matched. *)
Fixpoint paren_aside `{CharTables} (s : str) : option nat :=
  match s with
  | [] => None
  | c :: s' =>
    if (c =? c_lparen)%N then S <$> to_rparen s'
    else if is_space c then S <$> paren_aside s' else None
  end.

(** [re.sub(r'\s*\([^)]*\)', '', s)] *)
Fixpoint remove_parens_aux `{CharTables} (skip : nat) (s : str) : str :=
  match s with
  | [] => []
  | c :: s' =>
    match skip with
    | S n => remove_parens_aux n s'
    | O =>
      match paren_aside s with
      | Some (S n) => remove_parens_aux n s'
      | _ => c :: remove_parens_aux 0 s'
      end
    end
  end.

Definition remove_parens `{CharTables} (s : str) : str := remove_parens_aux 0 s.

(** [\s+] at the start of [s]: what follows the run of white space. *)
Definition spaces1 `{CharTables} (s : str) : option str :=
  match s with
  | c :: s' => if is_space c then Some (lstrip s') else None
  | [] => None
  end.

(** [T\.?\s+] at the start of [s], case-insensitively, for a literal [T]. *)
Definition match_title `{CharTables} (T s : str) : option str :=
  match ci_prefix T s with
  | Some rest =>
    match rest with
    | d :: rest' =>
      if (d =? c_dot)%N
      then match spaces1 rest' with Some r => Some r | None => spaces1 rest end
      else spaces1 rest
    | [] => None
    end
  | None => None
  end.

(** [re.sub(r'^(Mr\.?|Mrs\.?|Ms\.?|Dr\.?)\s+', '', s, flags=re.IGNORECASE)]:
    the alternatives are tried in order, at the start of the string only. *)
Definition strip_title `{CharTables} (s : str) : str :=
  match match_title (lit "Mr") s with
  | Some r => r
  | None =>
    match match_title (lit "Mrs") s with
    | Some r => r
    | None =>
      match match_title (lit "Ms") s with
      | Some r => r
      | None =>
        match match_title (lit "Dr") s with
        | Some r => r
        | None => s
        end
      end
    end
  end.

(** [[a-z]+$] from the current position. *)
Fixpoint lowers_end (s : str) : bool :=
  match s with
  | [] => false
  | c :: s' => ascii_lower c && (at_end s' || lowers_end s')
  end.

(** [re.match(r'^[A-Z][a-z]+$', word)] *)
Definition match_name_word (w : str) : bool :=
  match w with
  | c :: w' => ascii_upper c && lowers_end w'
  | [] => false
  end.

(** ** The field cleaners of [HVACDataProcessor] *)

Definition _clean_business_name `{CharTables} (name : str) : str :=
  if falsy name then []
  else
    let name := strip name in
    if match_quoted name || match_numbered name || match_google_maps name then []
    else
      let name := sub_suffix (lit "LLC") name in
      let name := sub_suffix (lit "Inc") name in
      let name := sub_suffix (lit "Corp") name in
      strip name.

(** [re.sub(r'\D', '', phone)] *)
Definition only_digits `{CharTables} (phone : str) : str := List.filter is_digit phone.

(** [f"({a}) {b}-{c}"] *)
Definition phone_format (a b c : str) : str :=
  lit "(" ++ a ++ lit ") " ++ b ++ lit "-" ++ c.

Definition _validate_phone_number `{CharTables} (phone : str) : str :=
  if falsy phone then []
  else
    let phone := strip phone in
    let digits := only_digits phone in
    if (length digits =? 10)%nat then
      phone_format (take 3 digits) (take 3 (drop 3 digits)) (drop 6 digits)
    else if (length digits =? 11)%nat && bool_decide (digits !! 0%nat = Some (chr "1")) then
      phone_format (take 3 (drop 1 digits)) (take 3 (drop 4 digits)) (drop 7 digits)
    else [].

Definition _clean_address `{CharTables} (address : str) : str :=
  if falsy address then []
  else
    let address := strip address in
    if str_in address [lit "Unknown"; lit "N/A"; lit "Not found"; lit "No reviews"] then []
    else
      let address := collapse_spaces address in
      let address := collapse_commas address in
      strip address.

Definition _clean_owner_name `{CharTables} (owner : str) : str :=
  if falsy owner then []
  else
    let owner := strip owner in
    if str_in owner [lit "Unknown"; lit "N/A"; lit "Not found"; lit "Not explicitly stated"] then []
    else
      let owner := remove_parens owner in
      let owner := strip_title owner in
      let words := split owner in
      if (length words <? 2)%nat || (4 <? length words)%nat then []
      else if negb (forallb match_name_word words) then []
      else strip owner.

(** ** Exceptions *)

Inductive exn :=
| ValueError (msg : str)
| OverflowError (msg : str)
| ExternalError (msg : str).

(** [str(e)] *)
Definition exn_str (e : exn) : str :=
  match e with
  | ValueError m | OverflowError m | ExternalError m => m
  end.

Inductive result (A : Type) :=
| Ok (a : A)
| Raise (e : exn).
Arguments Ok {A} a.
Arguments Raise {A} e.

Definition rbind {A B} (x : result A) (f : A -> result B) : result B :=
  match x with
  | Ok a => f a
  | Raise e => Raise e
  end.

#[export] Instance result_bind : MBind result := fun A B f x => rbind x f.
#[export] Instance result_ret : MRet result := @Ok.

(** The calls [f x] for [x] in [l], in order, up to the first that raises. *)
Fixpoint rmap {A B} (f : A -> result B) (l : list A) : result (list B) :=
  match l with
  | [] => Ok []
  | x :: l' => y ← f x; ys ← rmap f l'; Ok (y :: ys)
  end.

(** ** Floats *)

(** [float(z)] for a small non-negative integer (exact below [2^53]). *)
Definition float_of_Z (z : Z) : float := of_uint63 (Uint63.of_Z z).

(** [int(f)]: truncation towards zero; infinities and NaN raise. *)
Definition float_int (f : float) : result Z :=
  match Prim2SF f with
  | S754_zero _ => Ok 0
  | S754_finite s m e =>
    let v := if 0 <=? e then Z.pos m * 2 ^ e else Z.pos m / 2 ^ (- e) in
    Ok (if s then - v else v)
  | S754_infinity _ => Raise (OverflowError (lit "cannot convert float infinity to integer"))
  | S754_nan => Raise (ValueError (lit "cannot convert float NaN to integer"))
  end.

(** ** Records *)

(** The dataclass [BusinessInfo] of [hvac_scraper_core.py]; also a row of
    the data frame built from it with [asdict]. *)
Record BusinessInfo := {
  name : str;
  address : str;
  phone : str;
  website : str;
  star_rating : float;
  review_count : Z;
  hours : str;
  category : str;
  owner_name : str;
  additional_contact : str;
  location : str;
  scraped_at : str;
  google_maps_url : str
}.

Definition with_name (v : str) (r : BusinessInfo) : BusinessInfo :=
  {| name := v; address := address r; phone := phone r; website := website r;
     star_rating := star_rating r; review_count := review_count r; hours := hours r;
     category := category r; owner_name := owner_name r;
     additional_contact := additional_contact r; location := location r;
     scraped_at := scraped_at r; google_maps_url := google_maps_url r |}.

Definition with_phone (v : str) (r : BusinessInfo) : BusinessInfo :=
  {| name := name r; address := address r; phone := v; website := website r;
     star_rating := star_rating r; review_count := review_count r; hours := hours r;
     category := category r; owner_name := owner_name r;
     additional_contact := additional_contact r; location := location r;
     scraped_at := scraped_at r; google_maps_url := google_maps_url r |}.

Definition with_address (v : str) (r : BusinessInfo) : BusinessInfo :=
  {| name := name r; address := v; phone := phone r; website := website r;
     star_rating := star_rating r; review_count := review_count r; hours := hours r;
     category := category r; owner_name := owner_name r;
     additional_contact := additional_contact r; location := location r;
     scraped_at := scraped_at r; google_maps_url := google_maps_url r |}.

Definition with_review_count (v : Z) (r : BusinessInfo) : BusinessInfo :=
  {| name := name r; address := address r; phone := phone r; website := website r;
     star_rating := star_rating r; review_count := v; hours := hours r;
     category := category r; owner_name := owner_name r;
     additional_contact := additional_contact r; location := location r;
     scraped_at := scraped_at r; google_maps_url := google_maps_url r |}.

Definition with_star_rating (v : float) (r : BusinessInfo) : BusinessInfo :=
  {| name := name r; address := address r; phone := phone r; website := website r;
     star_rating := v; review_count := review_count r; hours := hours r;
     category := category r; owner_name := owner_name r;
     additional_contact := additional_contact r; location := location r;
     scraped_at := scraped_at r; google_maps_url := google_maps_url r |}.

Definition with_owner_name (v : str) (r : BusinessInfo) : BusinessInfo :=
  {| name := name r; address := address r; phone := phone r; website := website r;
     star_rating := star_rating r; review_count := review_count r; hours := hours r;
     category := category r; owner_name := v;
     additional_contact := additional_contact r; location := location r;
     scraped_at := scraped_at r; google_maps_url := google_maps_url r |}.

(** A row with the two calculated columns. *)
Record ScoredRow := {
  info : BusinessInfo;
  priority_score : Z;
  data_quality_score : float
}.

(** A [pandas.DataFrame]: the rows in order, each with its index label. *)
Abbreviation DataFrame A := (list (nat * A)) (only parsing).

(** [pd.DataFrame(data)]: the labels are [0 .. n-1]. *)
Definition make_frame {A} (data : list A) : DataFrame A := imap (fun i x => (i, x)) data.

(** [df[col] = df[col].apply(f)], as an update of every row. *)
Definition apply_column {A} (f : A -> A) (df : DataFrame A) : DataFrame A :=
  map (fun ir => (ir.1, f ir.2)) df.

(** [pd.to_numeric(col, errors='coerce').fillna(0).astype(int)] on the
    integer column [review_count] of the dataclass. *)
Definition to_numeric_int (z : Z) : Z := z.

(** [pd.to_numeric(col, errors='coerce').fillna(0.0)] on the float column
    [star_rating]: NaN is the missing value. *)
Definition to_numeric_float (f : float) : float := if is_nan f then 0%float else f.

(** ** Deduplicator *)

Definition dedup_key (r : BusinessInfo) : str * str := (name r, phone r).

(** [df.drop_duplicates(subset=['name', 'phone'], keep='first')] *)
Fixpoint drop_duplicates_from (seen : gset (str * str)) (df : DataFrame BusinessInfo)
  : DataFrame BusinessInfo :=
  match df with
  | [] => []
  | (i, r) :: df' =>
    if bool_decide (dedup_key r ∈ seen) then drop_duplicates_from seen df'
    else (i, r) :: drop_duplicates_from ({[dedup_key r]} ∪ seen) df'
  end.

Definition drop_duplicates (df : DataFrame BusinessInfo) : DataFrame BusinessInfo :=
  drop_duplicates_from ∅ df.

(** [df[df['name'].str.len() > 0]] *)
Definition must_have_name (df : DataFrame BusinessInfo) : DataFrame BusinessInfo :=
  List.filter (fun ir => (0 <? length (name ir.2))%nat) df.

(** ** Scorer *)

(** [row['website'] and row['website'] not in ['', 'Not found', 'N/A']] *)
Definition has_website (row : BusinessInfo) : bool :=
  negb (falsy (website row)) && negb (str_in (website row) [[]; lit "Not found"; lit "N/A"]).

Definition _calculate_priority_score (row : BusinessInfo) : result Z :=
  let score := 0 in
  let score := score + review_count row * 10 in
  let score := if negb (falsy (phone row)) then score - 50 else score in
  let score := if negb (falsy (owner_name row)) then score - 30 else score in
  let score := if has_website row then score - 10 else score in
  score ← (if (0 <? star_rating row)%float
           then d ← float_int (star_rating row * 2)%float ; Ok (score - d)
           else Ok score) ;
  Ok (Z.max 0 score).

Definition _calculate_data_quality_score (row : BusinessInfo) : float :=
  let score := 0 in
  let max_score := 0 in
  let score := if negb (falsy (name row)) then score + 20 else score in
  let max_score := max_score + 20 in
  let score := if negb (falsy (phone row)) then score + 25 else score in
  let max_score := max_score + 25 in
  let score := if negb (falsy (address row)) then score + 15 else score in
  let max_score := max_score + 15 in
  let score := if negb (falsy (owner_name row)) then score + 20 else score in
  let max_score := max_score + 20 in
  let score := if has_website row then score + 10 else score in
  let max_score := max_score + 10 in
  let score := if 0 <? review_count row then score + 5 else score in
  let max_score := max_score + 5 in
  let score := if negb (falsy (additional_contact row)) then score + 5 else score in
  let max_score := max_score + 5 in
  if 0 <? max_score
  then (float_of_Z score / float_of_Z max_score * 100)%float
  else 0%float.

(** ** The processor *)

Record HVACDataProcessor := {
  businesses : list BusinessInfo;
  processed_data : option (DataFrame ScoredRow)
}.

(** [HVACDataProcessor()] *)
Definition new_processor : HVACDataProcessor :=
  {| businesses := []; processed_data := None |}.

Definition load_businesses (l : list BusinessInfo) (self : HVACDataProcessor)
  : HVACDataProcessor :=
  {| businesses := l; processed_data := processed_data self |}.

(** The two [df.apply(..., axis=1)] that add the calculated columns: the
    priority column is computed first and may raise. On a frame that has
    lost all its rows the result of [apply] depends on the version of
    pandas; the embedding takes the empty column. *)
Definition add_scores (df : DataFrame BusinessInfo) : result (DataFrame ScoredRow) :=
  prios ← rmap (fun ir => _calculate_priority_score ir.2) df ;
  Ok (zip_with (fun ir p =>
        (ir.1, {| info := ir.2; priority_score := p;
                  data_quality_score := _calculate_data_quality_score ir.2 |}))
      df prios).

(** Returns the frame and the processor after the call. On an empty input
    the method returns before [self.processed_data] is assigned. *)
Definition clean_and_validate_data `{CharTables} (self : HVACDataProcessor)
  : result (DataFrame ScoredRow * HVACDataProcessor) :=
  let df := make_frame (businesses self) in
  match df with
  | [] => Ok ([], self)
  | _ :: _ =>
    let df := apply_column (fun r => with_name (_clean_business_name (name r)) r) df in
    let df := apply_column (fun r => with_phone (_validate_phone_number (phone r)) r) df in
    let df := apply_column (fun r => with_address (_clean_address (address r)) r) df in
    let df := apply_column (fun r => with_review_count (to_numeric_int (review_count r)) r) df in
    let df := apply_column (fun r => with_star_rating (to_numeric_float (star_rating r)) r) df in
    let df := apply_column (fun r => with_owner_name (_clean_owner_name (owner_name r)) r) df in
    let df := drop_duplicates df in
    let df := must_have_name df in
    df ← add_scores df ;
    Ok (df, {| businesses := businesses self; processed_data := Some df |})
  end.

(** ** RankFilter *)

(** Python's [<] and [==] on [str]: code point by code point. *)
Fixpoint str_compare (a b : str) : comparison :=
  match a, b with
  | [], [] => Eq
  | [], _ :: _ => Lt
  | _ :: _, [] => Gt
  | x :: a', y :: b' =>
    match (x ?= y)%N with
    | Eq => str_compare a' b'
    | c => c
    end
  end.

(** The order of [sort_values(['priority_score', 'review_count', 'name'])]. *)
Definition key_compare (a b : ScoredRow) : comparison :=
  match priority_score a ?= priority_score b with
  | Eq =>
    match review_count (info a) ?= review_count (info b) with
    | Eq => str_compare (name (info a)) (name (info b))
    | c => c
    end
  | c => c
  end.

Definition key_leb (a b : ScoredRow) : bool :=
  match key_compare a b with Gt => false | _ => true end.

Fixpoint insert_row (x : nat * ScoredRow) (l : DataFrame ScoredRow) : DataFrame ScoredRow :=
  match l with
  | [] => [x]
  | y :: l' => if key_leb x.2 y.2 then x :: l else y :: insert_row x l'
  end.

(** [sort_values] is stable: rows with equal keys keep their order. *)
Definition sort_values (df : DataFrame ScoredRow) : DataFrame ScoredRow :=
  foldr insert_row [] df.

(** The boolean mask of [filter_by_criteria]. *)
Definition meets_criteria (max_reviews : Z) (min_quality_score : float) (r : ScoredRow) : bool :=
  (review_count (info r) <=? max_reviews)
  && (min_quality_score <=? data_quality_score r)%float
  && negb (bool_decide (phone (info r) = [])).

Definition filter_by_criteria (self : HVACDataProcessor)
    (max_reviews : Z) (min_quality_score : float) : result (DataFrame ScoredRow) :=
  match processed_data self with
  | None =>
    Raise (ValueError
      (lit "No processed data available. Run clean_and_validate_data() first."))
  | Some df =>
    let filtered := List.filter (fun ir => meets_criteria max_reviews min_quality_score ir.2) df in
    Ok (sort_values filtered)
  end.

(** ** Jobs and the database ([src/models/scraping_job.py]) *)

Inductive JobStatus := PENDING | RUNNING | COMPLETED | FAILED | CANCELLED.

#[export] Instance JobStatus_eq_dec : EqDecision JobStatus.
Proof. solve_decision. Defined.

(** [status.value] *)
Definition status_value (s : JobStatus) : str :=
  match s with
  | PENDING => lit "pending"
  | RUNNING => lit "running"
  | COMPLETED => lit "completed"
  | FAILED => lit "failed"
  | CANCELLED => lit "cancelled"
  end.

Definition terminal (s : JobStatus) : bool :=
  match s with
  | COMPLETED | FAILED | CANCELLED => true
  | PENDING | RUNNING => false
  end.

(** A [datetime], as a reading of the clock. *)
Abbreviation datetime := Z (only parsing).

(** A row of [scraping_jobs]. The free-form [config] column plays no part
    in any operation and is left out. *)
Record ScrapingJob := {
  id_ : nat;
  job_name : str;
  locations : list str;
  business_type : str;
  max_reviews : Z;
  min_quality_score : float;
  status : JobStatus;
  created_at : option datetime;
  started_at : option datetime;
  completed_at : option datetime;
  total_businesses_found : Z;
  businesses_meeting_criteria : Z;
  excel_report_path : option str;
  csv_report_path : option str;
  json_report_path : option str;
  error_message : option str
}.

(** A row of [business_data]: the columns copied from the scraped record,
    the parsed time stamp and the two score columns. *)
Record BusinessData := {
  bd_job_id : nat;
  bd_business : BusinessInfo;
  bd_scraped_at : datetime;
  bd_priority_score : Z;
  bd_data_quality_score : float
}.

Inductive ReportKind := Excel | Csv | Json.

(** One call of a report writer: the kind, the path and the frame. *)
Abbreviation ReportCall := (ReportKind * str * DataFrame ScoredRow)%type (only parsing).

(** A worker thread of [ScrapingJobManager]: created by [start_job], it
    has either not yet run or has marked its job as running. *)
Inductive Worker := Spawned | Working.

(** The state of the service: the two tables, the rows added to the
    worker's session and not yet committed, the manager's [active_jobs],
    its threads, and the calls made to the report writers. *)
Record World := {
  jobs : gmap nat ScrapingJob;
  next_job_id : nat;
  business_data : list BusinessData;
  session_new : list BusinessData;
  active_jobs : gset nat;
  threads : gmap nat Worker;
  report_calls : list ReportCall
}.

Definition empty_world : World :=
  {| jobs := ∅; next_job_id := 1; business_data := []; session_new := [];
     active_jobs := ∅; threads := ∅; report_calls := [] |}.

Definition set_jobs (f : gmap nat ScrapingJob -> gmap nat ScrapingJob) (w : World) : World :=
  {| jobs := f (jobs w); next_job_id := next_job_id w; business_data := business_data w;
     session_new := session_new w; active_jobs := active_jobs w; threads := threads w;
     report_calls := report_calls w |}.

Definition set_next_job_id (n : nat) (w : World) : World :=
  {| jobs := jobs w; next_job_id := n; business_data := business_data w;
     session_new := session_new w; active_jobs := active_jobs w; threads := threads w;
     report_calls := report_calls w |}.

Definition set_business_data (f : list BusinessData -> list BusinessData) (w : World) : World :=
  {| jobs := jobs w; next_job_id := next_job_id w; business_data := f (business_data w);
     session_new := session_new w; active_jobs := active_jobs w; threads := threads w;
     report_calls := report_calls w |}.

Definition set_session_new (l : list BusinessData) (w : World) : World :=
  {| jobs := jobs w; next_job_id := next_job_id w; business_data := business_data w;
     session_new := l; active_jobs := active_jobs w; threads := threads w;
     report_calls := report_calls w |}.

Definition set_active_jobs (f : gset nat -> gset nat) (w : World) : World :=
  {| jobs := jobs w; next_job_id := next_job_id w; business_data := business_data w;
     session_new := session_new w; active_jobs := f (active_jobs w); threads := threads w;
     report_calls := report_calls w |}.

Definition set_threads (f : gmap nat Worker -> gmap nat Worker) (w : World) : World :=
  {| jobs := jobs w; next_job_id := next_job_id w; business_data := business_data w;
     session_new := session_new w; active_jobs := active_jobs w; threads := f (threads w);
     report_calls := report_calls w |}.

Definition log_report_call (c : ReportCall) (w : World) : World :=
  {| jobs := jobs w; next_job_id := next_job_id w; business_data := business_data w;
     session_new := session_new w; active_jobs := active_jobs w; threads := threads w;
     report_calls := report_calls w ++ [c] |}.

(** [db.session.commit()] in the worker: the rows added to the session
    reach the table. Attribute updates of a job are written to the map at
    once; no other session runs between them and the commit. *)
Definition commit (w : World) : World :=
  set_session_new [] (set_business_data (fun t => t ++ session_new w) w).

(** An attribute update of the job row [job_id]. *)
Definition update_job (job_id : nat) (f : ScrapingJob -> ScrapingJob) (w : World) : World :=
  set_jobs (alter f job_id) w.

(** [job.status = JobStatus.RUNNING; job.started_at = datetime.utcnow()] *)
Definition mark_running (now : datetime) (j : ScrapingJob) : ScrapingJob :=
  {| id_ := id_ j; job_name := job_name j; locations := locations j;
     business_type := business_type j; max_reviews := max_reviews j;
     min_quality_score := min_quality_score j;
     status := RUNNING; created_at := created_at j; started_at := Some now;
     completed_at := completed_at j;
     total_businesses_found := total_businesses_found j;
     businesses_meeting_criteria := businesses_meeting_criteria j;
     excel_report_path := excel_report_path j; csv_report_path := csv_report_path j;
     json_report_path := json_report_path j; error_message := error_message j |}.

(** The seven assignments after the reports are written. *)
Definition mark_completed (now : datetime) (found matching : Z) (excel csv json : str)
    (j : ScrapingJob) : ScrapingJob :=
  {| id_ := id_ j; job_name := job_name j; locations := locations j;
     business_type := business_type j; max_reviews := max_reviews j;
     min_quality_score := min_quality_score j;
     status := COMPLETED; created_at := created_at j; started_at := started_at j;
     completed_at := Some now;
     total_businesses_found := found;
     businesses_meeting_criteria := matching;
     excel_report_path := Some excel; csv_report_path := Some csv;
     json_report_path := Some json; error_message := error_message j |}.

(** The three assignments of the exception handler. *)
Definition mark_failed (now : datetime) (msg : str) (j : ScrapingJob) : ScrapingJob :=
  {| id_ := id_ j; job_name := job_name j; locations := locations j;
     business_type := business_type j; max_reviews := max_reviews j;
     min_quality_score := min_quality_score j;
     status := FAILED; created_at := created_at j; started_at := started_at j;
     completed_at := Some now;
     total_businesses_found := total_businesses_found j;
     businesses_meeting_criteria := businesses_meeting_criteria j;
     excel_report_path := excel_report_path j; csv_report_path := csv_report_path j;
     json_report_path := json_report_path j; error_message := Some msg |}.

(** The two assignments of [cancel_job]. *)
Definition mark_cancelled (now : datetime) (j : ScrapingJob) : ScrapingJob :=
  {| id_ := id_ j; job_name := job_name j; locations := locations j;
     business_type := business_type j; max_reviews := max_reviews j;
     min_quality_score := min_quality_score j;
     status := CANCELLED; created_at := created_at j; started_at := started_at j;
     completed_at := Some now;
     total_businesses_found := total_businesses_found j;
     businesses_meeting_criteria := businesses_meeting_criteria j;
     excel_report_path := excel_report_path j; csv_report_path := csv_report_path j;
     json_report_path := json_report_path j; error_message := error_message j |}.

(** ** External collaborators *)

(** The scraper, the parser of time stamps and the three report writers:
    each may raise. [reports_dir] is where the service is installed. *)
Record Env := {
  scrape_location : str -> str -> result (list BusinessInfo);
  fromisoformat : str -> result datetime;
  generate_excel_report : str -> DataFrame ScoredRow -> result unit;
  export_csv : str -> DataFrame ScoredRow -> result unit;
  export_json : str -> DataFrame ScoredRow -> result unit;
  reports_dir : str
}.

(** ** The job manager ([src/routes/scraping.py]) *)

(** [str(n)] *)
Definition str_of_nat (n : nat) : str := lit (NilEmpty.string_of_uint (Nat.to_uint n)).

(** [s.replace(' ', '_')] *)
Definition replace_spaces (s : str) : str :=
  map (fun c => if (c =? c_space)%N then chr "_" else c) s.

(** [os.path.join(reports_dir, file)] for a relative [file]. *)
Definition path_join (dir file : str) : str := dir ++ lit "/" ++ file.

(** The loop over [job.locations]: the batches are appended in order; the
    first call that raises ends the loop. *)
Fixpoint scrape_locations (env : Env) (business_type : str) (locs : list str)
    (all_businesses : list BusinessInfo) : result (list BusinessInfo) :=
  match locs with
  | [] => Ok all_businesses
  | l :: locs' =>
    businesses ← scrape_location env l business_type;
    scrape_locations env business_type locs' (all_businesses ++ businesses)
  end.

(** [BusinessData(job_id=..., ..., scraped_at=...)] *)
Definition new_business_data (env : Env) (job_id : nat) (now : datetime) (b : BusinessInfo)
  : result BusinessData :=
  t ← (if negb (falsy (scraped_at b)) then fromisoformat env (scraped_at b) else Ok now);
  Ok {| bd_job_id := job_id; bd_business := b; bd_scraped_at := t;
        bd_priority_score := 0; bd_data_quality_score := 0%float |}.

(** The loop of [db.session.add]: the rows added before a constructor
    raises stay in the session. *)
Fixpoint add_businesses (env : Env) (job_id : nat) (now : datetime)
    (l : list BusinessInfo) (w : World) : result unit * World :=
  match l with
  | [] => (Ok (), w)
  | b :: l' =>
    match new_business_data env job_id now b with
    | Ok row => add_businesses env job_id now l' (set_session_new (session_new w ++ [row]) w)
    | Raise e => (Raise e, w)
    end
  end.

(** [BusinessData.query.filter_by(job_id=..., name=...).first()], then the
    two assignments, on the rows of the table and of the session. *)
Fixpoint set_scores (job_id : nat) (row : ScoredRow) (t : list BusinessData)
  : list BusinessData :=
  match t with
  | [] => []
  | b :: t' =>
    if bool_decide (bd_job_id b = job_id) && bool_decide (name (bd_business b) = name (info row))
    then {| bd_job_id := bd_job_id b; bd_business := bd_business b;
            bd_scraped_at := bd_scraped_at b;
            bd_priority_score := priority_score row;
            bd_data_quality_score := data_quality_score row |} :: t'
    else b :: set_scores job_id row t'
  end.

Definition update_scores (job_id : nat) (filtered_data : DataFrame ScoredRow)
    (t : list BusinessData) : list BusinessData :=
  foldl (fun t ir => set_scores job_id ir.2 t) t filtered_data.

(** The inner [try] block of [_execute_job], from the scraping loop to the
    last commit. The state reached is returned also when a step raises.
    [job_id] is [job.id], the primary key under which the row was fetched. *)
Definition try_block `{CharTables} (env : Env) (job_id : nat) (job : ScrapingJob)
    (now : datetime) (w : World) : result unit * World :=
  match scrape_locations env (business_type job) (locations job) [] with
  | Raise e => (Raise e, w)
  | Ok all_businesses =>
    match add_businesses env job_id now all_businesses w with
    | (Raise e, w) => (Raise e, w)
    | (Ok _, w) =>
      let w := commit w in
      let processor := load_businesses all_businesses new_processor in
      match clean_and_validate_data processor with
      | Raise e => (Raise e, w)
      | Ok (cleaned_data, processor) =>
        match filter_by_criteria processor (max_reviews job) (min_quality_score job) with
        | Raise e => (Raise e, w)
        | Ok filtered_data =>
          let job_prefix :=
            lit "job_" ++ str_of_nat job_id ++ lit "_" ++ replace_spaces (job_name job) in
          let excel_path := path_join (reports_dir env) (job_prefix ++ lit ".xlsx") in
          let csv_path := path_join (reports_dir env) (job_prefix ++ lit ".csv") in
          let json_path := path_join (reports_dir env) (job_prefix ++ lit ".json") in
          let w := log_report_call (Excel, excel_path, filtered_data) w in
          match generate_excel_report env excel_path filtered_data with
          | Raise e => (Raise e, w)
          | Ok _ =>
            let w := log_report_call (Csv, csv_path, filtered_data) w in
            match export_csv env csv_path filtered_data with
            | Raise e => (Raise e, w)
            | Ok _ =>
              let w := log_report_call (Json, json_path, filtered_data) w in
              match export_json env json_path filtered_data with
              | Raise e => (Raise e, w)
              | Ok _ =>
                let w := update_job job_id
                  (mark_completed now (Z.of_nat (length all_businesses))
                     (Z.of_nat (length filtered_data)) excel_path csv_path json_path) w in
                let w := set_business_data (update_scores job_id filtered_data) w in
                (Ok (), commit w)
              end
            end
          end
        end
      end
    end
  end.

(** The outer [finally]: the job leaves [active_jobs] and the thread ends. *)
Definition release (job_id : nat) (w : World) : World :=
  set_threads (delete job_id) (set_active_jobs (fun a => a ∖ {[job_id]}) w).

(** The outer [except Exception as e]. *)
Definition on_exception (job_id : nat) (now : datetime) (e : exn) (w : World) : World :=
  match jobs w !! job_id with
  | Some _ => commit (update_job job_id (mark_failed now (exn_str e)) w)
  | None => w
  end.

(** [_execute_job] up to its first commit: the job is fetched and marked
    as running. [false] when the job does not exist and the function
    returns. *)
Definition execute_begin (job_id : nat) (now : datetime) (w : World) : bool * World :=
  match jobs w !! job_id with
  | None => (false, release job_id w)
  | Some _ => (true, update_job job_id (mark_running now) w)
  end.

(** [_execute_job] after its first commit. *)
Definition execute_rest `{CharTables} (env : Env) (job_id : nat) (now : datetime) (w : World)
  : World :=
  match jobs w !! job_id with
  | None => release job_id w
  | Some job =>
    match try_block env job_id job now w with
    | (Ok _, w) => release job_id w
    | (Raise e, w) => release job_id (on_exception job_id now e w)
    end
  end.

(** [_execute_job] run without interruption; [t0] and [t1] are the clock
    readings at its start and at its end. *)
Definition _execute_job `{CharTables} (env : Env) (job_id : nat) (t0 t1 : datetime) (w : World)
  : World :=
  match execute_begin job_id t0 w with
  | (true, w) => execute_rest env job_id t1 w
  | (false, w) => w
  end.

(** ** The routes *)

(** The reply of a route: the HTTP status, the [success] flag, the job in
    the body if any, and the message or the description of the error. *)
Record Response := {
  http_status : nat;
  success : bool;
  body_job : option ScrapingJob;
  message : str
}.

Definition reply_ok (code : nat) (job : option ScrapingJob) (msg : str) : Response :=
  {| http_status := code; success := true; body_job := job; message := msg |}.

Definition reply_error (code : nat) (msg : str) : Response :=
  {| http_status := code; success := false; body_job := None; message := msg |}.

(** The JSON object of a creation request: each key may be absent. *)
Record JobRequest := {
  req_job_name : option str;
  req_locations : option (list str);
  req_business_type : option str;
  req_max_reviews : option Z;
  req_min_quality_score : option float;
  req_other_keys : nat
}.

(** [not data] for a JSON object: it has no key at all. *)
Definition empty_request (d : JobRequest) : bool :=
  match req_job_name d, req_locations d, req_business_type d,
        req_max_reviews d, req_min_quality_score d, req_other_keys d with
  | None, None, None, None, None, O => true
  | _, _, _, _, _, _ => false
  end.

(** [POST /jobs]; [data] is [None] when the request has no JSON body. *)
Definition create_job (data : option JobRequest) (now : datetime) (w : World)
  : Response * World :=
  match data with
  | None => (reply_error 400 (lit "No JSON data provided"), w)
  | Some d =>
    if empty_request d then (reply_error 400 (lit "No JSON data provided"), w)
    else
      match req_job_name d with
      | None => (reply_error 400 (lit "Missing required field: job_name"), w)
      | Some job_name =>
        match req_locations d with
        | None => (reply_error 400 (lit "Missing required field: locations"), w)
        | Some locations =>
          let job :=
            {| id_ := next_job_id w; job_name := job_name; locations := locations;
               business_type := default (lit "HVAC") (req_business_type d);
               max_reviews := default 20 (req_max_reviews d);
               min_quality_score := default 40%float (req_min_quality_score d);
               status := PENDING; created_at := Some now; started_at := None;
               completed_at := None; total_businesses_found := 0;
               businesses_meeting_criteria := 0; excel_report_path := None;
               csv_report_path := None; json_report_path := None;
               error_message := None |} in
          (reply_ok 201 (Some job) (lit "Job created successfully"),
           set_next_job_id (S (next_job_id w)) (set_jobs (insert (next_job_id w) job) w))
        end
      end
  end.

(** [ScrapingJobManager.start_job] *)
Definition manager_start_job (job_id : nat) (w : World) : bool * World :=
  if bool_decide (job_id ∈ active_jobs w) then (false, w)
  else (true, set_threads (insert job_id Spawned)
                (set_active_jobs (fun a => {[job_id]} ∪ a) w)).

(** [POST /jobs/<job_id>/start] *)
Definition start_job (job_id : nat) (w : World) : Response * World :=
  match jobs w !! job_id with
  | None => (reply_error 404 (lit "Job not found"), w)
  | Some job =>
    if negb (bool_decide (status job = PENDING))
    then (reply_error 400
            (lit "Job cannot be started. Current status: " ++ status_value (status job)), w)
    else
      match manager_start_job job_id w with
      | (true, w) => (reply_ok 200 None (lit "Job started successfully"), w)
      | (false, w) => (reply_error 400 (lit "Job is already running"), w)
      end
  end.

(** [POST /jobs/<job_id>/cancel] *)
Definition cancel_job (job_id : nat) (now : datetime) (w : World) : Response * World :=
  match jobs w !! job_id with
  | None => (reply_error 404 (lit "Job not found"), w)
  | Some job =>
    if negb (bool_decide (status job ∈ [PENDING; RUNNING]))
    then (reply_error 400
            (lit "Job cannot be cancelled. Current status: " ++ status_value (status job)), w)
    else
      let w := update_job job_id (mark_cancelled now) w in
      let w := set_active_jobs (fun a => a ∖ {[job_id]}) w in
      (reply_ok 200 None (lit "Job cancelled successfully"), w)
  end.

(** ** Runs of the service

    The requests of the clients and the two halves of each worker thread,
    interleaved in any order. *)
Inductive event :=
| CreateJob (data : option JobRequest) (now : datetime)
| StartJob (job_id : nat)
| CancelJob (job_id : nat) (now : datetime)
| WorkerBegins (job_id : nat) (now : datetime)
| WorkerFinishes (job_id : nat) (now : datetime).

Definition step `{CharTables} (env : Env) (w : World) (ev : event) : World :=
  match ev with
  | CreateJob data now => (create_job data now w).2
  | StartJob job_id => (start_job job_id w).2
  | CancelJob job_id now => (cancel_job job_id now w).2
  | WorkerBegins job_id now =>
    match threads w !! job_id with
    | Some Spawned =>
      match execute_begin job_id now w with
      | (true, w) => set_threads (insert job_id Working) w
      | (false, w) => w
      end
    | _ => w
    end
  | WorkerFinishes job_id now =>
    match threads w !! job_id with
    | Some Working => execute_rest env job_id now w
    | _ => w
    end
  end.

Definition run `{CharTables} (env : Env) (w : World) (evs : list event) : World :=
  foldl (step env) w evs.

(** The status of a job in a state of the service. *)
Definition status_of (job_id : nat) (w : World) : option JobStatus :=
  status <$> jobs w !! job_id.

(** ** The stages of the pipeline, one by one *)

(** The Deduplicator: the two steps of [clean_and_validate_data] that drop
    rows, in the order of the source. *)
Definition dedupe (df : DataFrame BusinessInfo) : DataFrame BusinessInfo :=
  must_have_name (drop_duplicates df).

(** The Normalizer on one record: the six column updates of
    [clean_and_validate_data], in the order of the source. *)
Definition normalize `{CharTables} (r : BusinessInfo) : BusinessInfo :=
  let r := with_name (_clean_business_name (name r)) r in
  let r := with_phone (_validate_phone_number (phone r)) r in
  let r := with_address (_clean_address (address r)) r in
  let r := with_review_count (to_numeric_int (review_count r)) r in
  let r := with_star_rating (to_numeric_float (star_rating r)) r in
  with_owner_name (_clean_owner_name (owner_name r)) r.

(** [BusinessInfo(name=n, phone=p, address=a)]: the other fields take the
    defaults of the dataclass. *)
Definition business (n p a : str) : BusinessInfo :=
  {| name := n; address := a; phone := p; website := []; star_rating := 0%float;
     review_count := 0; hours := []; category := []; owner_name := [];
     additional_contact := []; location := []; scraped_at := []; google_maps_url := [] |}.

(** ** Sample data *)


(** A scored frame of three rows; the second has no phone. *)
Definition sample_scored : DataFrame ScoredRow :=
  [ (0%nat, {| info := with_review_count 3 (business (lit "Zenith Air") (lit "(208) 555-0101") []);
               priority_score := 0; data_quality_score := 45%float |});
    (1%nat, {| info := business (lit "Boise Comfort") [] [];
               priority_score := 0; data_quality_score := 20%float |});
    (2%nat, {| info := business (lit "Acme Heating") (lit "(208) 555-0199") [];
               priority_score := 0; data_quality_score := 45%float |}) ].

(** A creation request with a name and one location, and one with a name
    and an empty list of locations. *)
Definition sample_request : JobRequest :=
  {| req_job_name := Some (lit "Boise run"); req_locations := Some [lit "Boise, ID"];
     req_business_type := None; req_max_reviews := None;
     req_min_quality_score := None; req_other_keys := 0 |}.


Definition sample_listing : BusinessInfo :=
  with_owner_name (lit "John Smith")
    (business (lit "Acme Heating") (lit "208-555-1234") (lit "12 Main St, Boise")).

(** The job that [sample_request] creates at time 10 in an empty database,
    and the database after its creation. *)
Definition sample_job : ScrapingJob :=
  {| id_ := 1; job_name := lit "Boise run"; locations := [lit "Boise, ID"];
     business_type := lit "HVAC"; max_reviews := 20; min_quality_score := 40%float;
     status := PENDING; created_at := Some 10; started_at := None; completed_at := None;
     total_businesses_found := 0; businesses_meeting_criteria := 0;
     excel_report_path := None; csv_report_path := None; json_report_path := None;
     error_message := None |}.

Definition sample_world : World := (create_job (Some sample_request) 10 empty_world).2.

(** Collaborators that never raise: the scraper returns [found] for every
    location. *)
Definition sample_env (found : list BusinessInfo) : Env :=
  {| scrape_location := fun _ _ => Ok found;
     fromisoformat := fun _ => Ok 0;
     generate_excel_report := fun _ _ => Ok ();
     export_csv := fun _ _ => Ok ();
     export_json := fun _ _ => Ok ();
     reports_dir := lit "reports" |}.


(** The same, with a scraper that raises. *)
Definition sample_env_no_network : Env :=
  {| scrape_location := fun _ _ => Raise (ExternalError (lit "timeout"));
     fromisoformat := fun _ => Ok 0;
     generate_excel_report := fun _ _ => Ok ();
     export_csv := fun _ _ => Ok ();
     export_json := fun _ _ => Ok ();
     reports_dir := lit "reports" |}.

(** A job is created and started; it is cancelled while its worker runs. *)
Definition cancel_while_running : list event :=
  [ CreateJob (Some sample_request) 10; StartJob 1; WorkerBegins 1 11;
    CancelJob 1 12; WorkerFinishes 1 13 ].

(** A job is created and started; it is cancelled before its worker has
    marked it as running. *)
Definition cancel_before_running : list event :=
  [ CreateJob (Some sample_request) 10; StartJob 1; CancelJob 1 11;
    WorkerBegins 1 12; WorkerFinishes 1 13 ].

(** A job is created, started and run to its end. *)
Definition plain_run : list event :=
  [ CreateJob (Some sample_request) 10; StartJob 1; WorkerBegins 1 11;
    WorkerFinishes 1 12 ].

(** The statuses of job [job_id] after each prefix of a run. *)
Definition status_trace `{CharTables} (env : Env) (job_id : nat) (evs : list event)
  : list (option JobStatus) :=
  map (fun n => status_of job_id (run env empty_world (take n evs))) (seq 0 (S (length evs))).

(** ** Vocabulary of the properties *)


(** The rows that the loop of [db.session.add] puts in the session: one
    for each record up to the first whose constructor raises. *)
Fixpoint built_rows (env : Env) (job_id : nat) (now : datetime) (l : list BusinessInfo)
  : list BusinessData :=
  match l with
  | [] => []
  | b :: l' =>
    match new_business_data env job_id now b with
    | Ok row => row :: built_rows env job_id now l'
    | Raise _ => []
    end
  end.


(** Zero, infinite, NaN or positive and finite. *)
Definition nonneg_shape (x : spec_float) : Prop :=
  match x with
  | S754_finite true _ _ => False
  | _ => True
  end.

(** The fields that count for the quality score, each with its weight and
    whether the row has it. *)
Definition quality_weights (row : BusinessInfo) : list (bool * Z) :=
  [ (negb (falsy (name row)), 20);
    (negb (falsy (phone row)), 25);
    (negb (falsy (address row)), 15);
    (negb (falsy (owner_name row)), 20);
    (has_website row, 10);
    (0 <? review_count row, 5);
    (negb (falsy (additional_contact row)), 5) ].

Definition present_weight (row : BusinessInfo) : Z :=
  foldr (fun (bw : bool * Z) acc => if bw.1 then bw.2 + acc else acc) 0 (quality_weights row).

Definition total_weight (row : BusinessInfo) : Z :=
  foldr (fun (bw : bool * Z) acc => bw.2 + acc) 0 (quality_weights row).

(** The lexicographic order on strings. *)
Inductive str_lex_le : str -> str -> Prop :=
| lex_nil b : str_lex_le [] b
| lex_lt x y a b : (x < y)%N -> str_lex_le (x :: a) (y :: b)
| lex_eq x a b : str_lex_le a b -> str_lex_le (x :: a) (x :: b).

(** The lexicographic order on (priority_score, review_count, name). *)
Definition key_le (a b : ScoredRow) : Prop :=
  priority_score a < priority_score b
  \/ (priority_score a = priority_score b
      /\ (review_count (info a) < review_count (info b)
          \/ (review_count (info a) = review_count (info b)
              /\ str_lex_le (name (info a)) (name (info b))))).

Definition row_le (x y : nat * ScoredRow) : Prop := key_le x.2 y.2.

(** Neither the first nor the last character is white space. *)
Definition stripped `{CharTables} (s : str) : Prop :=
  lstrip s = s /\ lstrip (rev s) = rev s.

(** [x] matches the literal [W] character by character, ignoring case. *)
Definition ci_matches `{CharTables} (W x : str) : Prop :=
  Forall2 (fun a c => ci_eq a c = true) W x.

(** Every white space character is a single space, and no two are adjacent;
    [prev] says that the character before is white space. *)
Fixpoint single_spaced `{CharTables} (prev : bool) (s : str) : bool :=
  match s with
  | [] => true
  | c :: s' =>
    if is_space c then negb prev && (c =? c_space)%N && single_spaced true s'
    else single_spaced false s'
  end.

(** The words of an accepted owner name: two to four, all capitalized. *)
Definition name_words (words : list str) : bool :=
  negb ((length words <? 2)%nat || (4 <? length words)%nat) && forallb match_name_word words.

(** The three entity suffixes that [_clean_business_name] standardizes. *)
Definition entity_suffix (W : str) : Prop :=
  W = lit "LLC" \/ W = lit "Inc" \/ W = lit "Corp".

(** A name that a second call of [_clean_business_name] leaves alone. *)
Definition settled `{CharTables} (w : str) : Prop :=
  stripped w
  /\ match_quoted w || match_numbered w || match_google_maps w = false
  /\ sub_suffix (lit "LLC") w = w
  /\ sub_suffix (lit "Inc") w = w
  /\ sub_suffix (lit "Corp") w = w.

(** ** Vocabulary of the pipeline and of the cleaners *)

(** A scored row is the row it was computed from with its two scores. *)
Definition scored_from (ir : nat * BusinessInfo) (o : nat * ScoredRow) : Prop :=
  o.1 = ir.1 /\ info o.2 = ir.2
  /\ _calculate_priority_score ir.2 = Ok (priority_score o.2)
  /\ data_quality_score o.2 = _calculate_data_quality_score ir.2.

(** A capitalized word: an ASCII capital followed by one or more ASCII
    small letters. *)
Definition capitalized (w : str) : Prop :=
  exists c w', w = c :: w' /\ ascii_upper c = true /\ w' <> []
    /\ Forall (fun d => ascii_lower d = true) w'.

(** ** The worksheets of the spreadsheet report ([data_processor.py]) *)

(** A value written to a cell. *)
Inductive CellValue :=
| VStr (s : str)
| VInt (z : Z)
| VFloat (f : float).

(** One call [ws.cell(row, column, value)]: the row, the column, the value. *)
Abbreviation CellWrite := (nat * nat * CellValue)%type (only parsing).

(** *** The sheet Data Quality: the distribution of the quality scores *)

(** [zip(quality_bins[:-1], quality_bins[1:], quality_labels)] in
    [_create_data_quality_sheet]. *)
Definition quality_bins : list (Z * Z * str) :=
  [ (0, 40, lit "Poor (0-40%)");
    (40, 60, lit "Fair (40-60%)");
    (60, 80, lit "Good (60-80%)");
    (80, 100, lit "Excellent (80-100%)") ].

(** [(score >= bin_start) & (score < bin_end)] *)
Definition in_bin (q : float) (bin_start bin_end : Z) : bool :=
  (float_of_Z bin_start <=? q)%float && (q <? float_of_Z bin_end)%float.

(** [len(data[(data['data_quality_score'] >= bin_start)
              & (data['data_quality_score'] < bin_end)])] *)
Definition bin_count (data : DataFrame ScoredRow) (bin_start bin_end : Z) : nat :=
  length (List.filter (fun ir : nat * ScoredRow =>
            in_bin (data_quality_score ir.2) bin_start bin_end) data).

(** A business with every field that counts for the quality score, and one
    with a name and a phone only; the frame of the two with their scores. *)
Definition sample_complete : BusinessInfo :=
  {| name := lit "Acme Heating"; address := lit "12 Main St, Boise";
     phone := lit "(208) 555-0199"; website := lit "https://acme.example";
     star_rating := 5%float; review_count := 2; hours := []; category := lit "HVAC";
     owner_name := lit "John Smith"; additional_contact := lit "Email: info@acme.example";
     location := lit "Boise, ID"; scraped_at := []; google_maps_url := [] |}.

Definition sample_scored_frame : DataFrame ScoredRow :=
  [ (0%nat, {| info := sample_complete; priority_score := 0;
               data_quality_score := _calculate_data_quality_score sample_complete |});
    (1%nat, {| info := business (lit "Zenith Air") (lit "(208) 555-0101") [];
               priority_score := 0;
               data_quality_score :=
                 _calculate_data_quality_score
                   (business (lit "Zenith Air") (lit "(208) 555-0101") []) |}) ].

(** *** The sheet By Location *)

(** [series.unique()]: the values in the order of their first appearance. *)
Fixpoint unique_from (seen : gset (list N)) (l : list str) : list str :=
  match l with
  | [] => []
  | x :: l' =>
    if bool_decide (x ∈ seen) then unique_from seen l'
    else x :: unique_from ({[x]} ∪ seen) l'
  end.

Definition unique (l : list str) : list str := unique_from ∅ l.

(** [a <= b] on strings. *)
Definition str_leb (a b : str) : bool :=
  match str_compare a b with Gt => false | _ => true end.

Fixpoint insert_str (x : str) (l : list str) : list str :=
  match l with
  | [] => [x]
  | y :: l' => if str_leb x y then x :: l else y :: insert_str x l'
  end.

(** [sorted(l)] for a list of strings. *)
Definition sorted (l : list str) : list str := foldr insert_str [] l.

Section Worksheets.
(** [f'{x:.1f}']: the formatting of floats belongs to the interpreter. *)
Variable format_1f : float -> str.

(** [value or 'Unknown'] *)
Definition or_unknown (s : str) : str := if falsy s then lit "Unknown" else s.

Definition location_headers : list str :=
  [ lit "Business Name"; lit "Phone Number"; lit "Owner Name"; lit "Review Count";
    lit "Star Rating"; lit "Address"; lit "Website"; lit "Quality Score" ].

(** The eight cells of one business. *)
Definition location_row (current_row : nat) (row : ScoredRow) : list CellWrite :=
  [ (current_row, 1%nat, VStr (name (info row)));
    (current_row, 2%nat, VStr (phone (info row)));
    (current_row, 3%nat, VStr (or_unknown (owner_name (info row))));
    (current_row, 4%nat, VInt (review_count (info row)));
    (current_row, 5%nat, VFloat (star_rating (info row)));
    (current_row, 6%nat, VStr (address (info row)));
    (current_row, 7%nat, VStr (website (info row)));
    (current_row, 8%nat, VStr (format_1f (data_quality_score row) ++ lit "%")) ].

(** The loop over [location_data.iterrows()]: the cells written and the
    row reached. *)
Fixpoint location_rows (location_data : DataFrame ScoredRow) (current_row : nat)
  : list CellWrite * nat :=
  match location_data with
  | [] => ([], current_row)
  | ir :: rest =>
    let '(cells, last) := location_rows rest (S current_row) in
    (location_row current_row ir.2 ++ cells, last)
  end.

(** The loop over the headers: one cell for each, from column 1 on. *)
Definition header_cells (current_row : nat) : list CellWrite :=
  imap (fun i header => (current_row, S i, VStr header)) location_headers.

(** [data[data['location'] == loc]] *)
Definition at_location (data : DataFrame ScoredRow) (loc : str) : DataFrame ScoredRow :=
  List.filter (fun ir : nat * ScoredRow => bool_decide (location (info ir.2) = loc)) data.

(** One turn of the loop over the locations. *)
Definition location_block (data : DataFrame ScoredRow) (loc : str) (current_row : nat)
  : list CellWrite * nat :=
  let location_data := at_location data loc in
  let title :=
    (current_row, 1%nat,
     VStr (loc ++ lit " (" ++ str_of_nat (length location_data) ++ lit " businesses)")) in
  let current_row := (current_row + 2)%nat in
  let headers := header_cells current_row in
  let current_row := (current_row + 1)%nat in
  let '(rows, current_row) := location_rows location_data current_row in
  (title :: headers ++ rows, (current_row + 2)%nat).

Fixpoint location_blocks (data : DataFrame ScoredRow) (locs : list str) (current_row : nat)
  : list CellWrite * nat :=
  match locs with
  | [] => ([], current_row)
  | loc :: locs' =>
    let '(cells, current_row) := location_block data loc current_row in
    let '(cells', last) := location_blocks data locs' current_row in
    (cells ++ cells', last)
  end.

(** The cells that [_create_location_breakdown_sheet] writes, in order, and
    the value of [current_row] at the end. The fonts and fills of the
    headers and the widths of the columns are not part of the embedding. *)
Definition _create_location_breakdown_sheet (data : DataFrame ScoredRow)
  : list CellWrite * nat :=
  location_blocks data
    (sorted (unique ((fun ir : nat * ScoredRow => location (info ir.2)) <$> data))) 1.

End Worksheets.

Arguments location_row : simpl never.
Arguments header_cells : simpl never.

(** The row at which the block of the [k]-th location starts: each block
    before it takes five rows and one for each of its businesses. *)
Definition block_start (data : DataFrame ScoredRow) (locs : list str) (k : nat) : nat :=
  (1 + sum_list ((fun loc => 5 + length (at_location data loc))%nat <$> take k locs))%nat.

(** The cell that a write addresses. *)
Definition cell_of (w : CellWrite) : nat * nat := (w.1.1, w.1.2).

(** *** The sheet Summary: the counts among the key metrics *)

(** [len(data[condition])] *)
Definition count_where (p : ScoredRow -> bool) (data : DataFrame ScoredRow) : nat :=
  length (List.filter (fun ir : nat * ScoredRow => p ir.2) data).

(** [series.between(lo, hi)]: both ends are included. *)
Definition between (lo hi x : Z) : bool := (lo <=? x) && (x <=? hi).

(** The five counts of the list [metrics] in [_create_summary_sheet], with
    their labels. The date, the average score and the breakdown by location
    of the sheet are not part of the embedding. *)
Definition summary_counts (data : DataFrame ScoredRow) : list (str * nat) :=
  [ (lit "Businesses with phone numbers:",
     count_where (fun r => negb (bool_decide (phone (info r) = []))) data);
    (lit "Businesses with owner names:",
     count_where (fun r => negb (bool_decide (owner_name (info r) = []))) data);
    (lit "Businesses with 0 reviews:",
     count_where (fun r => review_count (info r) =? 0) data);
    (lit "Businesses with 1-3 reviews:",
     count_where (fun r => between 1 3 (review_count (info r))) data);
    (lit "Businesses with 4-10 reviews:",
     count_where (fun r => between 4 10 (review_count (info r))) data) ].

(** A review count that none of the three ranges of the sheet holds. *)
Definition no_range (x : Z) : bool := (x <? 0) || (10 <? x).

(** ** The report files and the other routes ([src/routes/scraping.py]) *)

(** [f'job_{job.id}_{job.job_name.replace(' ', '_')}'] *)
Definition job_prefix (job_id : nat) (job_name : str) : str :=
  lit "job_" ++ str_of_nat job_id ++ lit "_" ++ replace_spaces job_name.

(** The extension of each report. *)
Definition report_ext (k : ReportKind) : str :=
  match k with
  | Excel => lit ".xlsx"
  | Csv => lit ".csv"
  | Json => lit ".json"
  end.

(** [os.path.join(reports_dir, f'{job_prefix}.xlsx')] and the like. *)
Definition report_path (env : Env) (job_id : nat) (job_name : str) (k : ReportKind) : str :=
  path_join (reports_dir env) (job_prefix job_id job_name ++ report_ext k).











(** The score columns of a row set to those of a scored row. *)
Definition with_scores (row : ScoredRow) (b : BusinessData) : BusinessData :=
  {| bd_job_id := bd_job_id b; bd_business := bd_business b;
     bd_scraped_at := bd_scraped_at b;
     bd_priority_score := priority_score row;
     bd_data_quality_score := data_quality_score row |}.

(** Two rows that differ in their score columns at most. *)
Definition same_but_scores (b b' : BusinessData) : Prop :=
  bd_job_id b' = bd_job_id b /\ bd_business b' = bd_business b
  /\ bd_scraped_at b' = bd_scraped_at b.

(** The report calls that one run of the inner block adds. *)
Definition calls_added `{CharTables} (env : Env) (job_id : nat) (job : ScrapingJob)
    (now : datetime) (w : World) : list ReportCall :=
  drop (length (report_calls w)) (report_calls (try_block env job_id job now w).2).



(** The rows that [filter_by(job_id=job_id, name=n)] selects. *)
Definition is_match (job_id : nat) (n : str) (b : BusinessData) : bool :=
  bool_decide (bd_job_id b = job_id) && bool_decide (name (bd_business b) = n).

(** The row [b] at position [i] is the first row of the job with its name. *)
Definition first_of_name (job_id : nat) (t : list BusinessData) (i : nat) (b : BusinessData)
  : Prop :=
  bd_job_id b = job_id
  /\ forall j c, (j < i)%nat -> t !! j = Some c ->
       ~ (bd_job_id c = job_id /\ name (bd_business c) = name (bd_business b)).

(** The rows of a frame with a given name. *)
Definition rows_named (n : str) (df : DataFrame ScoredRow) : DataFrame ScoredRow :=
  List.filter (fun ir : nat * ScoredRow => bool_decide (name (info ir.2) = n)) df.

(** A small table and a filtered frame: two rows of job 1 with the same
    name, and two scored rows with that name. *)
Definition sample_row (job_id : nat) (n : str) : BusinessData :=
  {| bd_job_id := job_id; bd_business := business n [] []; bd_scraped_at := 0;
     bd_priority_score := 0; bd_data_quality_score := 0%float |}.

Definition sample_table : list BusinessData :=
  [ sample_row 1 (lit "Acme Heating"); sample_row 2 (lit "Acme Heating");
    sample_row 1 (lit "Acme Heating") ].

Definition sample_filtered : DataFrame ScoredRow :=
  [ (0%nat, {| info := business (lit "Acme Heating") (lit "(208) 555-0101") [];
               priority_score := 3; data_quality_score := 45%float |});
    (2%nat, {| info := business (lit "Acme Heating") (lit "(208) 555-0199") [];
               priority_score := 5; data_quality_score := 45%float |}) ].

(** ** Sessions and login ([src/auth.py]) *)

(** The session of a client: the three keys that the module writes; an
    absent key is [None]. The time of the login is kept as the reading of
    the clock: [datetime.fromisoformat] gives back the [datetime] that
    [isoformat] was called on. *)
Record Session := {
  authenticated : option bool;
  username : option str;
  login_time : option datetime
}.

(** [session.clear()] *)
Definition session_clear : Session :=
  {| authenticated := None; username := None; login_time := None |}.

(** The fields of [SimpleAuth] after [init_app]; the timeout is a
    [timedelta], in the unit of the clock. *)
Record SimpleAuth := {
  auth_username : str;
  password_hash : str;
  session_timeout : Z
}.

(** The JSON object or the form of a login request. *)
Record LoginData := {
  data_username : option str;
  data_password : option str
}.

(** What a guarded route answers. *)
Inductive Guarded (A : Type) :=
| Unauthorized
| RedirectToLogin
| Served (a : A).
Arguments Unauthorized {A}.
Arguments RedirectToLogin {A}.
Arguments Served {A} a.

Section Auth.
Context `{CharTables}.
(** [hashlib.sha256(s.encode()).hexdigest()] *)
Variable sha256_hexdigest : str -> str.

Definition _hash_password (password : str) : str :=
  sha256_hexdigest (password ++ lit "hvac_scraper_salt_2024").

(** [init_app], with the three values of the configuration; an hour of the
    clock is [hour]. *)
Definition init_app (hour : Z) (login_username login_password : str)
    (session_timeout_hours : Z) : SimpleAuth :=
  {| auth_username := login_username;
     password_hash := _hash_password login_password;
     session_timeout := session_timeout_hours * hour |}.

(** [is_authenticated]: the answer and the session it leaves. *)
Definition is_authenticated (self : SimpleAuth) (now : datetime) (session : Session)
  : bool * Session :=
  match authenticated session with
  | None | Some false => (false, session)
  | Some true =>
    match login_time session with
    | Some t =>
      if session_timeout self <? now - t then (false, session_clear) else (true, session)
    | None => (true, session)
    end
  end.

(** [login_page] for a POST request: whether the login succeeded, and the
    session it leaves. *)
Definition login_page (self : SimpleAuth) (data : LoginData) (now : datetime)
    (session : Session) : bool * Session :=
  let username := strip (default [] (data_username data)) in
  let password := default [] (data_password data) in
  if bool_decide (username = auth_username self)
     && bool_decide (_hash_password password = password_hash self)
  then (true, {| authenticated := Some true; username := Some username;
                 login_time := Some now |})
  else (false, session).

(** [logout] *)
Definition logout (session : Session) : Session := session_clear.

(** A route under [login_required]: [wants_json] is
    [request.is_json or request.path.startswith('/api/')], [f] the route
    on the state [St] of the service. *)
Definition login_required {A St : Type} (self : SimpleAuth) (f : St -> A * St)
    (wants_json : bool) (now : datetime) (session : Session) (st : St)
  : Guarded A * Session * St :=
  match is_authenticated self now session with
  | (false, session) =>
    (if wants_json then Unauthorized else RedirectToLogin, session, st)
  | (true, session) =>
    let '(a, st) := f st in (Served a, session, st)
  end.

(** Requests to a guarded route at the times [ts], one after the other:
    the answers, the session and the state at the end. *)
Fixpoint guarded_requests {A St : Type} (self : SimpleAuth) (f : St -> A * St)
    (wants_json : bool) (ts : list datetime) (session : Session) (st : St)
  : list (Guarded A) * Session * St :=
  match ts with
  | [] => ([], session, st)
  | t :: ts' =>
    let '(r, session, st) := login_required self f wants_json t session st in
    let '(rs, session, st) := guarded_requests self f wants_json ts' session st in
    (r :: rs, session, st)
  end.

End Auth.

(** The requests at the head of [ts] that come within the timeout of a
    login at [t0]. *)
Fixpoint in_time (timeout : Z) (t0 : datetime) (ts : list datetime) : list datetime :=
  match ts with
  | [] => []
  | t :: ts' => if timeout <? t - t0 then [] else t :: in_time timeout t0 ts'
  end.

(** The route [f] called [n] times: the answers and the state. *)
Fixpoint calls {A St : Type} (f : St -> A * St) (n : nat) (st : St) : list A * St :=
  match n with
  | O => ([], st)
  | S n' => let '(a, st) := f st in let '(l, st) := calls f n' st in (a :: l, st)
  end.

(** ** The scraper ([src/hvac_scraper_core.py]) *)

Module Scraper.

(** A dict that [search_google_maps] returns: each key may be absent. *)
Record Listing := {
  l_name : option str;
  l_address : option str;
  l_phone : option str;
  l_website : option str;
  l_star_rating : option float;
  l_review_count : option Z;
  l_hours : option str;
  l_category : option str;
  l_owner_name : option str;
  l_additional_contact : option str;
  l_google_maps_url : option str
}.

(** The collaborators of [scrape_location]: the search in the browser (with
    [max_results=20]), the creation of the HTTP session, the request of a
    page (its text when the status is 200), the two extractors on the text
    of a page, and the clock. A call that depends on the outside world
    takes the number of such calls made before it. *)
Record Web := {
  search_google_maps : nat -> str -> result (list Listing);
  setup_session : nat -> result unit;
  session_get : nat -> str -> result (option str);
  extract_contact_from_website : str -> result str;
  extract_owner_from_website : str -> result str;
  now_isoformat : nat -> str
}.

(** The scraper object: the calls made so far and whether [self.session]
    is set. *)
Record ScraperState := {
  calls_made : nat;
  has_session : bool
}.

Definition tick (s : ScraperState) : ScraperState :=
  {| calls_made := S (calls_made s); has_session := has_session s |}.

(** The truth value of [d.get(key)] for a key that holds a string. *)
Definition truthy (v : option str) : bool :=
  match v with
  | Some s => negb (falsy s)
  | None => false
  end.

(** [enriched['additional_contact'] = v] *)
Definition set_additional_contact (v : str) (l : Listing) : Listing :=
  {| l_name := l_name l; l_address := l_address l; l_phone := l_phone l;
     l_website := l_website l; l_star_rating := l_star_rating l;
     l_review_count := l_review_count l; l_hours := l_hours l;
     l_category := l_category l; l_owner_name := l_owner_name l;
     l_additional_contact := Some v; l_google_maps_url := l_google_maps_url l |}.

(** [enriched['owner_name'] = v] *)
Definition set_owner_name (v : str) (l : Listing) : Listing :=
  {| l_name := l_name l; l_address := l_address l; l_phone := l_phone l;
     l_website := l_website l; l_star_rating := l_star_rating l;
     l_review_count := l_review_count l; l_hours := l_hours l;
     l_category := l_category l; l_owner_name := Some v;
     l_additional_contact := l_additional_contact l;
     l_google_maps_url := l_google_maps_url l |}.

(** [if not self.session: self.session = await self.setup_session()] *)
Definition ensure_session (web : Web) (s : ScraperState) : result unit * ScraperState :=
  if has_session s then (Ok (), s)
  else
    match setup_session web (calls_made s) with
    | Ok _ => (Ok (), {| calls_made := S (calls_made s); has_session := true |})
    | Raise e => (Raise e, tick s)
    end.

(** The part of [enrich_business_data] that reads the page: [enriched] as
    it is when the [try] block is left, by its end or by an exception. *)
Definition enrich_from_website (web : Web) (content : str) (enriched : Listing) : Listing :=
  match extract_contact_from_website web content with
  | Raise _ => enriched
  | Ok contact_info =>
    let enriched :=
      if falsy contact_info then enriched else set_additional_contact contact_info enriched in
    if truthy (l_owner_name enriched) then enriched
    else
      match extract_owner_from_website web content with
      | Raise _ => enriched
      | Ok owner_info =>
        if falsy owner_info then enriched else set_owner_name owner_info enriched
      end
  end.

Definition enrich_business_data (web : Web) (s : ScraperState) (business : Listing)
  : result Listing * ScraperState :=
  match ensure_session web s with
  | (Raise e, s) => (Raise e, s)
  | (Ok _, s) =>
    if truthy (l_website business) then
      match session_get web (calls_made s) (default [] (l_website business)) with
      | Ok (Some content) => (Ok (enrich_from_website web content business), tick s)
      | Ok None => (Ok business, tick s)
      | Raise _ => (Ok business, tick s)
      end
    else (Ok business, s)
  end.

(** The five queries of [scrape_location]. *)
Definition queries (business_type loc : str) : list str :=
  [ business_type ++ lit " companies in " ++ loc;
    lit "heating and cooling " ++ loc;
    lit "air conditioning " ++ loc;
    lit "furnace repair " ++ loc;
    business_type ++ lit " contractors " ++ loc ].

(** [BusinessInfo(name=enriched_business.get('name', ''), ...)] *)
Definition business_info (loc : str) (now : str) (e : Listing) : BusinessInfo :=
  {| name := default [] (l_name e);
     address := default [] (l_address e);
     phone := default [] (l_phone e);
     website := default [] (l_website e);
     star_rating := default 0%float (l_star_rating e);
     review_count := default 0 (l_review_count e);
     hours := default [] (l_hours e);
     category := default (lit "HVAC") (l_category e);
     owner_name := default [] (l_owner_name e);
     additional_contact := default [] (l_additional_contact e);
     location := loc;
     scraped_at := now;
     google_maps_url := default [] (l_google_maps_url e) |}.

(** The variables of the loops of [scrape_location]. *)
Record Loop := {
  all_businesses : list BusinessInfo;
  processed_names : gset (list N);
  scraper : ScraperState
}.

(** The loop over the businesses of one query; [false] when its body
    raised, which ends the loop. *)
Fixpoint scrape_businesses (web : Web) (loc : str) (businesses : list Listing) (st : Loop)
  : bool * Loop :=
  match businesses with
  | [] => (true, st)
  | business :: rest =>
    let business_name := default [] (l_name business) in
    if negb (falsy business_name) && negb (bool_decide (business_name ∈ processed_names st))
    then
      let processed := {[business_name]} ∪ processed_names st in
      match enrich_business_data web (scraper st) business with
      | (Raise _, s) =>
        (false, {| all_businesses := all_businesses st; processed_names := processed;
                   scraper := s |})
      | (Ok enriched_business, s) =>
        let info := business_info loc (now_isoformat web (calls_made s)) enriched_business in
        scrape_businesses web loc rest
          {| all_businesses := all_businesses st ++ [info]; processed_names := processed;
             scraper := tick s |}
      end
    else scrape_businesses web loc rest st
  end.

(** The loop over the queries: an exception in the body of a turn ends
    the turn. The delays are not part of the embedding. *)
Fixpoint scrape_queries (web : Web) (loc : str) (qs : list str) (st : Loop) : Loop :=
  match qs with
  | [] => st
  | query :: qs' =>
    let st' := {| all_businesses := all_businesses st;
                  processed_names := processed_names st;
                  scraper := tick (scraper st) |} in
    match search_google_maps web (calls_made (scraper st)) query with
    | Raise _ => scrape_queries web loc qs' st'
    | Ok businesses => scrape_queries web loc qs' (scrape_businesses web loc businesses st').2
    end
  end.

(** [scrape_location]: the list it returns and the scraper it leaves. *)
Definition scrape_location (web : Web) (s : ScraperState) (loc business_type : str)
  : list BusinessInfo * ScraperState :=
  let st := scrape_queries web loc (queries business_type loc)
              {| all_businesses := []; processed_names := ∅; scraper := s |} in
  (all_businesses st, scraper st).

(** The fields of a record that are those of a listing. *)
Definition copied_from (l : Listing) (b : BusinessInfo) : Prop :=
  l_name l = Some (name b)
  /\ address b = default [] (l_address l)
  /\ phone b = default [] (l_phone l)
  /\ website b = default [] (l_website l)
  /\ star_rating b = default 0%float (l_star_rating l)
  /\ review_count b = default 0 (l_review_count l)
  /\ hours b = default [] (l_hours l)
  /\ category b = default (lit "HVAC") (l_category l)
  /\ google_maps_url b = default [] (l_google_maps_url l)
  /\ (truthy (l_owner_name l) = true -> owner_name b = default [] (l_owner_name l))
  /\ (truthy (l_website l) = false ->
      owner_name b = default [] (l_owner_name l)
      /\ additional_contact b = default [] (l_additional_contact l)).

(** A record of the result and the search it comes from. *)
Definition found_by (web : Web) (loc business_type : str) (b : BusinessInfo) : Prop :=
  name b <> [] /\ location b = loc
  /\ exists n query found l,
       query ∈ queries business_type loc
       /\ search_google_maps web n query = Ok found
       /\ l ∈ found
       /\ copied_from l b.

(** What the loops keep: the names of the records are pairwise different
    and among the processed names, and each record satisfies [P]. *)
Definition loop_inv (P : BusinessInfo -> Prop) (st : Loop) : Prop :=
  NoDup (name <$> all_businesses st)
  /\ Forall (fun b => name b ∈ processed_names st /\ P b) (all_businesses st).

(** A web in which every search finds two listings of the same name. *)
Definition sample_found : Listing :=
  {| l_name := Some (lit "Acme Heating"); l_address := Some (lit "12 Main St");
     l_phone := Some (lit "(208) 555-0199"); l_website := Some [];
     l_star_rating := Some 5%float; l_review_count := Some 2; l_hours := Some [];
     l_category := Some (lit "HVAC"); l_owner_name := Some [];
     l_additional_contact := Some []; l_google_maps_url := Some (lit "https://maps.example/1") |}.

Definition sample_web : Web :=
  {| search_google_maps := fun _ _ => Ok [sample_found; sample_found];
     setup_session := fun _ => Ok ();
     session_get := fun _ _ => Ok None;
     extract_contact_from_website := fun _ => Ok [];
     extract_owner_from_website := fun _ => Ok [];
     now_isoformat := fun _ => lit "2024-01-01T00:00:00" |}.

End Scraper.







(** * Properties *)

(** ** The ASCII tables satisfy the laws *)

Lemma ascii_tables_laws : @CharTablesLaws ascii_tables.
Proof.
  split; simpl.
  - intros c Hc. by rewrite (proj2 (N.ltb_lt c 128) Hc).
  - intros c Hc. by rewrite (proj2 (N.ltb_lt c 128) Hc).
  - intros c Hc. by rewrite (proj2 (N.ltb_lt c 128) Hc).
  - done.
  - intros c [_ Hs]%andb_true_iff. apply andb_false_intro2.
    unfold ascii_space, ascii_digit in *.
    destruct (N.leb_spec 48 c), (N.leb_spec c 57); try done.
    destruct (N.leb_spec 9 c), (N.leb_spec c 13), (N.leb_spec 28 c), (N.leb_spec c 32);
      simpl in Hs; try done; lia.
Qed.

(** ** The pipeline as its stages *)

Lemma apply_column_compose {A} (f g : A -> A) (df : DataFrame A) :
  apply_column f (apply_column g df) = apply_column (fun r => f (g r)) df.
Proof.
  unfold apply_column. rewrite List.map_map. by apply List.map_ext.
Qed.

(** On a non-empty input [clean_and_validate_data] is the Normalizer on
    every row, then the Deduplicator, then the Scorer; the scored frame is
    returned and kept in [processed_data]. *)
Lemma clean_and_validate_data_stages `{CharTables} (self : HVACDataProcessor) :
  businesses self <> [] ->
  clean_and_validate_data self =
    (df ← add_scores (dedupe (apply_column normalize (make_frame (businesses self))));
     Ok (df, {| businesses := businesses self; processed_data := Some df |})).
Proof.
  intros Hne. unfold clean_and_validate_data.
  destruct (make_frame (businesses self)) as [|ir df] eqn:E.
  { destruct (businesses self); [done|discriminate E]. }
  rewrite !apply_column_compose. reflexivity.
Qed.

(** ** Phone numbers *)

Section PhoneProps.
Context `{CharTablesLaws}.

Lemma only_digits_lstrip s : only_digits (lstrip s) = only_digits s.
Proof.
  induction s as [|c s IH]; simpl; [done|].
  destruct (is_space c) eqn:E; [|done].
  rewrite IH. unfold only_digits at 2. simpl. by rewrite (space_not_digit c E).
Qed.

Lemma only_digits_rev s : only_digits (rev s) = rev (only_digits s).
Proof.
  unfold only_digits. induction s as [|c s IH]; simpl; [done|].
  rewrite List.filter_app, IH. simpl.
  destruct (is_digit c); simpl; [done|by rewrite app_nil_r].
Qed.

Lemma only_digits_strip s : only_digits (strip s) = only_digits s.
Proof.
  unfold strip, rstrip.
  rewrite only_digits_rev, only_digits_lstrip, only_digits_rev, rev_involutive.
  apply only_digits_lstrip.
Qed.

Lemma only_digits_ascii (s : str) :
  forallb (fun c => c <? 128)%N s = true ->
  only_digits s = List.filter ascii_digit s.
Proof.
  unfold only_digits. induction s as [|c s IH]; simpl; [done|].
  intros [Hc Hs]%andb_true_iff. rewrite IH, digit_ascii; [done| |done].
  by apply N.ltb_lt.
Qed.

(** The method as a function of the digits of its argument. *)
Lemma validate_phone_number_digits (p : str) :
  _validate_phone_number p =
    let d := only_digits p in
    if (length d =? 10)%nat then
      phone_format (take 3 d) (take 3 (drop 3 d)) (drop 6 d)
    else if (length d =? 11)%nat && bool_decide (d !! 0%nat = Some (chr "1")) then
      phone_format (take 3 (drop 1 d)) (take 3 (drop 4 d)) (drop 7 d)
    else [].
Proof.
  unfold _validate_phone_number. destruct p as [|c p]; [done|].
  cbn [falsy]. cbv zeta. by rewrite only_digits_strip.
Qed.

(** C6. Phone normalization keeps the digits of its argument: with exactly
    ten digits it returns them as (AAA) BBB-CCCC; with exactly eleven digits
    of which the first is 1 it returns the last ten in that format; for
    every other sequence of digits it returns the empty string. The two
    examples of the specification are instances. *)
Theorem validate_phone_number_spec (phone : str) :
  let d := only_digits phone in
  (length d = 10%nat ->
     _validate_phone_number phone =
       lit "(" ++ take 3 d ++ lit ") " ++ take 3 (drop 3 d) ++ lit "-" ++ drop 6 d)
  /\ (length d = 11%nat -> d !! 0%nat = Some (chr "1") ->
     _validate_phone_number phone =
       lit "(" ++ take 3 (drop 1 d) ++ lit ") " ++ take 3 (drop 3 (drop 1 d))
         ++ lit "-" ++ drop 6 (drop 1 d))
  /\ (length d <> 10%nat -> ~ (length d = 11%nat /\ d !! 0%nat = Some (chr "1")) ->
     _validate_phone_number phone = [])
  /\ _validate_phone_number (lit "1-208-555-1234") = lit "(208) 555-1234"
  /\ _validate_phone_number (lit "555-1234") = [].
Proof.
  cbv zeta. repeat split.
  - intros Hl. rewrite validate_phone_number_digits. cbv zeta. by rewrite Hl.
  - intros Hl Hd0. rewrite validate_phone_number_digits. cbv zeta. rewrite Hl.
    cbn [Nat.eqb andb]. rewrite bool_decide_eq_true_2 by done. by rewrite !drop_drop.
  - intros Hn10 Hn11. rewrite validate_phone_number_digits. cbv zeta.
    destruct (Nat.eqb_spec (length (only_digits phone)) 10); [done|].
    destruct (Nat.eqb_spec (length (only_digits phone)) 11); [|done].
    rewrite bool_decide_eq_false_2; [done|]. intros ?. by apply Hn11.
  - rewrite validate_phone_number_digits. cbv zeta.
    rewrite only_digits_ascii by reflexivity. reflexivity.
  - rewrite validate_phone_number_digits. cbv zeta.
    rewrite only_digits_ascii by reflexivity. reflexivity.
Qed.

End PhoneProps.

Lemma validate_phone_number_spec_witness :
  @CharTablesLaws ascii_tables
  /\ @_validate_phone_number ascii_tables (lit "208 555 1234 x") = lit "(208) 555-1234".
Proof.
  split; [exact ascii_tables_laws|].
  destruct (@validate_phone_number_spec ascii_tables ascii_tables_laws (lit "208 555 1234 x"))
    as [H10 _].
  rewrite H10; reflexivity.
Defined.

(** ** Deduplicator *)

Lemma elem_of_drop_duplicates_from seen df ir :
  (ir ∈ drop_duplicates_from seen df) <->
  (exists k, df !! k = Some ir /\ (dedup_key ir.2 ∉ seen) /\
    forall j x, (j < k)%nat -> df !! j = Some x -> dedup_key x.2 <> dedup_key ir.2).
Proof.
  revert seen. induction df as [|[i r] df IH]; intros seen; simpl.
  - split; [by intros ?%elem_of_nil|]. by intros (k & ? & _).
  - case_bool_decide as Hin.
    + rewrite IH. split.
      * intros (k & Hk & Hs & Hf). exists (S k). split; [done|]. split; [done|].
        intros [|j] x Hj Hx; simpl in *.
        -- simplify_eq. simpl. intros E. apply Hs. by rewrite <- E.
        -- apply (Hf j); [lia|done].
      * intros ([|k] & Hk & Hs & Hf); simpl in *.
        -- by simplify_eq.
        -- exists k. split; [done|]. split; [done|].
           intros j x Hj Hx. apply (Hf (S j)); [lia|done].
    + rewrite elem_of_cons, IH. split.
      * intros [->|(k & Hk & Hs & Hf)].
        -- exists 0%nat. split; [done|]. split; [done|]. intros j x Hj. lia.
        -- exists (S k). split; [done|]. split.
           { intros ?. apply Hs, elem_of_union. by right. }
           intros [|j] x Hj Hx; simpl in *.
           ++ simplify_eq. simpl. intros E. apply Hs. rewrite <- E.
              apply elem_of_union. left. by apply elem_of_singleton.
           ++ apply (Hf j); [lia|done].
      * intros ([|k] & Hk & Hs & Hf); simpl in *.
        -- simplify_eq. by left.
        -- right. exists k. split; [done|]. split.
           ++ intros [E%elem_of_singleton|?]%elem_of_union; [|done].
              apply (Hf 0%nat (i, r)); [lia|done|by rewrite E].
           ++ intros j x Hj Hx. apply (Hf (S j)); [lia|done].
Qed.




Lemma elem_of_must_have_name df ir :
  (ir ∈ must_have_name df) <-> (ir ∈ df /\ name ir.2 <> []).
Proof.
  unfold must_have_name. rewrite list_elem_of_In, List.filter_In, <- list_elem_of_In.
  rewrite Nat.ltb_lt. destruct (name ir.2); simpl; split; intros [? ?]; split; try done; lia.
Qed.

Lemma make_frame_lookup {A} (l : list A) k i (x : A) :
  make_frame l !! k = Some (i, x) <-> (i = k /\ l !! k = Some x).
Proof.
  unfold make_frame. rewrite list_lookup_imap. destruct (l !! k); simpl.
  - split; [by intros [= -> ->]|by intros [-> [= ->]]].
  - split; [done|by intros [_ ?]].
Qed.

(** The rows that survive deduplication, by position in the input. *)
Lemma elem_of_dedupe (l : list BusinessInfo) (k : nat) (r : BusinessInfo) :
  ((k, r) ∈ dedupe (make_frame l)) <->
  (l !! k = Some r /\ name r <> [] /\
   forall j x, (j < k)%nat -> l !! j = Some x -> dedup_key x <> dedup_key r).
Proof.
  unfold dedupe. rewrite elem_of_must_have_name. unfold drop_duplicates.
  rewrite elem_of_drop_duplicates_from. simpl. split.
  - intros [(k' & Hk' & _ & Hf) Hn]. apply make_frame_lookup in Hk' as [-> Hk'].
    split; [done|]. split; [done|]. intros j x Hj Hx.
    apply (Hf j (j, x)); [done|]. by apply make_frame_lookup.
  - intros (Hk & Hn & Hf). split; [|done]. exists k.
    split; [by apply make_frame_lookup|]. split; [apply not_elem_of_empty|].
    intros j [i x] Hj [-> Hx]%make_frame_lookup. simpl. by apply (Hf j).
Qed.




(** ** RankFilter *)

Lemma str_compare_le a b : str_compare a b <> Gt <-> str_lex_le a b.
Proof.
  revert b. induction a as [|x a IH]; intros [|y b]; simpl.
  - split; [constructor|done].
  - split; [constructor|done].
  - split; [done|inversion 1].
  - destruct (N.compare_spec x y) as [->|Hlt|Hgt].
    + rewrite IH. split; [by apply lex_eq|]. inversion 1; subst; [lia|done].
    + split; [by intros _; apply lex_lt|done].
    + split; [done|]. inversion 1; subst; [lia|lia].
Qed.

Lemma str_lex_le_total a b : str_lex_le a b \/ str_lex_le b a.
Proof.
  revert b. induction a as [|x a IH]; intros [|y b]; try (left; constructor; fail);
    try (right; constructor; fail).
  destruct (N.compare_spec x y) as [->|Hlt|Hgt].
  - destruct (IH b); [left|right]; by apply lex_eq.
  - left. by apply lex_lt.
  - right. by apply lex_lt.
Qed.

Lemma str_lex_le_trans a b c : str_lex_le a b -> str_lex_le b c -> str_lex_le a c.
Proof.
  intros Hab. revert c. induction Hab as [b|x y a b Hxy|x a b Hab IH]; intros c Hbc.
  - constructor.
  - inversion Hbc; subst; apply lex_lt; lia.
  - inversion Hbc; subst; [by apply lex_lt|]. apply lex_eq. by apply IH.
Qed.

Lemma key_leb_le a b : key_leb a b = true <-> key_le a b.
Proof.
  unfold key_leb, key_compare, key_le.
  destruct (Z.compare_spec (priority_score a) (priority_score b)) as [Hp|Hp|Hp].
  - destruct (Z.compare_spec (review_count (info a)) (review_count (info b))) as [Hr|Hr|Hr].
    + pose proof (str_compare_le (name (info a)) (name (info b))) as Hs.
      destruct (str_compare _ _); split; intros Hk; try done.
      * right. split; [done|]. right. split; [done|]. by apply Hs.
      * right. split; [done|]. right. split; [done|]. by apply Hs.
      * exfalso. destruct Hk as [?|[_ [?|[_ Hl]]]]; [lia|lia|]. by apply Hs in Hl.
    + split; [intros _; right; split; [done|by left]|done].
    + split; [done|]. intros [?|[_ [?|[? _]]]]; lia.
  - split; [by left|done].
  - split; [done|]. intros [?|[? _]]; lia.
Qed.

Lemma key_le_total a b : key_le a b \/ key_le b a.
Proof.
  unfold key_le.
  destruct (Z.lt_total (priority_score a) (priority_score b)) as [?|[Hp|?]];
    [by (left; left)| |by (right; left)].
  destruct (Z.lt_total (review_count (info a)) (review_count (info b))) as [?|[Hr|?]].
  - left. right. split; [done|by left].
  - destruct (str_lex_le_total (name (info a)) (name (info b))); [left|right]; right;
      (split; [done|]); right; (split; [done|]); done.
  - right. right. split; [done|by left].
Qed.

Lemma key_le_trans a b c : key_le a b -> key_le b c -> key_le a c.
Proof.
  unfold key_le. intros [?|[Hp [?|[Hr Hs]]]] [?|[Hp' [?|[Hr' Hs']]]];
    try (left; lia); try (right; split; [lia|]; left; lia).
  right. split; [lia|]. right. split; [lia|]. by eapply str_lex_le_trans.
Qed.

Lemma insert_row_perm x l : insert_row x l ≡ₚ x :: l.
Proof.
  induction l as [|y l IH]; simpl; [done|].
  destruct (key_leb x.2 y.2); [done|]. rewrite IH. apply Permutation_swap.
Qed.

Lemma sort_values_perm df : sort_values df ≡ₚ df.
Proof.
  unfold sort_values. induction df as [|x df IH]; simpl; [done|].
  by rewrite insert_row_perm, IH.
Qed.

Lemma insert_row_sorted x l :
  StronglySorted row_le l -> StronglySorted row_le (insert_row x l).
Proof.
  induction 1 as [|y l Hs IH Hall]; simpl.
  - repeat constructor.
  - destruct (key_leb x.2 y.2) eqn:E.
    + apply key_leb_le in E. constructor; [by constructor|].
      constructor; [done|]. eapply Forall_impl; [exact Hall|].
      intros z Hz. by eapply key_le_trans.
    + constructor; [done|].
      rewrite (insert_row_perm x l). constructor; [|done].
      destruct (key_le_total x.2 y.2) as [Hxy|Hyx]; [|done].
      apply key_leb_le in Hxy. congruence.
Qed.

Lemma sort_values_sorted df : StronglySorted row_le (sort_values df).
Proof.
  unfold sort_values. induction df as [|x df IH]; simpl; [constructor|].
  by apply insert_row_sorted.
Qed.

(** C4. On a processor that holds a frame, the selection returns the rows
    of the frame with review_count <= maxReviews, data_quality_score >=
    minQuality and a non-empty phone, each as often as the frame has it,
    sorted non-decreasing by (priority_score, review_count, name). *)
Theorem filter_by_criteria_spec (self : HVACDataProcessor) (df : DataFrame ScoredRow)
    (max_reviews : Z) (min_quality_score : float) :
  processed_data self = Some df ->
  exists out,
    filter_by_criteria self max_reviews min_quality_score = Ok out
    /\ (forall ir, (ir ∈ out) <->
          (ir ∈ df /\ review_count (info ir.2) <= max_reviews
           /\ (min_quality_score <=? data_quality_score ir.2)%float = true
           /\ phone (info ir.2) <> []))
    /\ out ≡ₚ List.filter (fun ir => meets_criteria max_reviews min_quality_score ir.2) df
    /\ StronglySorted row_le out.
Proof.
  intros Hp. unfold filter_by_criteria. rewrite Hp. eexists. split; [done|].
  split; [|split].
  - intros ir. rewrite sort_values_perm, list_elem_of_In, List.filter_In, <- list_elem_of_In.
    unfold meets_criteria. rewrite !andb_true_iff, Z.leb_le, negb_true_iff, bool_decide_eq_false.
    tauto.
  - apply sort_values_perm.
  - apply sort_values_sorted.
Qed.

Lemma filter_by_criteria_spec_witness :
  exists out,
    filter_by_criteria {| businesses := []; processed_data := Some sample_scored |} 20 40 = Ok out
    /\ (forall ir, (ir ∈ out) <->
          (ir ∈ sample_scored /\ review_count (info ir.2) <= 20
           /\ (40 <=? data_quality_score ir.2)%float = true
           /\ phone (info ir.2) <> []))
    /\ out ≡ₚ List.filter (fun ir => meets_criteria 20 40 ir.2) sample_scored
    /\ StronglySorted row_le out.
Proof.
  exact (filter_by_criteria_spec
           {| businesses := []; processed_data := Some sample_scored |}
           sample_scored 20 40 eq_refl).
Defined.

(** On the sample the row without a phone is dropped, and the tie on the
    two scores is broken by the review count. *)
Example filter_by_criteria_sample :
  (fun ir : nat * ScoredRow => ir.1) <$>
    (match filter_by_criteria {| businesses := []; processed_data := Some sample_scored |} 20 40
     with Ok out => out | Raise _ => [] end) = [2%nat; 0%nat].
Proof. reflexivity. Qed.

(** ** Scorer *)

Lemma binary_round_aux_sign prec emax m e l :
  nonneg_shape (binary_round_aux prec emax false m e l).
Proof.
  unfold binary_round_aux.
  destruct (shr_fexp prec emax m e l) as [mrs' e'].
  destruct (shr_fexp prec emax _ e' loc_Exact) as [mrs'' e''].
  destruct (shr_m mrs''); [done| |done].
  by destruct (e'' <=? emax - prec).
Qed.








(** In binary64 the quotient by 100 followed by the product with 100 gives
    back the weight itself, except for 55, where it gives the next float. *)
Lemma quality_score_exact (row : BusinessInfo) :
  _calculate_data_quality_score row =
    if present_weight row =? 55 then 0x1.b800000000001p+5%float
    else float_of_Z (present_weight row).
Proof.
  unfold _calculate_data_quality_score, present_weight, total_weight, quality_weights.
  destruct (falsy (name row)), (falsy (phone row)), (falsy (address row)),
    (falsy (owner_name row)), (has_website row), (0 <? review_count row),
    (falsy (additional_contact row)); vm_compute; reflexivity.
Qed.


(** The scenario of the specification, evaluated. *)
Example scorer_scenario :
  let row := with_owner_name (lit "John Smith")
               (business (lit "Acme Heating") (lit "(208) 555-1234") []) in
  _calculate_priority_score row = Ok 0
  /\ _calculate_data_quality_score row = 65%float.
Proof. split; reflexivity. Qed.

(** ** Normalizer: white space *)


Section StripProps.
Context `{CharTables}.

Lemma lstrip_length s : (length (lstrip s) <= length s)%nat.
Proof. induction s as [|c s IH]; simpl; [done|]. destruct (is_space c); simpl; lia. Qed.

Lemma lstrip_fixed s :
  lstrip s = s <-> match s with [] => True | c :: _ => is_space c = false end.
Proof.
  destruct s as [|c s]; simpl; [done|]. destruct (is_space c) eqn:E; [|done].
  split; [|done]. intros Hs. pose proof (lstrip_length s) as Hl.
  rewrite Hs in Hl. simpl in Hl. lia.
Qed.

Lemma lstrip_idem s : lstrip (lstrip s) = lstrip s.
Proof.
  induction s as [|c s IH]; simpl; [done|].
  destruct (is_space c) eqn:E; [done|]. simpl. by rewrite E.
Qed.

Lemma lstrip_snoc s c : is_space c = false -> lstrip (s ++ [c]) = lstrip s ++ [c].
Proof.
  intros Hc. induction s as [|d s IH]; simpl; [by rewrite Hc|].
  by destruct (is_space d).
Qed.

Lemma rstrip_cons c s : is_space c = false -> rstrip (c :: s) = c :: rstrip s.
Proof.
  intros Hc. unfold rstrip. simpl. rewrite lstrip_snoc by done.
  by rewrite rev_app_distr.
Qed.


Lemma strip_stripped s : stripped (strip s).
Proof.
  unfold stripped, strip. split.
  - pose proof (lstrip_idem s) as Hi. destruct (lstrip s) as [|c m] eqn:Em; [done|].
    apply lstrip_fixed in Hi. rewrite rstrip_cons by done. by apply lstrip_fixed.
  - unfold rstrip. rewrite rev_involutive. apply lstrip_idem.
Qed.

Lemma stripped_strip s : stripped s -> strip s = s.
Proof.
  intros [Hl Hr]. unfold strip, rstrip. by rewrite Hl, Hr, rev_involutive.
Qed.

Lemma stripped_nil : stripped [].
Proof. done. Qed.

End StripProps.

(** ** Normalizer: business names *)


Section RegexProps.
Context `{CharTables}.


Lemma ci_prefix_Some W q r :
  ci_prefix W q = Some r <-> exists x, q = x ++ r /\ ci_matches W x.
Proof.
  revert q. induction W as [|a W IH]; intros q; simpl.
  - split.
    + intros [= ->]. exists []. split; [done|constructor].
    + intros (x & -> & Hx). by inversion Hx.
  - destruct q as [|c q].
    + split; [done|]. intros (x & Hq & Hx). inversion Hx; subst. done.
    + destruct (ci_eq a c) eqn:E.
      * rewrite IH. split.
        -- intros (x & -> & Hx). exists (c :: x). split; [done|by constructor].
        -- intros (x & Hq & Hx). inversion Hx as [|? c' ? x' Hc Hx']; subst.
           simplify_eq/=. by exists x'.
      * split; [done|]. intros (x & Hq & Hx). inversion Hx; subst.
        simplify_eq/=. congruence.
Qed.

Lemma at_end_cases r : at_end r = true <-> r = [] \/ r = [c_newline].
Proof.
  destruct r as [|c [|d r]]; simpl.
  - split; [by left|done].
  - rewrite N.eqb_eq. split; [intros ->; by right|]. by intros [?|[= ->]].
  - split; [done|]. by intros [?|?].
Qed.

Lemma match_suffix_Some W q r :
  match_suffix W q = Some r ->
  exists x, ci_matches W x /\ at_end r = true /\ (q = x ++ r \/ q = x ++ c_dot :: r).
Proof.
  unfold match_suffix. destruct (ci_prefix W q) as [rest|] eqn:E; [|done].
  apply ci_prefix_Some in E as (x & -> & Hx).
  destruct rest as [|d rest'].
  - intros [= <-]. exists x. split; [done|]. split; [done|by left].
  - destruct ((d =? c_dot)%N && at_end rest') eqn:E1.
    + intros [= <-]. apply andb_true_iff in E1 as [->%N.eqb_eq ?].
      exists x. split; [done|]. split; [done|by right].
    + destruct (at_end (d :: rest')) eqn:E2; [|done].
      intros [= <-]. exists x. split; [done|]. split; [done|by left].
Qed.

Lemma sub_suffix_from_cases W prev s :
  sub_suffix_from W prev s = s
  \/ exists p x r, ci_matches W x /\ at_end r = true
       /\ (s = p ++ x ++ r \/ s = p ++ x ++ c_dot :: r)
       /\ sub_suffix_from W prev s = p ++ W ++ r.
Proof.
  revert prev. induction s as [|c s IH]; intros prev; simpl; [by left|].
  destruct (if word_boundary prev (Some c) then match_suffix W (c :: s) else None)
    as [r|] eqn:E.
  - right. destruct (word_boundary prev (Some c)); [|done].
    apply match_suffix_Some in E as (x & Hx & Hr & Hq).
    exists [], x, r. simpl. by destruct Hq as [->| ->]; auto.
  - destruct (IH (Some c)) as [->|(p & x & r & Hx & Hr & Hs & ->)]; [by left|].
    right. exists (c :: p), x, r. simpl.
    split; [done|]. split; [done|]. split; [|done]. by destruct Hs as [->| ->]; auto.
Qed.

Lemma sub_suffix_from_fixed W prev s :
  (forall q r, q `suffix_of` s -> match_suffix W q = Some r -> W ++ r = q) ->
  sub_suffix_from W prev s = s.
Proof.
  revert prev. induction s as [|c s IH]; intros prev Hq; simpl; [done|].
  destruct (if word_boundary prev (Some c) then match_suffix W (c :: s) else None)
    as [r|] eqn:E.
  - destruct (word_boundary prev (Some c)); [|done]. by apply Hq.
  - f_equal. apply IH. intros q r Hs. apply Hq. by apply suffix_cons_r.
Qed.

End RegexProps.



Lemma lit_LLC : lit "LLC" = [76; 76; 67]%N.
Proof. reflexivity. Qed.
Lemma lit_Inc : lit "Inc" = [73; 110; 99]%N.
Proof. reflexivity. Qed.
Lemma lit_Corp : lit "Corp" = [67; 111; 114; 112]%N.
Proof. reflexivity. Qed.

Ltac invert_matches :=
  unfold ci_matches in *;
  repeat match goal with
  | H : Forall2 _ (_ :: _) _ |- _ =>
    apply Forall2_cons_inv_l in H as (? & ? & ? & H & ->)
  | H : Forall2 _ [] _ |- _ => apply Forall2_nil_inv_l in H as ->
  end.

Ltac ci_contra :=
  match goal with
  | Hc : ci_eq ?a ?b = true |- _ =>
    rewrite ci_ascii in Hc by reflexivity; vm_compute in Hc; discriminate Hc
  end.

Ltac by_ends Heq :=
  apply (f_equal (@rev N)) in Heq; rewrite ?rev_app_distr in Heq; simpl in Heq;
  simplify_eq; try ci_contra.

Section NameIdem.
Context `{CharTablesLaws}.

Lemma entity_suffix_fixed W W' p :
  entity_suffix W -> entity_suffix W' -> sub_suffix W (p ++ W') = p ++ W'.
Proof.
  intros HW HW'. apply sub_suffix_from_fixed. intros q r [k Hk] Hm.
  apply match_suffix_Some in Hm as (x & Hx & Hr & Hq).
  apply at_end_cases in Hr.
  destruct HW as [->|[->| ->]], HW' as [->|[->| ->]];
    rewrite ?lit_LLC, ?lit_Inc, ?lit_Corp in *; invert_matches;
    destruct Hr as [->| ->], Hq as [->| ->]; by_ends Hk; try done.
Qed.


Lemma entity_suffix_last W : entity_suffix W ->
  exists W0 c, W = W0 ++ [c] /\ (c < 128)%N /\ ascii_space c = false
    /\ c <> c_quote /\ c <> c_newline.
Proof.
  intros [->|[->| ->]]; rewrite ?lit_LLC, ?lit_Inc, ?lit_Corp.
  - by exists [76; 76]%N, 67%N.
  - by exists [73; 110]%N, 99%N.
  - by exists [67; 111; 114]%N, 112%N.
Qed.

Lemma entity_suffix_head W : entity_suffix W ->
  exists c W0, W = c :: W0 /\ (c < 128)%N /\ ascii_space c = false
    /\ ascii_digit c = false /\ Forall (fun d => d <> c_dot) W.
Proof.
  intros [->|[->| ->]]; rewrite ?lit_LLC, ?lit_Inc, ?lit_Corp.
  - exists 76%N, [76; 67]%N. repeat split; try done. by repeat constructor.
  - exists 73%N, [110; 99]%N. repeat split; try done. by repeat constructor.
  - exists 67%N, [111; 114; 112]%N. repeat split; try done. by repeat constructor.
Qed.

Lemma dotstar_quote_end_last s :
  dotstar_quote_end s = true -> last s = Some c_quote \/ last s = Some c_newline.
Proof.
  induction s as [|c s IH]; simpl; [done|].
  intros [[Hc He]%andb_true_iff|[_ Hs]%andb_true_iff]%orb_true_iff.
  - apply N.eqb_eq in Hc as ->. apply at_end_cases in He as [->| ->]; [by left|by right].
  - destruct s as [|d s]; [done|]. by apply IH.
Qed.

Lemma match_quoted_entity W p : entity_suffix W -> match_quoted (p ++ W) = false.
Proof.
  intros (W0 & c & -> & _ & _ & Hq & Hn)%entity_suffix_last.
  destruct (match_quoted (p ++ W0 ++ [c])) eqn:E; [|done]. exfalso.
  assert (Hl : last (p ++ W0 ++ [c]) = Some c) by by rewrite app_assoc, last_snoc.
  destruct (p ++ W0 ++ [c]) as [|a s] eqn:Es; [done|]. simpl in E.
  apply andb_true_iff in E as [_ E]. destruct s as [|b s]; [done|].
  apply dotstar_quote_end_last in E.
  change (last (a :: b :: s)) with (last (b :: s)) in Hl. rewrite Hl in E.
  destruct E as [[= ?]|[= ?]]; done.
Qed.

Lemma digits_dot_entity W p y :
  entity_suffix W -> digits_dot (p ++ W) = true -> digits_dot (p ++ y) = true.
Proof.
  intros HW. induction p as [|c p IH]; simpl.
  - intros Hd. exfalso. revert Hd.
    destruct HW as [->|[->| ->]]; rewrite ?lit_LLC, ?lit_Inc, ?lit_Corp; simpl;
      rewrite digit_ascii by reflexivity; vm_compute; done.
  - intros [?|[? ?]%andb_true_iff]%orb_true_iff; apply orb_true_iff; [by left|].
    right. apply andb_true_iff. split; [done|by apply IH].
Qed.

Lemma match_numbered_entity W p y :
  entity_suffix W -> match_numbered (p ++ W) = true -> match_numbered (p ++ y) = true.
Proof.
  intros HW. destruct p as [|c p]; simpl.
  - intros Hd. exfalso. revert Hd.
    destruct HW as [->|[->| ->]]; rewrite ?lit_LLC, ?lit_Inc, ?lit_Corp; simpl;
      rewrite digit_ascii by reflexivity; vm_compute; done.
  - intros [? ?]%andb_true_iff. apply andb_true_iff. split; [done|].
    by eapply digits_dot_entity.
Qed.

Lemma match_google_maps_entity W p y :
  entity_suffix W -> match_google_maps (p ++ W) = true -> match_google_maps (p ++ y) = true.
Proof.
  intros HW. unfold match_google_maps.
  destruct (ci_prefix _ (p ++ W)) as [r|] eqn:E; [intros _|done].
  apply ci_prefix_Some in E as (g & Hg & Hm).
  apply List.app_eq_app in Hg as [l [[-> ->]|[-> Hl]]].
  - assert (Hp : ci_prefix (lit "Google Maps") ((g ++ l) ++ y) = Some (l ++ y)).
    { apply ci_prefix_Some. exists g. by rewrite app_assoc. }
    by rewrite Hp.
  - destruct l as [|a l].
    + rewrite app_nil_r in Hm.
      assert (Hp : ci_prefix (lit "Google Maps") (p ++ y) = Some y).
      { apply ci_prefix_Some. by exists p. }
      by rewrite Hp.
    + exfalso. apply Forall2_app_inv_r in Hm as (G1 & G2 & _ & Hm & HG).
      change (lit "Google Maps") with [71; 111; 111; 103; 108; 101; 32; 77; 97; 112; 115]%N in HG.
      destruct HW as [->|[->| ->]]; rewrite ?lit_LLC, ?lit_Inc, ?lit_Corp in Hl;
        destruct l as [|b [|c [|d [|e l]]]]; simplify_eq/=;
        repeat match goal with
        | Hf : Forall2 _ _ (_ :: _) |- _ =>
          apply Forall2_cons_inv_r in Hf as (? & ? & ? & Hf & ->)
        | Hf : Forall2 _ _ [] |- _ => apply Forall2_nil_inv_r in Hf as ->
        end; by_ends HG.
Qed.

Lemma stripped_entity W p x d :
  entity_suffix W -> stripped (p ++ x ++ d) -> x <> [] -> stripped (p ++ W).
Proof.
  intros HW [Hl Hr] Hx. split.
  - apply lstrip_fixed. destruct p as [|c p].
    + destruct (entity_suffix_head W HW) as (c & W0 & -> & Hc & Hs & _). simpl.
      by rewrite space_ascii.
    + by apply lstrip_fixed in Hl.
  - destruct (entity_suffix_last W HW) as (W0 & c & -> & Hc & Hs & _).
    rewrite !rev_app_distr. simpl. by rewrite space_ascii, Hs.
Qed.


Lemma settled_clean w : settled w -> _clean_business_name w = w.
Proof.
  intros (Hs & Ha & H1 & H2 & H3). unfold _clean_business_name.
  destruct w as [|c w]; [done|]. cbn [falsy]. cbv zeta.
  rewrite (stripped_strip _ Hs), Ha, H1, H2, H3. by apply stripped_strip.
Qed.

Lemma artifacts_entity W p y :
  entity_suffix W ->
  match_quoted (p ++ y) || match_numbered (p ++ y) || match_google_maps (p ++ y) = false ->
  match_quoted (p ++ W) || match_numbered (p ++ W) || match_google_maps (p ++ W) = false.
Proof.
  intros HW [[_ Hn]%orb_false_iff Hg]%orb_false_iff.
  rewrite (match_quoted_entity W p HW). simpl. apply orb_false_iff. split.
  - destruct (match_numbered (p ++ W)) eqn:E; [|done].
    by rewrite (match_numbered_entity W p y HW E) in Hn.
  - destruct (match_google_maps (p ++ W)) eqn:E; [|done].
    by rewrite (match_google_maps_entity W p y HW E) in Hg.
Qed.

(** The result of a substitution that fired on a stripped name without
    artifacts is settled. *)
Lemma settled_entity W t :
  entity_suffix W -> stripped t ->
  match_quoted t || match_numbered t || match_google_maps t = false ->
  sub_suffix W t <> t -> settled (sub_suffix W t).
Proof.
  intros HW Hs Ha Hne.
  destruct (sub_suffix_from_cases W None t) as [?|(p & x & r & Hx & Hr & Ht & Hsub)]; [done|].
  unfold sub_suffix. rewrite Hsub.
  assert (Hxne : x <> []).
  { intros ->. apply Forall2_nil_inv_r in Hx. by destruct HW as [->|[->| ->]]. }
  assert (r = []) as ->.
  { apply at_end_cases in Hr as [->| ->]; [done|]. exfalso.
    destruct Hs as [_ Hs]. apply lstrip_fixed in Hs.
    destruct Ht as [->| ->]; rewrite !rev_app_distr in Hs; simpl in Hs;
      rewrite ?rev_app_distr in Hs; simpl in Hs; by rewrite space_ascii in Hs. }
  rewrite app_nil_r.
  assert (exists d, t = p ++ x ++ d) as [d ->] by (destruct Ht as [->| ->]; eauto).
  split; [by eapply stripped_entity|]. split.
  { eapply artifacts_entity; [done|exact Ha]. }
  split; [|split]; apply entity_suffix_fixed; unfold entity_suffix; auto.
Qed.

Theorem clean_business_name_idempotent (s : str) :
  _clean_business_name (_clean_business_name s) = _clean_business_name s.
Proof.
  assert (Hnil : _clean_business_name [] = []) by done.
  unfold _clean_business_name at 2 3. destruct (falsy s); [done|]. cbv zeta.
  pose proof (strip_stripped s) as Hs. set (t := strip s) in *.
  destruct (match_quoted t || match_numbered t || match_google_maps t) eqn:Ha; [done|].
  assert (HL : entity_suffix (lit "LLC")) by (unfold entity_suffix; auto).
  assert (HI : entity_suffix (lit "Inc")) by (unfold entity_suffix; auto).
  assert (HC : entity_suffix (lit "Corp")) by (unfold entity_suffix; auto).
  assert (Hset : settled (sub_suffix (lit "Corp") (sub_suffix (lit "Inc")
                   (sub_suffix (lit "LLC") t)))).
  { destruct (decide (sub_suffix (lit "LLC") t = t)) as [E1|N1].
    - rewrite E1. destruct (decide (sub_suffix (lit "Inc") t = t)) as [E2|N2].
      + rewrite E2. destruct (decide (sub_suffix (lit "Corp") t = t)) as [E3|N3].
        * rewrite E3. unfold settled. auto.
        * by apply settled_entity.
      + pose proof (settled_entity _ t HI Hs Ha N2) as Hu.
        destruct Hu as (? & ? & ? & ? & Hc). by rewrite Hc.
    - pose proof (settled_entity _ t HL Hs Ha N1) as Hu.
      destruct Hu as (? & ? & ? & Hi & Hc). by rewrite Hi, Hc. }
  rewrite (stripped_strip _ (proj1 Hset)). by apply settled_clean.
Qed.

End NameIdem.

(** ** Normalizer: addresses *)

Section AddressProps.
Context `{CharTablesLaws}.

Lemma single_spaced_weaken b s : single_spaced b s = true -> single_spaced false s = true.
Proof.
  destruct b; [|done]. destruct s as [|c s]; simpl; [done|].
  by destruct (is_space c).
Qed.

Lemma single_spaced_tail b c s :
  single_spaced b (c :: s) = true -> single_spaced false s = true.
Proof.
  simpl. destruct (is_space c).
  - intros [_ ?]%andb_true_iff. by eapply single_spaced_weaken.
  - done.
Qed.

Lemma single_spaced_prefix b x y :
  single_spaced b (x ++ y) = true -> single_spaced b x = true.
Proof.
  revert b. induction x as [|c x IH]; intros b; simpl; [done|].
  destruct (is_space c); [|apply IH].
  intros [Hc Hs]%andb_true_iff. apply andb_true_iff. split; [done|by apply IH].
Qed.

Lemma collapse_spaces_fixed b s :
  single_spaced b s = true -> collapse_spaces_aux b s = s.
Proof.
  revert b. induction s as [|c s IH]; intros b; simpl; [done|].
  destruct (is_space c).
  - intros [[Hb Hc]%andb_true_iff Hs]%andb_true_iff.
    apply negb_true_iff in Hb as ->. apply N.eqb_eq in Hc as ->. by rewrite IH.
  - intros Hs. by rewrite IH.
Qed.

Lemma collapse_spaces_single b s : single_spaced b (collapse_spaces_aux b s) = true.
Proof.
  assert (Hsp : is_space c_space = true) by (by rewrite space_ascii).
  revert b. induction s as [|c s IH]; intros b; simpl; [done|].
  destruct (is_space c) eqn:Ec.
  - destruct b; [apply IH|]. simpl. by rewrite Hsp, IH.
  - simpl. by rewrite Ec.
Qed.

Lemma collapse_commas_single s :
  (forall b, single_spaced b s = true -> single_spaced b (collapse_commas_aux 0 s) = true)
  /\ (forall k b, single_spaced b s = true ->
        single_spaced false (collapse_commas_aux k s) = true).
Proof.
  assert (Hcomma : is_space c_comma = false) by (by rewrite space_ascii).
  induction s as [|c s [IH1 IH2]]; [done|].
  assert (Hstep : forall b, single_spaced b (c :: s) = true ->
            single_spaced b (collapse_commas_aux 0 (c :: s)) = true).
  { intros b Hs. pose proof (single_spaced_tail _ _ _ Hs) as Ht. simpl.
    destruct (N.eqb_spec c c_comma) as [->|Hne].
    - destruct (spaces_comma s) as [k|]; simpl; rewrite Hcomma.
      + by apply (IH2 k false).
      + by apply IH1.
    - simpl in *. destruct (is_space c); [|by apply IH1].
      apply andb_true_iff in Hs as [Hb Hs]. rewrite Hb. by apply IH1. }
  split; [exact Hstep|].
  intros [|k] b Hs; [by eapply single_spaced_weaken, Hstep|].
  simpl. pose proof (single_spaced_tail _ _ _ Hs) as Ht.
  destruct k; [by apply IH1|by apply (IH2 (S k) false)].
Qed.

Lemma lstrip_single b s : single_spaced b s = true -> single_spaced false (lstrip s) = true.
Proof.
  induction s as [|c s IH] in b |- *; simpl; [done|].
  destruct (is_space c) eqn:Ec.
  - intros [_ Hs]%andb_true_iff. by eapply IH.
  - intros Hs. simpl. by rewrite Ec.
Qed.

Lemma lstrip_app s m :
  lstrip (s ++ m) = match lstrip s with [] => lstrip m | x => x ++ m end.
Proof.
  induction s as [|c s IH]; simpl; [by destruct (lstrip m)|].
  by destruct (is_space c).
Qed.

(** [rstrip] removes a run of white space from the end. *)
Lemma rstrip_decompose s :
  exists ws, s = rstrip s ++ ws /\ Forall (fun c => is_space c = true) ws.
Proof.
  induction s as [|c s (ws & Hs & Hws)]; [exists []; split; [done|constructor]|].
  unfold rstrip in *. simpl. rewrite lstrip_app.
  destruct (lstrip (rev s)) as [|d l] eqn:El.
  - simpl in *. subst s. destruct (is_space c) eqn:Ec; simpl.
    + exists (c :: ws). split; [done|by constructor].
    + by exists ws.
  - simpl. rewrite rev_app_distr. simpl. exists ws. split; [|done].
    simpl in Hs. by rewrite <- Hs.
Qed.

Lemma strip_single b s : single_spaced b s = true -> single_spaced false (strip s) = true.
Proof.
  intros Hs%lstrip_single. unfold strip.
  destruct (rstrip_decompose (lstrip s)) as (ws & Hd & _).
  rewrite Hd in Hs. by eapply single_spaced_prefix.
Qed.

Lemma clean_address_stripped (s : str) : stripped (_clean_address s).
Proof.
  unfold _clean_address. destruct (falsy s); [apply stripped_nil|]. cbv zeta.
  destruct (str_in _ _); [apply stripped_nil|apply strip_stripped].
Qed.

Lemma clean_address_single (s : str) : single_spaced false (_clean_address s) = true.
Proof.
  unfold _clean_address. destruct (falsy s); [done|]. cbv zeta.
  destruct (str_in _ _); [done|]. eapply strip_single.
  apply collapse_commas_single, collapse_spaces_single.
Qed.

(** An address that the cleaner returned is returned again as it is,
    unless it is one of the sentinels or still has two commas with at most
    white space between them. *)
Lemma clean_address_stable (s : str) :
  str_in (_clean_address s) [lit "Unknown"; lit "N/A"; lit "Not found"; lit "No reviews"]
    = false ->
  collapse_commas (_clean_address s) = _clean_address s ->
  _clean_address (_clean_address s) = _clean_address s.
Proof.
  pose proof (clean_address_stripped s) as Hst.
  pose proof (clean_address_single s) as Hsp.
  set (a := _clean_address s) in *. intros Hsent Hcc.
  unfold _clean_address. destruct (falsy a) eqn:Ef; [by destruct a|]. cbv zeta.
  rewrite (stripped_strip a Hst), Hsent.
  unfold collapse_spaces. rewrite (collapse_spaces_fixed _ _ Hsp).
  fold (collapse_commas a). rewrite Hcc.
  by apply stripped_strip.
Qed.

End AddressProps.

(** ** Normalizer: owner names *)

Section OwnerProps.
Context `{CharTablesLaws}.

Lemma split_aux_spaces cur ws :
  Forall (fun c => is_space c = true) ws -> split_aux cur ws = split_aux cur [].
Proof.
  intros Hws. revert cur. induction Hws as [|c ws Hc _ IH]; intros cur; [done|].
  simpl. rewrite Hc, (IH []). by destruct cur.
Qed.

Lemma split_aux_app_spaces cur x ws :
  Forall (fun c => is_space c = true) ws -> split_aux cur (x ++ ws) = split_aux cur x.
Proof.
  intros Hws. revert cur. induction x as [|c x IH]; intros cur; simpl.
  - by apply split_aux_spaces.
  - by rewrite !IH.
Qed.

Lemma split_lstrip s : split (lstrip s) = split s.
Proof.
  unfold split. induction s as [|c s IH]; simpl; [done|].
  destruct (is_space c) eqn:Ec; [done|]. simpl. by rewrite Ec.
Qed.

Lemma split_strip s : split (strip s) = split s.
Proof.
  unfold strip. destruct (rstrip_decompose (lstrip s)) as (ws & Hd & Hws).
  rewrite <- (split_lstrip s). rewrite Hd at 2. unfold split.
  by rewrite split_aux_app_spaces.
Qed.

Lemma split_aux_chars cur s c :
  c ∈ s \/ c ∈ cur -> is_space c = true \/ exists w, w ∈ split_aux cur s /\ c ∈ w.
Proof.
  revert cur. induction s as [|d s IH]; intros cur; simpl.
  - intros [Hc|Hc]; [by apply elem_of_nil in Hc|]. right.
    destruct cur as [|e cur]; [by apply elem_of_nil in Hc|].
    exists (rev (e :: cur)). split; [by left|].
    apply list_elem_of_In, in_rev. rewrite rev_involutive. by apply list_elem_of_In.
  - destruct (is_space d) eqn:Ed.
    + intros [Hc|Hc].
      * apply elem_of_cons in Hc as [->|Hc]; [by left|].
        destruct (IH [] (or_introl Hc)) as [?|(w & Hw & Hcw)]; [by left|].
        right. exists w. split; [|done]. destruct cur; [done|by right].
      * right. destruct cur as [|e cur]; [by apply elem_of_nil in Hc|].
        exists (rev (e :: cur)). split; [by left|].
        apply list_elem_of_In, in_rev. rewrite rev_involutive. by apply list_elem_of_In.
    + intros Hc. apply IH. destruct Hc as [Hc|Hc].
      * apply elem_of_cons in Hc as [->|Hc]; [right; by left|by left].
      * right. by right.
Qed.

Lemma lowers_end_chars w c :
  lowers_end w = true -> c ∈ w -> ascii_lower c = true \/ c = c_newline.
Proof.
  induction w as [|d w IH]; simpl; [done|].
  intros [Hd Hw]%andb_true_iff [->|Hc]%elem_of_cons; [by left|].
  apply orb_true_iff in Hw as [Hw|Hw]; [|by apply IH].
  apply at_end_cases in Hw as [->| ->]; [by apply elem_of_nil in Hc|].
  apply elem_of_cons in Hc as [->|Hc]; [by right|by apply elem_of_nil in Hc].
Qed.

Lemma name_word_chars w c :
  match_name_word w = true -> c ∈ w -> c <> c_lparen.
Proof.
  destruct w as [|d w]; simpl; [done|].
  intros [Hd Hw]%andb_true_iff [->|Hc]%elem_of_cons.
  - intros ->. done.
  - destruct (lowers_end_chars _ _ Hw Hc) as [Hl| ->]; [|done]. by intros ->.
Qed.

Lemma paren_aside_none s : Forall (fun c => c <> c_lparen) s -> paren_aside s = None.
Proof.
  induction 1 as [|c s Hc _ IH]; simpl; [done|].
  destruct (N.eqb_spec c c_lparen); [done|]. rewrite IH. by destruct (is_space c).
Qed.

Lemma remove_parens_none s : Forall (fun c => c <> c_lparen) s -> remove_parens s = s.
Proof.
  unfold remove_parens. intros Hs. induction Hs as [|c s Hc Hs IH]; [done|].
  cbn [remove_parens_aux]. rewrite (paren_aside_none (c :: s)) by by constructor.
  by rewrite IH.
Qed.

Lemma split_aux_ascii cur (s : str) :
  forallb (fun c => c <? 128)%N s = true ->
  split_aux cur s = @split_aux ascii_tables cur s.
Proof.
  revert cur. induction s as [|c s IH]; intros cur; simpl; [done|].
  intros [Hc Hs]%andb_true_iff. rewrite Hc. simpl.
  rewrite space_ascii by by apply N.ltb_lt. by rewrite !IH.
Qed.

Lemma sentinel_not_name_words (o : str) :
  name_words (split o) = true ->
  str_in o [lit "Unknown"; lit "N/A"; lit "Not found"; lit "Not explicitly stated"] = false.
Proof.
  intros Hw. unfold str_in. apply bool_decide_eq_false. intros Hin.
  assert (E : forall x, x ∈ [lit "Unknown"; lit "N/A"; lit "Not found";
                              lit "Not explicitly stated"] ->
            forallb (fun c => c <? 128)%N x = true
            /\ name_words (@split_aux ascii_tables [] x) = false).
  { intros x Hx. repeat (apply elem_of_cons in Hx as [->|Hx]);
      [| | | |by apply elem_of_nil in Hx]; split; vm_compute; reflexivity. }
  destruct (E o Hin) as [Ha En]. unfold split in Hw.
  rewrite (split_aux_ascii [] o Ha), En in Hw. discriminate Hw.
Qed.

(** An owner name that the cleaner returned is returned again as it is,
    unless it begins with an honorific. *)
Lemma clean_owner_words (o1 : str) :
  name_words (split o1) = true -> strip_title (strip o1) = strip o1 ->
  _clean_owner_name (strip o1) = strip o1.
Proof.
  intros Hw Ht. pose proof (strip_stripped o1) as Hst.
  assert (Hw' : name_words (split (strip o1)) = true) by by rewrite split_strip.
  set (o := strip o1) in *.
  unfold _clean_owner_name. destruct (falsy o) eqn:Ef; [by destruct o|]. cbv zeta.
  rewrite (stripped_strip o Hst), (sentinel_not_name_words o Hw').
  assert (Hnp : remove_parens o = o).
  { apply remove_parens_none, Forall_forall. intros c Hc.
    destruct (split_aux_chars [] o c (or_introl Hc)) as [Hs|(w & Hin & Hcw)].
    - intros ->. by rewrite space_ascii in Hs.
    - apply andb_true_iff in Hw' as [_ Hall].
      eapply name_word_chars; [|exact Hcw].
      rewrite forallb_forall in Hall. apply Hall. by apply list_elem_of_In. }
  rewrite Hnp, Ht. unfold name_words in Hw'.
  apply andb_true_iff in Hw' as [Hlen Hall]. apply negb_true_iff in Hlen.
  rewrite Hlen, Hall. simpl. by apply stripped_strip.
Qed.

Lemma clean_owner_name_stable (s : str) :
  strip_title (_clean_owner_name s) = _clean_owner_name s ->
  _clean_owner_name (_clean_owner_name s) = _clean_owner_name s.
Proof.
  unfold _clean_owner_name at 1 2 4 5. destruct (falsy s); [done|]. cbv zeta.
  destruct (str_in _ _); [done|].
  destruct ((length (split _) <? 2)%nat || (4 <? length (split _))%nat) eqn:El; [done|].
  destruct (forallb match_name_word (split _)) eqn:Ea; [|done]. simpl.
  apply clean_owner_words. unfold name_words. by rewrite El, Ea.
Qed.

End OwnerProps.

(** ** Normalizer: when a second pass changes an address or an owner *)

Section SecondPass.
Context `{CharTablesLaws}.

Lemma strip_length s : (length (strip s) <= length s)%nat.
Proof.
  unfold strip, rstrip. rewrite length_rev.
  etrans; [apply lstrip_length|]. rewrite length_rev. apply lstrip_length.
Qed.

Lemma spaces_comma_length s k : spaces_comma s = Some k -> (1 <= k <= length s)%nat.
Proof.
  revert k. induction s as [|c s IH]; intros k; simpl; [done|].
  destruct (c =? c_comma)%N; [intros [= <-]; lia|].
  destruct (is_space c); [|done].
  destruct (spaces_comma s) as [k'|]; [|done]. intros [= <-].
  specialize (IH k' eq_refl). lia.
Qed.

Lemma collapse_commas_aux_length k s :
  (length (collapse_commas_aux k s) <= length s - k)%nat.
Proof.
  revert k. induction s as [|c s IH]; intros k; simpl; [by destruct k|].
  destruct k as [|k]; [|apply IH].
  destruct (c =? c_comma)%N.
  - destruct (spaces_comma s) as [k|] eqn:Ek; simpl.
    + specialize (IH k). lia.
    + specialize (IH 0%nat). lia.
  - simpl. specialize (IH 0%nat). lia.
Qed.

Lemma collapse_commas_shorter s :
  collapse_commas s = s \/ (length (collapse_commas s) < length s)%nat.
Proof.
  unfold collapse_commas. induction s as [|c s IH]; simpl; [by left|].
  assert (Hkeep : c :: collapse_commas_aux 0 s = c :: s
            \/ (length (c :: collapse_commas_aux 0 s) < S (length s))%nat).
  { destruct IH as [->|?]; [by left|right; simpl; lia]. }
  destruct (c =? c_comma)%N; [|done].
  destruct (spaces_comma s) as [k|] eqn:Ek; [|done].
  right. apply spaces_comma_length in Ek.
  pose proof (collapse_commas_aux_length k s). simpl. lia.
Qed.

(** A second pass changes a cleaned address exactly when it is a sentinel
    or still has two commas with at most white space between them. *)
Lemma clean_address_stable_iff (s : str) :
  _clean_address (_clean_address s) = _clean_address s <->
  (str_in (_clean_address s) [lit "Unknown"; lit "N/A"; lit "Not found"; lit "No reviews"]
     = false
   /\ collapse_commas (_clean_address s) = _clean_address s).
Proof.
  split; [|intros [? ?]; by apply clean_address_stable].
  pose proof (clean_address_stripped s) as Hst.
  pose proof (clean_address_single s) as Hsp.
  set (a := _clean_address s) in *.
  unfold _clean_address. destruct (falsy a) eqn:Ef.
  { destruct a; [done|discriminate Ef]. }
  cbv zeta. rewrite (stripped_strip a Hst).
  destruct (str_in a _) eqn:Es.
  { intros Ha. by rewrite <- Ha in Ef. }
  unfold collapse_spaces. rewrite (collapse_spaces_fixed _ _ Hsp).
  fold (collapse_commas a). intros Ha. split; [done|].
  destruct (collapse_commas_shorter a) as [?|Hl]; [done|].
  pose proof (strip_length (collapse_commas a)) as Hl'.
  rewrite Ha in Hl'. lia.
Qed.

Lemma ci_prefix_length p s r :
  ci_prefix p s = Some r -> (length r + length p = length s)%nat.
Proof.
  revert s. induction p as [|a p IH]; intros s; simpl; [intros [= ->]; lia|].
  destruct s as [|c s]; [done|]. destruct (ci_eq a c); [|done].
  intros Hr%IH. simpl. lia.
Qed.

Lemma spaces1_length s r : spaces1 s = Some r -> (length r < length s)%nat.
Proof.
  destruct s as [|c s]; simpl; [done|]. destruct (is_space c); [|done].
  intros [= <-]. pose proof (lstrip_length s). lia.
Qed.

Lemma match_title_length T s r :
  match_title T s = Some r -> (length r < length s)%nat.
Proof.
  unfold match_title. destruct (ci_prefix T s) as [rest|] eqn:Ep; [|done].
  apply ci_prefix_length in Ep. destruct rest as [|d rest]; [done|].
  destruct (d =? c_dot)%N.
  - destruct (spaces1 rest) as [r'|] eqn:E1.
    + intros [= <-]. apply spaces1_length in E1. simpl in *. lia.
    + intros Hr%spaces1_length. lia.
  - intros Hr%spaces1_length. lia.
Qed.

Lemma strip_title_length s :
  strip_title s = s \/ (length (strip_title s) < length s)%nat.
Proof.
  unfold strip_title.
  destruct (match_title (lit "Mr") s) eqn:E1; [right; by eapply match_title_length|].
  destruct (match_title (lit "Mrs") s) eqn:E2; [right; by eapply match_title_length|].
  destruct (match_title (lit "Ms") s) eqn:E3; [right; by eapply match_title_length|].
  destruct (match_title (lit "Dr") s) eqn:E4; [right; by eapply match_title_length|].
  by left.
Qed.

(** A second pass changes a cleaned owner name exactly when it begins with
    an honorific. *)
Lemma clean_owner_name_stable_iff (s : str) :
  _clean_owner_name (_clean_owner_name s) = _clean_owner_name s <->
  strip_title (_clean_owner_name s) = _clean_owner_name s.
Proof.
  split; [|apply clean_owner_name_stable].
  assert (Hcases : _clean_owner_name s = []
            \/ exists o1, _clean_owner_name s = strip o1 /\ name_words (split o1) = true).
  { unfold _clean_owner_name. destruct (falsy s); [by left|]. cbv zeta.
    destruct (str_in _ _); [by left|].
    destruct ((length (split _) <? 2)%nat || (4 <? length (split _))%nat) eqn:El; [by left|].
    destruct (forallb match_name_word (split _)) eqn:Ea; [|by left]. simpl.
    right. eexists. split; [done|]. unfold name_words. by rewrite El, Ea. }
  destruct Hcases as [->|(o1 & -> & Hw)]; [done|].
  pose proof (strip_stripped o1) as Hst.
  assert (Hw' : name_words (split (strip o1)) = true) by by rewrite split_strip.
  set (o := strip o1) in *.
  assert (Hnp : remove_parens o = o).
  { apply remove_parens_none, Forall_forall. intros c Hc.
    destruct (split_aux_chars [] o c (or_introl Hc)) as [Hs|(w & Hin & Hcw)].
    - intros ->. by rewrite space_ascii in Hs.
    - apply andb_true_iff in Hw' as [_ Hall].
      eapply name_word_chars; [|exact Hcw].
      rewrite forallb_forall in Hall. apply Hall. by apply list_elem_of_In. }
  unfold _clean_owner_name. destruct (falsy o) eqn:Ef.
  { destruct o; [done|discriminate Ef]. }
  cbv zeta. rewrite (stripped_strip o Hst), (sentinel_not_name_words o Hw'), Hnp.
  destruct (strip_title_length o) as [?|Hlt]; [done|]. intros Ho. exfalso.
  assert (Hle : (length o <= length (strip_title o))%nat).
  { destruct (_ || _); [by rewrite <- Ho in Ef|].
    destruct (negb _); [by rewrite <- Ho in Ef|].
    rewrite <- Ho at 1. apply strip_length. }
  lia.
Qed.

End SecondPass.

(** ** Normalizer: idempotence *)

Section Idempotence.
Context `{CharTablesLaws}.

Lemma only_digits_all s : Forall (fun c => is_digit c = true) (only_digits s).
Proof.
  apply Forall_forall. intros c Hc. apply list_elem_of_In in Hc.
  by apply List.filter_In in Hc as [_ ?].
Qed.

Lemma only_digits_id d : Forall (fun c => is_digit c = true) d -> only_digits d = d.
Proof.
  unfold only_digits. induction 1 as [|c d Hc _ IH]; simpl; [done|].
  by rewrite Hc, IH.
Qed.

Lemma only_digits_app a b : only_digits (a ++ b) = only_digits a ++ only_digits b.
Proof. apply List.filter_app. Qed.

Lemma only_digits_format a b c :
  Forall (fun x => is_digit x = true) a -> Forall (fun x => is_digit x = true) b ->
  Forall (fun x => is_digit x = true) c ->
  only_digits (phone_format a b c) = a ++ b ++ c.
Proof.
  intros Ha Hb Hc. unfold phone_format. rewrite !only_digits_app.
  rewrite (only_digits_id a Ha), (only_digits_id b Hb), (only_digits_id c Hc).
  rewrite !only_digits_ascii by reflexivity. reflexivity.
Qed.

Lemma take_drop_three (d : str) :
  take 3 d ++ take 3 (drop 3 d) ++ drop 6 d = d.
Proof.
  replace (drop 6 d) with (drop 3 (drop 3 d)) by (by rewrite drop_drop).
  by rewrite (take_drop 3 (drop 3 d)), take_drop.
Qed.

Lemma validate_phone_number_idempotent (s : str) :
  _validate_phone_number (_validate_phone_number s) = _validate_phone_number s.
Proof.
  assert (Hfmt : forall d, Forall (fun c => is_digit c = true) d -> length d = 10%nat ->
    _validate_phone_number (phone_format (take 3 d) (take 3 (drop 3 d)) (drop 6 d)) =
    phone_format (take 3 d) (take 3 (drop 3 d)) (drop 6 d)).
  { intros d Hd Hl. rewrite validate_phone_number_digits. cbv zeta.
    rewrite only_digits_format, take_drop_three, Hl;
      [done|by apply Forall_take|by apply Forall_take, Forall_drop|by apply Forall_drop]. }
  rewrite (validate_phone_number_digits s). cbv zeta.
  pose proof (only_digits_all s) as Hd. set (d := only_digits s) in *.
  destruct (Nat.eqb_spec (length d) 10) as [Hl|_]; [by apply Hfmt|].
  destruct (Nat.eqb_spec (length d) 11) as [Hl|_]; [|done]. cbn [andb].
  case_bool_decide; [|done].
  replace (drop 4 d) with (drop 3 (drop 1 d)) by (by rewrite drop_drop).
  replace (drop 7 d) with (drop 6 (drop 1 d)) by (by rewrite drop_drop).
  apply Hfmt; [by apply Forall_drop|]. rewrite length_drop. lia.
Qed.

Lemma to_numeric_float_idempotent (f : float) :
  to_numeric_float (to_numeric_float f) = to_numeric_float f.
Proof.
  unfold to_numeric_float. destruct (is_nan f) eqn:E; [reflexivity|by rewrite E].
Qed.

(** C8, as amended. A second pass of the Normalizer leaves the name, the
    phone, the review count and the rating of a normalized record as they
    are; it changes the address exactly when that is a sentinel or still
    has two commas with at most white space between them, and the owner
    name exactly when that begins with an honorific; it touches no field
    but the six it cleans. *)
Theorem normalize_idempotent_fields (r : BusinessInfo) :
  let n := normalize r in
  let nn := normalize n in
  name nn = name n /\ phone nn = phone n
  /\ review_count nn = review_count n /\ star_rating nn = star_rating n
  /\ (address nn = address n <->
      (str_in (address n) [lit "Unknown"; lit "N/A"; lit "Not found"; lit "No reviews"] = false
       /\ collapse_commas (address n) = address n))
  /\ (owner_name nn = owner_name n <-> strip_title (owner_name n) = owner_name n)
  /\ website nn = website n /\ hours nn = hours n /\ category nn = category n
  /\ additional_contact nn = additional_contact n /\ location nn = location n
  /\ scraped_at nn = scraped_at n /\ google_maps_url nn = google_maps_url n.
Proof.
  cbv zeta. unfold normalize. simpl.
  split; [apply clean_business_name_idempotent|].
  split; [apply validate_phone_number_idempotent|].
  split; [reflexivity|].
  split; [apply to_numeric_float_idempotent|].
  split; [apply clean_address_stable_iff|].
  split; [apply clean_owner_name_stable_iff|].
  by repeat split.
Qed.

End Idempotence.

Lemma normalize_idempotent_fields_witness :
  @CharTablesLaws ascii_tables
  /\ name (@normalize ascii_tables (@normalize ascii_tables
        (business (lit "  Acme Heating llc. ") (lit "1-208-555-1234") [])))
     = lit "Acme Heating LLC"
  /\ phone (@normalize ascii_tables (@normalize ascii_tables
        (business (lit "  Acme Heating llc. ") (lit "1-208-555-1234") [])))
     = lit "(208) 555-1234".
Proof.
  split; [exact ascii_tables_laws|].
  destruct (@normalize_idempotent_fields ascii_tables ascii_tables_laws
              (business (lit "  Acme Heating llc. ") (lit "1-208-555-1234") []))
    as (Hn & Hp & _).
  split; [rewrite Hn|rewrite Hp]; reflexivity.
Defined.

(** C8, as stated, fails. Only the first of three commas in a row is
    collapsed in one pass, and only the first of two honorifics is
    stripped: the second pass changes the address and the owner name. *)
Lemma normalize_not_idempotent :
  let r := with_owner_name (lit "Dr Mr John Smith")
             (business (lit "Acme Heating") (lit "208-555-1234") (lit "12 Main St,,, Boise")) in
  let n := @normalize ascii_tables r in
  let nn := @normalize ascii_tables n in
  address n = lit "12 Main St,, Boise" /\ address nn = lit "12 Main St, Boise"
  /\ owner_name n = lit "Mr John Smith" /\ owner_name nn = lit "John Smith"
  /\ nn <> n.
Proof.
  cbv zeta. repeat split; try reflexivity.
  intros E. apply (f_equal address) in E. vm_compute in E. discriminate E.
Qed.

(** ** Job creation *)




(** ** Job lifecycle: the requests *)

(** Cancelling succeeds exactly on a job that is pending or running; the
    job is then cancelled with a completion time and leaves [active_jobs]. *)
Lemma cancel_job_spec (job_id : nat) (now : datetime) (w : World) :
  (success (cancel_job job_id now w).1 = true <->
     exists job, jobs w !! job_id = Some job /\ (status job = PENDING \/ status job = RUNNING))
  /\ (success (cancel_job job_id now w).1 = false -> (cancel_job job_id now w).2 = w)
  /\ (forall job, jobs w !! job_id = Some job ->
        success (cancel_job job_id now w).1 = true ->
        jobs (cancel_job job_id now w).2 !! job_id = Some (mark_cancelled now job)
        /\ (job_id ∉ active_jobs (cancel_job job_id now w).2)).
Proof.
  unfold cancel_job. destruct (jobs w !! job_id) as [job|] eqn:Ej; simpl.
  - case_bool_decide as Hs; simpl.
    + split; [|split].
      * split; [intros _|done]. exists job. split; [done|].
        apply elem_of_cons in Hs as [?|Hs]; [by left|].
        apply elem_of_cons in Hs as [?|Hs]; [by right|]. by apply elem_of_nil in Hs.
      * done.
      * intros job' [= <-] _. split.
        -- unfold update_job. simpl. by rewrite lookup_alter_eq, Ej.
        -- simpl. apply not_elem_of_difference. right. by apply elem_of_singleton.
    + split; [|split]; [|done|done].
      split; [done|]. intros (job' & [= <-] & Hst). exfalso. apply Hs.
      destruct Hst as [-> | ->]; [by left|]. right. by left.
  - split; [|split]; [|done|done]. split; [done|]. by intros (job' & ? & _).
Qed.


(** No request moves a job out of a terminal state, or changes a job that
    it does not name. *)
Lemma requests_keep_terminal `{CharTables} (env : Env) (ev : event) (w : World)
    (job_id : nat) (job : ScrapingJob) :
  match ev with CreateJob _ _ | StartJob _ | CancelJob _ _ => True | _ => False end ->
  (forall k, (next_job_id w <= k)%nat -> jobs w !! k = None) ->
  jobs w !! job_id = Some job -> terminal (status job) = true ->
  jobs (step env w ev) !! job_id = Some job.
Proof.
  intros Hev Hfresh Hj Ht. destruct ev as [data now|k|k now| |]; try done; simpl.
  - unfold create_job. destruct data as [d|]; [|done].
    destruct (empty_request d); [done|].
    destruct (req_job_name d); [|done]. destruct (req_locations d); [|done]. simpl.
    rewrite lookup_insert_ne; [done|]. intros <-.
    by rewrite (Hfresh (next_job_id w)) in Hj.
  - unfold start_job, manager_start_job. destruct (jobs w !! k); [|done].
    destruct (negb _); [done|]. by case_bool_decide.
  - unfold cancel_job. destruct (jobs w !! k) as [job'|] eqn:Ek; [|done].
    case_bool_decide as Hs; simpl; [|done].
    unfold update_job. simpl. destruct (decide (k = job_id)) as [->|Hne].
    + rewrite Hj in Ek. injection Ek as <-. exfalso.
      apply elem_of_cons in Hs as [Hs|Hs]; [by rewrite Hs in Ht|].
      apply elem_of_cons in Hs as [Hs|Hs]; [by rewrite Hs in Ht|]. by apply elem_of_nil in Hs.
    + by rewrite lookup_alter_ne.
Qed.

(** ** Job lifecycle: the worker *)

(** C1 fails on the code. The worker never reads the status it overwrites:
    a job cancelled while its worker runs is moved from Cancelled to
    Completed when the worker ends, and a job cancelled before its worker
    has begun is moved from Cancelled to Running, then to Completed. *)
Theorem worker_overwrites_cancelled :
  @status_trace ascii_tables (sample_env [sample_listing]) 1 cancel_while_running
    = [None; Some PENDING; Some PENDING; Some RUNNING; Some CANCELLED; Some COMPLETED]
  /\ @status_trace ascii_tables (sample_env [sample_listing]) 1 cancel_before_running
    = [None; Some PENDING; Some PENDING; Some CANCELLED; Some RUNNING; Some COMPLETED]
  /\ @status_trace ascii_tables sample_env_no_network 1 cancel_while_running
    = [None; Some PENDING; Some PENDING; Some RUNNING; Some CANCELLED; Some FAILED].
Proof. repeat apply conj; vm_compute; reflexivity. Qed.

(** ** The execution body *)

Section ExecutionBody.
Context `{CharTables}.

Lemma scrape_locations_empty env bt locs acc :
  Forall (fun l => scrape_location env l bt = Ok []) locs ->
  scrape_locations env bt locs acc = Ok acc.
Proof.
  intros Hl. revert acc. induction Hl as [|l locs Hl _ IH]; intros acc; simpl; [done|].
  rewrite Hl. simpl. by rewrite app_nil_r.
Qed.

Lemma try_block_empty env job_id job now w :
  Forall (fun l => scrape_location env l (business_type job) = Ok []) (locations job) ->
  try_block env job_id job now w =
    (Raise (ValueError
       (lit "No processed data available. Run clean_and_validate_data() first.")),
     commit w).
Proof.
  intros Hl. unfold try_block. by rewrite (scrape_locations_empty _ _ _ [] Hl).
Qed.

(** What the outer handler leaves when the inner block raises. *)
Lemma execute_rest_raise env job_id job now w e w1 :
  jobs w !! job_id = Some job ->
  try_block env job_id job now w = (Raise e, w1) ->
  jobs w1 = jobs w ->
  execute_rest env job_id now w =
    release job_id (commit (update_job job_id (mark_failed now (exn_str e)) w1)).
Proof.
  intros Hj Ht Hw1. unfold execute_rest, on_exception. by rewrite Hj, Ht, Hw1, Hj.
Qed.

(** C2 fails on the code. When every location yields no record, the frame
    is empty, [clean_and_validate_data] returns before it assigns
    [processed_data], and [filter_by_criteria] raises: the job ends Failed
    with that error, its counts untouched, and no report writer is called. *)
Theorem empty_extraction_fails (env : Env) (job_id : nat) (job : ScrapingJob)
    (t0 t1 : datetime) (w : World) :
  jobs w !! job_id = Some job ->
  Forall (fun l => scrape_location env l (business_type job) = Ok []) (locations job) ->
  jobs (_execute_job env job_id t0 t1 w) !! job_id =
    Some (mark_failed t1
            (lit "No processed data available. Run clean_and_validate_data() first.")
            (mark_running t0 job))
  /\ report_calls (_execute_job env job_id t0 t1 w) = report_calls w.
Proof.
  intros Hj Hl. unfold _execute_job, execute_begin. rewrite Hj.
  assert (Hj' : jobs (update_job job_id (mark_running t0) w) !! job_id
                = Some (mark_running t0 job)).
  { unfold update_job. simpl. by rewrite lookup_alter_eq, Hj. }
  rewrite (execute_rest_raise _ _ _ _ _ _ _ Hj' (try_block_empty _ _ _ _ _ Hl) eq_refl).
  split; [|done]. simpl. by rewrite lookup_alter_eq, lookup_alter_eq, Hj.
Qed.

End ExecutionBody.

Lemma empty_extraction_fails_witness :
  jobs (@_execute_job ascii_tables (sample_env []) 1 11 12 sample_world) !! 1%nat =
    Some (mark_failed 12
            (lit "No processed data available. Run clean_and_validate_data() first.")
            (mark_running 11 sample_job))
  /\ report_calls (@_execute_job ascii_tables (sample_env []) 1 11 12 sample_world)
     = report_calls sample_world.
Proof.
  apply (@empty_extraction_fails ascii_tables (sample_env []) 1 sample_job 11 12 sample_world);
    [vm_compute; reflexivity|]. repeat constructor.
Defined.

(** The run of the specification's scenario, evaluated: one location, no
    record. *)
Example empty_extraction_run :
  @status_trace ascii_tables (sample_env []) 1 plain_run
    = [None; Some PENDING; Some PENDING; Some RUNNING; Some FAILED]
  /\ report_calls (@run ascii_tables (sample_env []) empty_world plain_run) = []
  /\ (error_message <$> jobs (@run ascii_tables (sample_env []) empty_world plain_run) !! 1%nat)
     = Some (Some (lit "No processed data available. Run clean_and_validate_data() first.")).
Proof. repeat apply conj; vm_compute; reflexivity. Qed.

(** With one record found the same run completes and calls the three
    writers. *)
Example plain_run_completes :
  @status_trace ascii_tables (sample_env [sample_listing]) 1 plain_run
    = [None; Some PENDING; Some PENDING; Some RUNNING; Some COMPLETED]
  /\ length (report_calls (@run ascii_tables (sample_env [sample_listing]) empty_world plain_run))
     = 3%nat.
Proof. repeat apply conj; vm_compute; reflexivity. Qed.

(** ** Failed runs *)

Section FailedRuns.
Context `{CharTables}.

Lemma set_session_new_eta w : set_session_new (session_new w) w = w.
Proof. by destruct w. Qed.

Lemma add_businesses_spec env job_id now l w :
  (add_businesses env job_id now l w).2 =
    set_session_new (session_new w ++ built_rows env job_id now l) w
  /\ ((add_businesses env job_id now l w).1 = Ok () ->
      length (built_rows env job_id now l) = length l).
Proof.
  revert w. induction l as [|b l IH]; intros w; simpl.
  - split; [|done]. by rewrite app_nil_r, set_session_new_eta.
  - destruct (new_business_data env job_id now b) as [row|e]; simpl.
    + destruct (IH (set_session_new (session_new w ++ [row]) w)) as [-> Hlen].
      split; [|intros Hok; by rewrite Hlen].
      simpl. by rewrite <- app_assoc.
    + split; [|done]. by rewrite app_nil_r, set_session_new_eta.
Qed.

(** When every constructor succeeds, a row is built for every record. *)
Lemma built_rows_all env job_id now l :
  Forall (fun b => exists row, new_business_data env job_id now b = Ok row) l ->
  length (built_rows env job_id now l) = length l
  /\ Forall2 (fun b row => bd_business row = b /\ bd_job_id row = job_id)
       l (built_rows env job_id now l).
Proof.
  induction 1 as [|b l [row Hb] _ [IH1 IH2]]; simpl; [by split|].
  rewrite Hb. simpl. split; [by rewrite IH1|]. constructor; [|done].
  unfold new_business_data in Hb.
  destruct (if negb (falsy (scraped_at b)) then _ else _) as [t|]; simpl in Hb; [|done].
  by injection Hb as <-.
Qed.



End FailedRuns.



(** ** The worker and the status it finds *)

Section WorkerStatus.
Context `{CharTables}.


(** The first half of the worker marks the job Running whatever its status
    was. *)
Lemma execute_begin_status job_id job now w :
  jobs w !! job_id = Some job ->
  jobs (execute_begin job_id now w).2 !! job_id = Some (mark_running now job).
Proof.
  intros Hj. unfold execute_begin. rewrite Hj. simpl. by rewrite lookup_alter_eq, Hj.
Qed.


End WorkerStatus.

(** ** The frame kept in [processed_data] *)

Lemma rmap_ok {A B} (f : A -> result B) (l : list A) (ys : list B) :
  rmap f l = Ok ys -> Forall2 (fun x y => f x = Ok y) l ys.
Proof.
  revert ys. induction l as [|x l IH]; intros ys; simpl.
  - intros [= <-]. constructor.
  - destruct (f x) as [y|e] eqn:Ex; simpl; [|done].
    destruct (rmap f l) as [ys'|e]; simpl; [|done].
    intros [= <-]. constructor; [done|by apply IH].
Qed.

Lemma rmap_raise {A B} (f : A -> result B) (l : list A) (e : exn) :
  rmap f l = Raise e <-> exists k x, l !! k = Some x /\ f x = Raise e
    /\ forall j y, (j < k)%nat -> l !! j = Some y -> exists z, f y = Ok z.
Proof.
  induction l as [|x l IH]; simpl.
  - split; [done|]. by intros (k & y & ? & _).
  - destruct (f x) as [y|e'] eqn:Ex; simpl.
    + assert (Hshift : (exists k z, (x :: l) !! k = Some z /\ f z = Raise e
                /\ forall j y', (j < k)%nat -> (x :: l) !! j = Some y' -> exists z', f y' = Ok z')
              <-> (exists k z, l !! k = Some z /\ f z = Raise e
                /\ forall j y', (j < k)%nat -> l !! j = Some y' -> exists z', f y' = Ok z')).
      { split.
        - intros ([|k] & z & Hk & Hz & Hf); simpl in *; [congruence|].
          exists k, z. split; [done|]. split; [done|].
          intros j y' Hj Hy'. apply (Hf (S j)); [lia|done].
        - intros (k & z & Hk & Hz & Hf). exists (S k), z. split; [done|]. split; [done|].
          intros [|j] y' Hj Hy'; simpl in *; [simplify_eq; by eexists|].
          apply (Hf j); [lia|done]. }
      rewrite Hshift, <- IH. unfold mbind, result_bind, rbind.
      destruct (rmap f l) as [ys'|e'']; [split; discriminate|].
      split; by intros [= ->].
    + split.
      * intros [= ->]. exists 0%nat, x. split; [done|]. split; [done|]. intros j y Hj. lia.
      * intros ([|k] & z & Hk & Hz & Hf); simpl in *; [congruence|].
        destruct (Hf 0%nat x) as [z' Hz']; [lia|done|]. congruence.
Qed.


Lemma add_scores_ok df out :
  add_scores df = Ok out -> Forall2 scored_from df out.
Proof.
  unfold add_scores.
  destruct (rmap _ df) as [prios|e] eqn:Er; simpl; [|done].
  intros [= <-]. apply rmap_ok in Er.
  induction Er as [|ir p df prios Hp _ IH]; simpl; [constructor|].
  constructor; [|done]. by repeat split.
Qed.

Lemma add_scores_raise df e :
  add_scores df = Raise e <->
  exists k ir, df !! k = Some ir /\ _calculate_priority_score ir.2 = Raise e
    /\ forall j x, (j < k)%nat -> df !! j = Some x ->
         exists p, _calculate_priority_score x.2 = Ok p.
Proof.
  unfold add_scores.
  rewrite <- (rmap_raise (fun ir : nat * BusinessInfo => _calculate_priority_score ir.2) df e).
  destruct (rmap _ df) as [prios|e']; simpl; [done|]. split; by intros [= ->].
Qed.

Lemma apply_column_make_frame {A} (f : A -> A) (l : list A) :
  apply_column f (make_frame l) = make_frame (f <$> l).
Proof.
  unfold apply_column, make_frame. apply list_eq. intros k.
  rewrite list_lookup_imap. change (map ?g ?x) with (g <$> x).
  rewrite !list_lookup_fmap, list_lookup_imap. by destruct (l !! k).
Qed.







Section ProcessedRows.
Context `{CharTables}.

Lemma clean_and_validate_data_frame (self : HVACDataProcessor) :
  businesses self <> [] ->
  clean_and_validate_data self =
    (df ← add_scores (dedupe (make_frame (normalize <$> businesses self)));
     Ok (df, {| businesses := businesses self; processed_data := Some df |})).
Proof.
  intros Hne. rewrite (clean_and_validate_data_stages self Hne).
  by rewrite apply_column_make_frame.
Qed.

(** A successful run stores the frame it returns, and the frame is the
    deduplicated frame of the normalized records with the two scores. *)
Lemma clean_and_validate_data_ok (self self' : HVACDataProcessor) (df : DataFrame ScoredRow) :
  businesses self <> [] ->
  clean_and_validate_data self = Ok (df, self') ->
  self' = {| businesses := businesses self; processed_data := Some df |}
  /\ Forall2 scored_from (dedupe (make_frame (normalize <$> businesses self))) df.
Proof.
  intros Hne. rewrite (clean_and_validate_data_frame self Hne).
  destruct (add_scores _) as [out|e] eqn:Ea; simpl; [|done].
  intros [= <- <-]. split; [done|]. by apply add_scores_ok.
Qed.

(** The rows of a processed frame have a name and the quality score of
    their own fields. *)
Lemma processed_row_named (self self' : HVACDataProcessor) (df : DataFrame ScoredRow)
    (ir : nat * ScoredRow) :
  businesses self <> [] ->
  clean_and_validate_data self = Ok (df, self') ->
  ir ∈ df ->
  name (info ir.2) <> []
  /\ data_quality_score ir.2 = _calculate_data_quality_score (info ir.2).
Proof.
  intros Hne Hc Hin. destruct (clean_and_validate_data_ok _ _ _ Hne Hc) as [_ Ea].
  apply list_elem_of_lookup in Hin as [i Hi].
  destruct (Forall2_lookup_r _ _ _ _ _ Ea Hi) as ([k b] & Hb & Hl & Hinfo & Hp & Hq).
  simpl in *. subst b. apply list_elem_of_lookup_2 in Hb.
  apply elem_of_dedupe in Hb as (_ & Hn & _). done.
Qed.


End ProcessedRows.


(** ** When the scorer raises *)

Lemma shr_1_nonneg mrs : 0 <= shr_m mrs -> 0 <= shr_m (shr_1 mrs).
Proof. destruct mrs as [[|[p|p|]|p] r s]; simpl; lia. Qed.

Lemma iter_pos_shr_1_nonneg (p : positive) mrs : 0 <= shr_m mrs -> 0 <= shr_m (SpecFloat.iter_pos shr_1 p mrs).
Proof.
  revert mrs. induction p as [p IH|p IH|]; intros mrs Hm; simpl.
  - apply IH, IH, shr_1_nonneg, Hm.
  - apply IH, IH, Hm.
  - by apply shr_1_nonneg.
Qed.

Lemma shr_fexp_nonneg prec emax m e l :
  0 <= m -> 0 <= shr_m (shr_fexp prec emax m e l).1.
Proof.
  intros Hm. unfold shr_fexp, shr.
  assert (H0 : 0 <= shr_m (shr_record_of_loc m l)) by (by destruct l as [|[]]).
  destruct (fexp prec emax (Zdigits2 m + e) - e); simpl; [done| |done].
  by apply iter_pos_shr_1_nonneg.
Qed.

Lemma round_nearest_even_nonneg m l : 0 <= m -> 0 <= round_nearest_even m l.
Proof. intros Hm. destruct l as [|[]]; simpl; [done| |done|lia]. destruct (Z.even m); lia. Qed.

Lemma binary_round_aux_positive prec emax m e :
  match binary_round_aux prec emax false (Z.pos m) e loc_Exact with
  | S754_zero false | S754_finite false _ _ | S754_infinity false => True
  | _ => False
  end.
Proof.
  unfold binary_round_aux.
  pose proof (shr_fexp_nonneg prec emax (Z.pos m) e loc_Exact) as H1.
  destruct (shr_fexp prec emax (Z.pos m) e loc_Exact) as [mrs' e'].
  pose proof (shr_fexp_nonneg prec emax
    (round_nearest_even (shr_m mrs') (loc_of_shr_record mrs')) e' loc_Exact) as H2.
  destruct (shr_fexp prec emax _ e' loc_Exact) as [mrs'' e'']. simpl in *.
  specialize (H1 ltac:(lia)). specialize (H2 (round_nearest_even_nonneg _ _ H1)).
  destruct (shr_m mrs''); [done| |lia]. by destruct (e'' <=? emax - prec).
Qed.

(** The priority score raises exactly when twice the rating is infinite,
    and then with the error of [int]. *)
Lemma priority_score_raises (row : BusinessInfo) (e : exn) :
  _calculate_priority_score row = Raise e <->
  (e = OverflowError (lit "cannot convert float infinity to integer")
   /\ Prim2SF (star_rating row * 2)%float = S754_infinity false).
Proof.
  unfold _calculate_priority_score.
  pose proof (FloatAxioms.mul_spec (star_rating row) 2) as Hm.
  pose proof (FloatAxioms.ltb_spec 0 (star_rating row)) as Hl.
  change (Prim2SF 0) with (S754_zero false) in Hl.
  change (Prim2SF 2) with (S754_finite false 4503599627370496 (-51)) in Hm.
  destruct (Prim2SF (star_rating row)) as [s|s| |s m ex] eqn:Er; simpl in Hm, Hl.
  - rewrite Hl. simpl. split; [done|]. rewrite Hm. by intros [_ ?].
  - destruct s; simpl in Hm, Hl; rewrite Hl; simpl.
    + split; [done|]. rewrite Hm. by intros [_ ?].
    + unfold float_int. rewrite Hm. simpl. split; [by intros [= <-]|by intros [-> _]].
  - rewrite Hl. simpl. split; [done|]. rewrite Hm. by intros [_ ?].
  - destruct s; simpl in Hm, Hl; rewrite Hl; simpl.
    + split; [done|]. rewrite Hm. intros [_ Hi].
      pose proof (binary_round_aux_sign prec emax) as Hs. unfold SF64mul, SFmul in Hi.
      simpl in Hi. unfold binary_round_aux in Hi.
      destruct (shr_fexp _ _ _ _ _) as [mrs' e']. destruct (shr_fexp _ _ _ _ _) as [mrs'' e''].
      destruct (shr_m mrs''); [done| |done]. by destruct (_ <=? _).
    + unfold float_int. rewrite Hm.
      pose proof (binary_round_aux_positive prec emax (m * 4503599627370496) (ex + -51)) as Hp.
      unfold SF64mul, SFmul. simpl.
      destruct (binary_round_aux prec emax false _ _ loc_Exact) as [[]|[]| |[] m' e'];
        try done; simpl;
        (split; [first [by intros [= <-]|by intros [=]]|by intros [-> ?]]).
Qed.

Lemma rmap_raises_some {A B} (f : A -> result B) (l : list A) (x : A) (e : exn) :
  x ∈ l -> f x = Raise e -> exists e' y, rmap f l = Raise e' /\ y ∈ l /\ f y = Raise e'.
Proof.
  induction l as [|z l IH]; [by intros ?%elem_of_nil|].
  intros Hx Hfx. simpl. destruct (f z) as [v|e'] eqn:Ez.
  - apply elem_of_cons in Hx as [->|Hx]; [congruence|].
    destruct (IH Hx Hfx) as (e' & y & Hr & Hy & Hfy).
    exists e', y. rewrite Hr. split; [done|]. split; [by right|done].
  - exists e', z. split; [done|]. split; [by left|done].
Qed.

Section PipelineErrors.
Context `{CharTables}.

(** X2. [clean_and_validate_data] raises in one case only: a record that
    survives normalization and deduplication has a star rating whose double
    is plus infinity; the error is then the OverflowError of [int]. It never
    raises on an empty list of businesses. *)
Theorem clean_and_validate_data_raises (self : HVACDataProcessor) (e : exn) :
  clean_and_validate_data self = Raise e <->
  (e = OverflowError (lit "cannot convert float infinity to integer")
   /\ exists k r, ((k, r) ∈ dedupe (make_frame (normalize <$> businesses self)))
        /\ Prim2SF (star_rating r * 2)%float = S754_infinity false).
Proof.
  destruct (businesses self) as [|b l] eqn:Eb.
  { unfold clean_and_validate_data. rewrite Eb. simpl. split; [done|].
    intros (_ & k & r & Hin & _). by apply elem_of_nil in Hin. }
  rewrite <- Eb. rewrite clean_and_validate_data_frame by by rewrite Eb.
  set (df := dedupe (make_frame (normalize <$> businesses self))).
  split.
  - destruct (add_scores df) as [out|e'] eqn:Ea; simpl; [done|]. intros [= ->].
    apply add_scores_raise in Ea as (k & [i r] & Hk & Hr & _). simpl in Hr.
    apply priority_score_raises in Hr as [-> Hinf]. split; [done|].
    exists i, r. split; [by eapply list_elem_of_lookup_2|done].
  - intros (-> & k & r & Hin & Hinf).
    assert (Hr : _calculate_priority_score (k, r).2 =
              Raise (OverflowError (lit "cannot convert float infinity to integer")))
      by by apply priority_score_raises.
    unfold add_scores.
    destruct (rmap_raises_some (fun ir : nat * BusinessInfo => _calculate_priority_score ir.2)
                df (k, r) _ Hin Hr) as (e' & y & -> & _ & Hy).
    apply priority_score_raises in Hy as [-> _]. done.
Qed.

End PipelineErrors.

(** ** The quality threshold *)

Lemma SFleb_trans (x y z : spec_float) :
  SFleb x y = true -> SFleb y z = true -> SFleb x z = true.
Proof.
  unfold SFleb, SFcompare.
  destruct x as [[]|[]| |[] m1 e1], y as [[]|[]| |[] m2 e2], z as [[]|[]| |[] m3 e3];
    try done;
    destruct (Z.compare_spec e1 e2), (Z.compare_spec e2 e3), (Z.compare_spec e1 e3);
    try done; try lia; subst;
    change (PosDef.Pos.compare_cont Eq) with Pos.compare;
    destruct (Pos.compare_spec m1 m2), (Pos.compare_spec m2 m3), (Pos.compare_spec m1 m3);
    simpl; try done; try lia.
Qed.

Lemma float_leb_trans (x y z : float) :
  (x <=? y)%float = true -> (y <=? z)%float = true -> (x <=? z)%float = true.
Proof. rewrite !FloatAxioms.leb_spec. apply SFleb_trans. Qed.

(** A row with a name and a phone has 45 of the 100 points at least. *)
Lemma quality_score_name_phone (row : BusinessInfo) :
  name row <> [] -> phone row <> [] ->
  (45 <=? _calculate_data_quality_score row)%float = true.
Proof.
  intros Hn Hp. unfold _calculate_data_quality_score.
  destruct (name row); [done|]. destruct (phone row); [done|]. simpl falsy. cbn [negb].
  destruct (falsy (address row)), (falsy (owner_name row)), (has_website row),
    (0 <? review_count row), (falsy (additional_contact row)); vm_compute; reflexivity.
Qed.

Section Threshold.
Context `{CharTables}.

(** X3. On a frame that [clean_and_validate_data] produced, a quality
    threshold of 45 or less (the default of 40 among them) filters nothing:
    every row has a name, and a row with a name and a phone scores 45 at
    least. [filter_by_criteria] then keeps exactly the rows with a phone
    whose review count is within the limit. *)
Theorem quality_threshold_redundant (self self' : HVACDataProcessor)
    (df : DataFrame ScoredRow) (max_reviews : Z) (min_quality_score : float) :
  businesses self <> [] ->
  clean_and_validate_data self = Ok (df, self') ->
  (min_quality_score <=? 45)%float = true ->
  (forall ir, ir ∈ df ->
     meets_criteria max_reviews min_quality_score ir.2 =
       (review_count (info ir.2) <=? max_reviews) && negb (bool_decide (phone (info ir.2) = [])))
  /\ filter_by_criteria self' max_reviews min_quality_score =
       Ok (sort_values (List.filter (fun ir =>
             (review_count (info ir.2) <=? max_reviews)
             && negb (bool_decide (phone (info ir.2) = []))) df)).
Proof.
  intros Hne Hc Hm.
  assert (Hall : forall ir, ir ∈ df ->
     meets_criteria max_reviews min_quality_score ir.2 =
       (review_count (info ir.2) <=? max_reviews) && negb (bool_decide (phone (info ir.2) = []))).
  { intros ir Hin. destruct (processed_row_named _ _ _ _ Hne Hc Hin) as [Hn Hq].
    unfold meets_criteria. case_bool_decide as Hph; simpl; [by rewrite !andb_false_r|].
    rewrite !andb_true_r. rewrite Hq.
    rewrite (float_leb_trans _ _ _ Hm (quality_score_name_phone _ Hn Hph)).
    by rewrite andb_true_r. }
  split; [exact Hall|].
  destruct (clean_and_validate_data_ok _ _ _ Hne Hc) as [-> _].
  unfold filter_by_criteria. simpl. do 2 f_equal.
  clear -Hall. induction df as [|ir df IH]; [done|]. simpl.
  rewrite (Hall ir) by by left. rewrite IH; [done|].
  intros ir' Hin. apply Hall. by right.
Qed.

End Threshold.

Lemma quality_threshold_redundant_witness :
  exists df self',
    @clean_and_validate_data ascii_tables (load_businesses [sample_listing] new_processor)
      = Ok (df, self')
    /\ (forall ir, ir ∈ df ->
          meets_criteria 20 40 ir.2 =
            (review_count (info ir.2) <=? 20) && negb (bool_decide (phone (info ir.2) = [])))
    /\ filter_by_criteria self' 20 40 =
         Ok (sort_values (List.filter (fun ir =>
               (review_count (info ir.2) <=? 20)
               && negb (bool_decide (phone (info ir.2) = []))) df)).
Proof.
  destruct (@clean_and_validate_data ascii_tables (load_businesses [sample_listing] new_processor))
    as [[df self']|e] eqn:E; [|vm_compute in E; discriminate E].
  exists df, self'. split; [reflexivity|].
  exact (@quality_threshold_redundant ascii_tables
           (load_businesses [sample_listing] new_processor) self' df 20 40
           ltac:(discriminate) E ltac:(vm_compute; reflexivity)).
Defined.

(** ** The shape of a cleaned address and of a cleaned owner name *)

Section CleanerShapes.
Context `{CharTablesLaws}.

Lemma single_spaced_lookup b s i c :
  single_spaced b s = true -> s !! i = Some c -> is_space c = true ->
  c = c_space /\ forall d, s !! S i = Some d -> is_space d = false.
Proof.
  revert b i. induction s as [|x s IH]; intros b i; [done|]. simpl.
  destruct i as [|i]; simpl.
  - intros Hs [= ->] Hc. rewrite Hc in Hs.
    apply andb_true_iff in Hs as [[_ Hx]%andb_true_iff Hs]. apply N.eqb_eq in Hx.
    split; [done|]. intros d Hd. clear IH. destruct s as [|y s]; [discriminate Hd|].
    simpl in Hd. injection Hd as ->.
    simpl in Hs. by destruct (is_space d).
  - intros Hs. destruct (is_space x).
    + apply andb_true_iff in Hs as [_ Hs]. by apply (IH true).
    + by apply (IH false).
Qed.

Lemma stripped_ends s c :
  stripped s -> (s !! 0%nat = Some c \/ s !! pred (length s) = Some c) -> is_space c = false.
Proof.
  intros [Hl Hr] [Hc|Hc].
  - destruct s as [|x s]; [done|]. injection Hc as ->. simpl in Hl.
    destruct (is_space c) eqn:E; [|done].
    pose proof (lstrip_length s) as Hlen. rewrite Hl in Hlen. simpl in Hlen. lia.
  - destruct s as [|x s _] using rev_ind; [done|].
    rewrite length_app in Hc. simpl in Hc.
    rewrite lookup_app_r in Hc by lia.
    replace (pred (length s + 1) - length s)%nat with 0%nat in Hc by lia.
    injection Hc as ->. rewrite rev_unit in Hr. simpl in Hr.
    destruct (is_space c) eqn:E; [|done].
    pose proof (lstrip_length (rev s)) as Hlen. rewrite Hr in Hlen. simpl in Hlen. lia.
Qed.

(** X4. A cleaned address has no white space but single blanks between
    other characters: a white-space character of [_clean_address s] is the
    blank, it is neither the first nor the last character, and the character
    after it is not white space. *)
Theorem clean_address_shape (s : str) (i : nat) (c : char) :
  _clean_address s !! i = Some c -> is_space c = true ->
  c = c_space
  /\ (0 < i)%nat /\ (S i < length (_clean_address s))%nat
  /\ (forall d, _clean_address s !! S i = Some d -> is_space d = false).
Proof.
  pose proof (clean_address_stripped s) as Hst.
  pose proof (clean_address_single s) as Hsp.
  set (a := _clean_address s) in *. intros Hi Hc.
  destruct (single_spaced_lookup _ _ _ _ Hsp Hi Hc) as [-> Hnext].
  split; [done|]. split; [|split; [|done]].
  - destruct i; [|lia]. rewrite (stripped_ends a _ Hst (or_introl Hi)) in Hc. done.
  - apply lookup_lt_Some in Hi as Hlt.
    destruct (decide (S i = length a)) as [E|]; [|lia]. exfalso.
    assert (Hlast : a !! pred (length a) = Some c_space) by by rewrite <- E.
    rewrite (stripped_ends a _ Hst (or_intror Hlast)) in Hc. done.
Qed.

Lemma split_aux_no_space cur s w :
  Forall (fun c => is_space c = false) cur -> w ∈ split_aux cur s ->
  Forall (fun c => is_space c = false) w.
Proof.
  revert cur. induction s as [|c s IH]; intros cur Hcur; simpl.
  - destruct cur as [|d cur]; [by intros ?%elem_of_nil|].
    intros ->%list_elem_of_singleton. by apply Forall_rev.
  - destruct (is_space c) eqn:Ec.
    + destruct cur as [|d cur]; [by apply IH|].
      intros [->|Hw]%elem_of_cons; [by apply Forall_rev|]. by apply (IH []).
    + apply IH. by constructor.
Qed.

Lemma lowers_end_plain w :
  Forall (fun c => is_space c = false) w -> lowers_end w = true ->
  w <> [] /\ Forall (fun d => ascii_lower d = true) w.
Proof.
  induction 1 as [|c w Hc Hw IH]; simpl; [done|].
  intros [Hl Hrest]%andb_true_iff. split; [done|]. constructor; [done|].
  apply orb_true_iff in Hrest as [He|Hrest]; [|by apply IH].
  apply at_end_cases in He as [->| ->]; [constructor|]. exfalso.
  apply Forall_cons in Hw as [Hn _]. by rewrite space_ascii in Hn.
Qed.

Lemma name_word_capitalized w :
  Forall (fun c => is_space c = false) w -> match_name_word w = true -> capitalized w.
Proof.
  destruct w as [|c w]; simpl; [done|].
  intros [_ Hw]%Forall_cons [Hc Hl]%andb_true_iff.
  destruct (lowers_end_plain w Hw Hl) as [Hne Hall]. by exists c, w.
Qed.

(** X5. [_clean_owner_name] returns the empty string or a name of two to
    four words, each an ASCII capital followed by one or more ASCII small
    letters; the name has no white space at its ends and consists of ASCII
    letters and white space only. *)
Theorem clean_owner_name_shape (s : str) :
  _clean_owner_name s = []
  \/ ((2 <= length (split (_clean_owner_name s)) <= 4)%nat
      /\ Forall capitalized (split (_clean_owner_name s))
      /\ stripped (_clean_owner_name s)
      /\ Forall (fun c => ascii_upper c || ascii_lower c || is_space c = true)
           (_clean_owner_name s)).
Proof.
  unfold _clean_owner_name. destruct (falsy s); [by left|]. cbv zeta.
  destruct (str_in _ _); [by left|].
  set (o := strip_title (remove_parens (strip s))).
  destruct ((length (split o) <? 2)%nat || (4 <? length (split o))%nat) eqn:El; [by left|].
  destruct (forallb match_name_word (split o)) eqn:Ea; [|by left]. simpl. right.
  apply orb_false_iff in El as [El1 El2].
  apply Nat.ltb_ge in El1. apply Nat.ltb_ge in El2.
  rewrite split_strip.
  assert (Hcap : Forall capitalized (split o)).
  { apply Forall_forall. intros w Hw. apply name_word_capitalized.
    - by apply (split_aux_no_space [] o).
    - rewrite forallb_forall in Ea. apply Ea. by apply list_elem_of_In. }
  split; [lia|]. split; [done|]. split; [apply strip_stripped|].
  apply Forall_forall. intros c Hc.
  assert (Hco : c ∈ o).
  { unfold strip, rstrip in Hc. apply list_elem_of_In, in_rev, list_elem_of_In in Hc.
    assert (Hsub : forall (t : str) x, x ∈ lstrip t -> x ∈ t).
    { induction t as [|y t IHt]; simpl; [done|]. destruct (is_space y); [|done].
      intros x Hx. right. by apply IHt. }
    apply Hsub in Hc. apply list_elem_of_In, in_rev, list_elem_of_In in Hc. by apply Hsub. }
  destruct (split_aux_chars [] o c (or_introl Hco)) as [Hs|(w & Hw & Hcw)].
  - rewrite Hs. by rewrite orb_true_r.
  - rewrite Forall_forall in Hcap. destruct (Hcap w Hw) as (d & w' & -> & Hd & _ & Hall).
    apply elem_of_cons in Hcw as [->|Hcw]; [by rewrite Hd|].
    rewrite Forall_forall in Hall. rewrite (Hall c Hcw). by rewrite orb_true_r.
Qed.

End CleanerShapes.

Lemma clean_address_shape_witness :
  @CharTablesLaws ascii_tables
  /\ @_clean_address ascii_tables (lit "  12  Main St ,Boise ") !! 2%nat = Some c_space
  /\ (c_space = c_space
      /\ (0 < 2)%nat
      /\ (3 < length (@_clean_address ascii_tables (lit "  12  Main St ,Boise ")))%nat
      /\ (forall d, @_clean_address ascii_tables (lit "  12  Main St ,Boise ") !! 3%nat = Some d ->
            @is_space ascii_tables d = false)).
Proof.
  split; [exact ascii_tables_laws|]. split; [vm_compute; reflexivity|].
  exact (@clean_address_shape ascii_tables ascii_tables_laws
           (lit "  12  Main St ,Boise ") 2 c_space ltac:(vm_compute; reflexivity)
           ltac:(vm_compute; reflexivity)).
Defined.

Lemma clean_owner_name_shape_witness :
  @CharTablesLaws ascii_tables
  /\ (@_clean_owner_name ascii_tables (lit "Dr. John Smith (owner)") = []
      \/ ((2 <= length (@split ascii_tables
                 (@_clean_owner_name ascii_tables (lit "Dr. John Smith (owner)"))) <= 4)%nat
          /\ Forall capitalized (@split ascii_tables
               (@_clean_owner_name ascii_tables (lit "Dr. John Smith (owner)")))
          /\ @stripped ascii_tables (@_clean_owner_name ascii_tables (lit "Dr. John Smith (owner)"))
          /\ Forall (fun c => ascii_upper c || ascii_lower c || @is_space ascii_tables c = true)
               (@_clean_owner_name ascii_tables (lit "Dr. John Smith (owner)")))).
Proof.
  split; [exact ascii_tables_laws|].
  exact (@clean_owner_name_shape ascii_tables ascii_tables_laws (lit "Dr. John Smith (owner)")).
Defined.

(** ** The distribution of the quality scores *)

Lemma quality_score_one_bin (row : BusinessInfo) :
  let q := _calculate_data_quality_score row in
  (Nat.b2n (in_bin q 0 40) + Nat.b2n (in_bin q 40 60) + Nat.b2n (in_bin q 60 80)
   + Nat.b2n (in_bin q 80 100) + Nat.b2n (present_weight row =? 100)%Z)%nat = 1%nat.
Proof.
  cbv zeta.
  unfold _calculate_data_quality_score, present_weight, total_weight, quality_weights.
  destruct (falsy (name row)), (falsy (phone row)), (falsy (address row)),
    (falsy (owner_name row)), (has_website row), (0 <? review_count row),
    (falsy (additional_contact row)); vm_compute; reflexivity.
Qed.

Lemma bin_count_cons ir data bin_start bin_end :
  bin_count (ir :: data) bin_start bin_end =
    (Nat.b2n (in_bin (data_quality_score ir.2) bin_start bin_end)
     + bin_count data bin_start bin_end)%nat.
Proof.
  unfold bin_count. simpl. by destruct (in_bin _ _ _).
Qed.

(** X6. The four bins of the sheet Data Quality are half-open, so they miss
    the score 100: for a frame whose quality scores are those of its rows,
    the four counts and the number of rows with every weighted field present
    add up to the number of rows, and such a row falls into no bin, the one
    labelled Excellent (80-100%) included. *)
Theorem quality_bins_miss_perfect_score (data : DataFrame ScoredRow) :
  Forall (fun ir : nat * ScoredRow =>
            data_quality_score ir.2 = _calculate_data_quality_score (info ir.2)) data ->
  (sum_list ((fun b : Z * Z * str => bin_count data b.1.1 b.1.2) <$> quality_bins)
   + length (List.filter (fun ir : nat * ScoredRow => (present_weight (info ir.2) =? 100)%Z) data))%nat
  = length data
  /\ (forall ir b, ir ∈ data -> b ∈ quality_bins -> present_weight (info ir.2) = 100 ->
        in_bin (data_quality_score ir.2) b.1.1 b.1.2 = false).
Proof.
  intros Hq. split.
  - induction Hq as [|ir data Hir _ IH]; [done|].
    simpl in IH |- *. rewrite !bin_count_cons, Hir.
    pose proof (quality_score_one_bin (info ir.2)) as H1. cbv zeta in H1.
    destruct (present_weight (info ir.2) =? 100); simpl length; simpl Nat.b2n in H1; lia.
  - intros ir b Hin Hb Hw. rewrite Forall_forall in Hq. rewrite (Hq ir Hin).
    pose proof (quality_score_one_bin (info ir.2)) as H1. cbv zeta in H1.
    rewrite Hw in H1. set (q := _calculate_data_quality_score (info ir.2)) in *.
    destruct (in_bin q 0 40) eqn:E1, (in_bin q 40 60) eqn:E2, (in_bin q 60 80) eqn:E3,
      (in_bin q 80 100) eqn:E4; simpl in H1; try lia.
    repeat (apply elem_of_cons in Hb as [->|Hb]); [done|done|done|done|by apply elem_of_nil in Hb].
Qed.

Lemma quality_bins_miss_perfect_score_witness :
  Forall (fun ir : nat * ScoredRow =>
            data_quality_score ir.2 = _calculate_data_quality_score (info ir.2))
    sample_scored_frame
  /\ (sum_list ((fun b : Z * Z * str => bin_count sample_scored_frame b.1.1 b.1.2)
                  <$> quality_bins)
      + length (List.filter (fun ir : nat * ScoredRow => (present_weight (info ir.2) =? 100)%Z)
                  sample_scored_frame))%nat
     = length sample_scored_frame
  /\ in_bin (_calculate_data_quality_score sample_complete) 80 100 = false.
Proof.
  assert (Hq : Forall (fun ir : nat * ScoredRow =>
            data_quality_score ir.2 = _calculate_data_quality_score (info ir.2))
    sample_scored_frame) by (repeat constructor).
  split; [exact Hq|].
  destruct (quality_bins_miss_perfect_score sample_scored_frame Hq) as [Hsum Hmiss].
  split; [exact Hsum|].
  apply (Hmiss (0%nat, {| info := sample_complete; priority_score := 0;
                          data_quality_score := _calculate_data_quality_score sample_complete |})
           (80, 100, lit "Excellent (80-100%)")).
  - left.
  - do 3 right. left.
  - vm_compute; reflexivity.
Defined.

(** ** The sheet By Location *)

Lemma elem_of_unique_from seen l x :
  x ∈ unique_from seen l <-> (x ∈ l /\ x ∉ seen).
Proof.
  revert seen. induction l as [|y l IH]; intros seen; simpl.
  - split; [by intros ?%elem_of_nil|]. by intros [?%elem_of_nil _].
  - case_bool_decide as Hy.
    + rewrite IH, elem_of_cons. split; [intros [? ?]; by split; [right|]|].
      intros [[->|?] Hn]; [done|by split].
    + rewrite !elem_of_cons, IH. split.
      * intros [->|[Hx Hn]]; [split; [by left|done]|]. split; [by right|].
        intros ?. apply Hn, elem_of_union. by right.
      * intros [[->|Hx] Hn]; [by left|].
        destruct (decide (x = y)) as [->|Hne]; [by left|]. right. split; [done|].
        intros [?%elem_of_singleton|?]%elem_of_union; done.
Qed.

Lemma unique_from_NoDup seen l : NoDup (unique_from seen l).
Proof.
  revert seen. induction l as [|y l IH]; intros seen; simpl; [constructor|].
  case_bool_decide; [apply IH|]. constructor; [|apply IH].
  rewrite elem_of_unique_from. intros [_ Hn]. apply Hn, elem_of_union. left.
  by apply elem_of_singleton.
Qed.

Lemma insert_str_perm x l : insert_str x l ≡ₚ x :: l.
Proof.
  induction l as [|y l IH]; simpl; [done|].
  destruct (str_leb x y); [done|]. rewrite IH. apply Permutation_swap.
Qed.

Lemma sorted_perm l : sorted l ≡ₚ l.
Proof.
  unfold sorted. induction l as [|x l IH]; simpl; [done|]. by rewrite insert_str_perm, IH.
Qed.

Lemma str_leb_le a b : str_leb a b = true <-> str_lex_le a b.
Proof.
  unfold str_leb. rewrite <- str_compare_le. by destruct (str_compare a b).
Qed.

Lemma insert_str_sorted x l :
  StronglySorted str_lex_le l -> StronglySorted str_lex_le (insert_str x l).
Proof.
  induction 1 as [|y l Hs IH Hall]; simpl.
  - repeat constructor.
  - destruct (str_leb x y) eqn:E.
    + apply str_leb_le in E. constructor; [by constructor|].
      constructor; [done|]. eapply Forall_impl; [exact Hall|].
      intros z Hz. by eapply str_lex_le_trans.
    + constructor; [done|].
      rewrite (insert_str_perm x l). constructor; [|done].
      destruct (str_lex_le_total x y) as [Hxy|Hyx]; [|done].
      apply str_leb_le in Hxy. congruence.
Qed.

Lemma sorted_sorted l : StronglySorted str_lex_le (sorted l).
Proof.
  unfold sorted. induction l as [|x l IH]; simpl; [constructor|]. by apply insert_str_sorted.
Qed.

Section WorksheetProps.
Variable format_1f : float -> str.

Lemma location_rows_last ld r :
  (location_rows format_1f ld r).2 = (r + length ld)%nat.
Proof.
  revert r. induction ld as [|ir ld IH]; intros r; simpl; [lia|].
  specialize (IH (S r)). destruct (location_rows format_1f ld (S r)). simpl in *. lia.
Qed.

Lemma location_rows_cons x ld r :
  (location_rows format_1f (x :: ld) r).1 =
    location_row format_1f r x.2 ++ (location_rows format_1f ld (S r)).1.
Proof. cbn [location_rows]. by destruct (location_rows format_1f ld (S r)). Qed.

Lemma location_rows_in ld r j ir w :
  ld !! j = Some ir -> w ∈ location_row format_1f (r + j) ir.2 ->
  w ∈ (location_rows format_1f ld r).1.
Proof.
  revert r j. induction ld as [|x ld IH]; intros r j; [done|].
  rewrite location_rows_cons. destruct j as [|j]; cbn [lookup list_lookup].
  - intros [= ->]. rewrite Nat.add_0_r. intros Hw. apply elem_of_app. by left.
  - intros Hj Hw. apply elem_of_app. right. apply (IH (S r) j); [done|].
    by replace (S r + j)%nat with (r + S j)%nat by lia.
Qed.

Lemma location_row_cells r row w :
  w ∈ location_row format_1f r row -> w.1.1 = r /\ (1 <= w.1.2 <= 8)%nat.
Proof.
  unfold location_row. intros Hw.
  repeat (apply elem_of_cons in Hw as [->|Hw]); simpl; try lia. by apply elem_of_nil in Hw.
Qed.

Lemma location_row_NoDup r row : NoDup (cell_of <$> location_row format_1f r row).
Proof.
  unfold location_row, cell_of. simpl.
  repeat (constructor;
    [rewrite ?elem_of_cons, elem_of_nil; intros Hin;
     repeat (destruct Hin as [Hin|Hin]; [injection Hin as E1; lia|]); done|]).
  constructor.
Qed.

Lemma location_rows_cells ld r w :
  w ∈ (location_rows format_1f ld r).1 ->
  (r <= w.1.1 < r + length ld)%nat /\ (1 <= w.1.2 <= 8)%nat.
Proof.
  revert r. induction ld as [|x ld IH]; intros r; [by intros ?%elem_of_nil|].
  rewrite location_rows_cons. cbn [length]. intros [Hw|Hw]%elem_of_app.
  - apply location_row_cells in Hw. lia.
  - apply IH in Hw. lia.
Qed.

Lemma location_rows_NoDup ld r : NoDup (cell_of <$> (location_rows format_1f ld r).1).
Proof.
  revert r. induction ld as [|x ld IH]; intros r; [constructor|].
  rewrite location_rows_cons, fmap_app. apply NoDup_app.
  split; [apply location_row_NoDup|]. split; [|apply IH].
  intros c (w & -> & Hw)%list_elem_of_fmap (w' & E & Hw')%list_elem_of_fmap.
  apply location_row_cells in Hw. apply location_rows_cells in Hw'.
  unfold cell_of in E. injection E as E1 E2. lia.
Qed.

Lemma location_block_eq data loc r :
  location_block format_1f data loc r =
    ((r, 1%nat, VStr (loc ++ lit " (" ++ str_of_nat (length (at_location data loc))
                       ++ lit " businesses)"))
       :: header_cells (r + 2) ++ (location_rows format_1f (at_location data loc) (r + 3)).1,
     (r + (5 + length (at_location data loc)))%nat).
Proof.
  unfold location_block. replace (r + 2 + 1)%nat with (r + 3)%nat by lia.
  pose proof (location_rows_last (at_location data loc) (r + 3)) as Hl.
  destruct (location_rows format_1f _ _) as [rows last]. cbn [fst snd] in *. subst last.
  f_equal. lia.
Qed.

Lemma header_cells_cells r w :
  w ∈ header_cells r -> w.1.1 = r /\ (1 <= w.1.2 <= 8)%nat.
Proof.
  unfold header_cells, location_headers. cbn [imap]. intros Hw.
  repeat (apply elem_of_cons in Hw as [->|Hw]); simpl; try lia. by apply elem_of_nil in Hw.
Qed.

Lemma header_cells_NoDup r : NoDup (cell_of <$> header_cells r).
Proof.
  unfold header_cells, location_headers, cell_of. simpl.
  repeat (constructor;
    [rewrite ?elem_of_cons, elem_of_nil; intros Hin;
     repeat (destruct Hin as [Hin|Hin]; [injection Hin as E1; lia|]); done|]).
  constructor.
Qed.

Lemma location_block_last data loc r :
  (location_block format_1f data loc r).2 = (r + (5 + length (at_location data loc)))%nat.
Proof. by rewrite location_block_eq. Qed.

Lemma location_block_cells data loc r w :
  w ∈ (location_block format_1f data loc r).1 ->
  (r <= w.1.1 < r + 3 + length (at_location data loc))%nat.
Proof.
  rewrite location_block_eq. cbn [fst].
  intros [->|[Hw|Hw]%elem_of_app]%elem_of_cons; [simpl; lia| |].
  - apply header_cells_cells in Hw. lia.
  - apply location_rows_cells in Hw. lia.
Qed.

Lemma location_block_NoDup data loc r :
  NoDup (cell_of <$> (location_block format_1f data loc r).1).
Proof.
  rewrite location_block_eq. cbn [fst]. rewrite fmap_cons, fmap_app. constructor.
  - intros [Hin|Hin]%elem_of_app; apply list_elem_of_fmap in Hin as (w & E & Hw);
      unfold cell_of in E; injection E as E1 E2.
    + apply header_cells_cells in Hw. lia.
    + apply location_rows_cells in Hw. lia.
  - apply NoDup_app. split; [apply header_cells_NoDup|]. split; [|apply location_rows_NoDup].
    intros c (w & -> & Hw)%list_elem_of_fmap (w' & E & Hw')%list_elem_of_fmap.
    apply header_cells_cells in Hw. apply location_rows_cells in Hw'.
    unfold cell_of in E. injection E as E1 E2. lia.
Qed.

Lemma location_block_in data loc r :
  ((r, 1%nat, VStr (loc ++ lit " (" ++ str_of_nat (length (at_location data loc))
                     ++ lit " businesses)")) ∈ (location_block format_1f data loc r).1)
  /\ (forall j ir w, at_location data loc !! j = Some ir ->
        w ∈ location_row format_1f (r + 3 + j) ir.2 ->
        w ∈ (location_block format_1f data loc r).1).
Proof.
  rewrite location_block_eq. cbn [fst]. split; [by left|].
  intros j ir w Hj Hw. right. apply elem_of_app. right.
  by apply (location_rows_in _ _ j ir).
Qed.

Lemma location_blocks_cons data loc locs r :
  location_blocks format_1f data (loc :: locs) r =
    ((location_block format_1f data loc r).1
       ++ (location_blocks format_1f data locs
             (r + (5 + length (at_location data loc)))%nat).1,
     (location_blocks format_1f data locs (r + (5 + length (at_location data loc)))%nat).2).
Proof.
  cbn [location_blocks]. rewrite location_block_eq.
  by destruct (location_blocks format_1f data locs _).
Qed.

Lemma location_blocks_last data locs r :
  (location_blocks format_1f data locs r).2 =
    (r + sum_list ((fun loc => 5 + length (at_location data loc))%nat <$> locs))%nat.
Proof.
  revert r. induction locs as [|loc locs IH]; intros r.
  - cbn. lia.
  - rewrite location_blocks_cons, fmap_cons. cbn [snd sum_list sum_list_with].
    rewrite IH. unfold id. lia.
Qed.

Lemma location_blocks_cells data locs r w :
  w ∈ (location_blocks format_1f data locs r).1 -> (r <= w.1.1)%nat.
Proof.
  revert r. induction locs as [|loc locs IH]; intros r; [by intros ?%elem_of_nil|].
  rewrite location_blocks_cons. cbn [fst].
  intros [Hw|Hw]%elem_of_app; [apply location_block_cells in Hw; lia|apply IH in Hw; lia].
Qed.

Lemma location_blocks_NoDup data locs r :
  NoDup (cell_of <$> (location_blocks format_1f data locs r).1).
Proof.
  revert r. induction locs as [|loc locs IH]; intros r; [constructor|].
  rewrite location_blocks_cons. cbn [fst]. rewrite fmap_app. apply NoDup_app.
  split; [apply location_block_NoDup|]. split; [|apply IH].
  intros c (w & -> & Hw)%list_elem_of_fmap (w' & E & Hw')%list_elem_of_fmap.
  apply location_block_cells in Hw. apply location_blocks_cells in Hw'.
  unfold cell_of in E. injection E as E1 E2. lia.
Qed.

Lemma location_blocks_in data locs r k loc w :
  locs !! k = Some loc ->
  w ∈ (location_block format_1f data loc
         (r + sum_list ((fun loc => 5 + length (at_location data loc))%nat <$> take k locs))).1 ->
  w ∈ (location_blocks format_1f data locs r).1.
Proof.
  revert r k. induction locs as [|l0 locs IH]; intros r k; [done|].
  rewrite location_blocks_cons. cbn [fst]. destruct k as [|k]; cbn [lookup list_lookup take].
  - intros [= ->]. cbn. rewrite Nat.add_0_r. intros Hw. apply elem_of_app. by left.
  - intros Hk Hw. apply elem_of_app. right. apply (IH _ k); [done|].
    rewrite fmap_cons in Hw. cbn [sum_list sum_list_with] in Hw.
    by rewrite <- Nat.add_assoc.
Qed.

End WorksheetProps.

Lemma sum_indicator (locs : list str) (x : str) :
  NoDup locs -> x ∈ locs ->
  sum_list ((fun loc => Nat.b2n (bool_decide (x = loc))) <$> locs) = 1%nat.
Proof.
  induction 1 as [|y locs Hy Hnd IH]; [by intros ?%elem_of_nil|].
  intros Hx. simpl. case_bool_decide as E; simpl.
  - subst y. f_equal. clear -Hy. induction locs as [|z locs IH]; [done|]. simpl.
    rewrite bool_decide_eq_false_2; [|intros ->; apply Hy; by left]. simpl. apply IH.
    intros ?. apply Hy. by right.
  - apply IH. apply elem_of_cons in Hx as [?|?]; done.
Qed.

Lemma sum_list_plus {A} (f g : A -> nat) (l : list A) :
  sum_list ((fun x => f x + g x)%nat <$> l) = (sum_list (f <$> l) + sum_list (g <$> l))%nat.
Proof. induction l as [|x l IH]; [done|]. rewrite !fmap_cons. cbn. unfold id in *. lia. Qed.

Lemma at_location_cons ir data loc :
  length (at_location (ir :: data) loc) =
    (Nat.b2n (bool_decide (location (info ir.2) = loc)) + length (at_location data loc))%nat.
Proof. unfold at_location. cbn [List.filter]. by case_bool_decide. Qed.

Lemma at_location_total (data : DataFrame ScoredRow) (locs : list str) :
  NoDup locs ->
  (forall ir, ir ∈ data -> location (info ir.2) ∈ locs) ->
  sum_list ((fun loc => length (at_location data loc)) <$> locs) = length data.
Proof.
  intros Hnd. induction data as [|ir data IH]; intros Hall.
  - clear. induction locs as [|l locs IHl]; [done|]. rewrite fmap_cons. cbn. exact IHl.
  - erewrite list_fmap_ext; [|intros ? loc _; apply at_location_cons].
    rewrite (sum_list_plus (fun loc => Nat.b2n (bool_decide (location (info ir.2) = loc)))
               (fun loc => length (at_location data loc))).
    rewrite sum_indicator; [|done|apply Hall; by left].
    rewrite IH; [done|]. intros ? ?. apply Hall. by right.
Qed.

Lemma sum_list_five_plus (f : str -> nat) (locs : list str) :
  sum_list ((fun loc => 5 + f loc)%nat <$> locs) = (5 * length locs + sum_list (f <$> locs))%nat.
Proof.
  induction locs as [|l locs IH]; [done|]. rewrite !fmap_cons.
  cbn [sum_list_with length]. unfold id in *. lia.
Qed.

(** X7. The sheet By Location has one block for each location of the data,
    the locations without repetition in increasing order. A block starts
    with its title, giving the number of the businesses of the location, in
    column 1 of the row after the blocks before it, each of which takes five
    rows and one for each business; the [j]-th business of the location is
    written three rows below the title plus [j]. No cell is written twice,
    and the row reached at the end is one plus five for each location plus
    the number of rows of the data. *)
Theorem location_breakdown_layout (format_1f : float -> str) (data : DataFrame ScoredRow) :
  let locs := sorted (unique ((fun ir : nat * ScoredRow => location (info ir.2)) <$> data)) in
  let cells := (_create_location_breakdown_sheet format_1f data).1 in
  (forall loc, loc ∈ locs <-> exists ir, ir ∈ data /\ location (info ir.2) = loc)
  /\ NoDup locs /\ StronglySorted str_lex_le locs
  /\ (forall k loc, locs !! k = Some loc ->
        ((block_start data locs k, 1%nat,
          VStr (loc ++ lit " (" ++ str_of_nat (length (at_location data loc))
                 ++ lit " businesses)")) ∈ cells)
        /\ (forall j ir w, at_location data loc !! j = Some ir ->
              w ∈ location_row format_1f (block_start data locs k + 3 + j) ir.2 -> w ∈ cells))
  /\ NoDup (cell_of <$> cells)
  /\ (_create_location_breakdown_sheet format_1f data).2
     = (1 + 5 * length locs + length data)%nat.
Proof.
  cbv zeta. unfold _create_location_breakdown_sheet.
  set (locs := sorted (unique _)).
  assert (Hmem : forall loc, loc ∈ locs <-> exists ir, ir ∈ data /\ location (info ir.2) = loc).
  { intros loc. unfold locs. rewrite sorted_perm. unfold unique.
    rewrite elem_of_unique_from, list_elem_of_fmap. split.
    - intros [(ir & -> & Hir) _]. by exists ir.
    - intros (ir & Hir & <-). split; [by exists ir|apply not_elem_of_empty]. }
  assert (Hnd : NoDup locs).
  { unfold locs. rewrite sorted_perm. apply unique_from_NoDup. }
  split; [exact Hmem|]. split; [exact Hnd|]. split; [apply sorted_sorted|].
  split; [|split].
  - intros k loc Hk. unfold block_start.
    destruct (location_block_in format_1f data loc
                (1 + sum_list ((fun loc => 5 + length (at_location data loc))%nat <$> take k locs)))
      as (Ht & Hrows).
    split.
    + by apply (location_blocks_in format_1f data locs 1 k loc).
    + intros j ir w Hj Hw. apply (location_blocks_in format_1f data locs 1 k loc); [done|].
      by apply (Hrows j ir).
  - apply location_blocks_NoDup.
  - rewrite location_blocks_last, sum_list_five_plus, at_location_total; [lia|done|].
    intros ir Hir. apply Hmem. by exists ir.
Qed.
(** ** The counts of the sheet Summary *)

Lemma count_where_all (p : ScoredRow -> bool) (data : DataFrame ScoredRow) :
  Forall (fun ir : nat * ScoredRow => p ir.2 = true) data -> count_where p data = length data.
Proof.
  unfold count_where. induction 1 as [|ir data Hp _ IH]; [done|]. simpl.
  rewrite Hp. simpl. by rewrite IH.
Qed.

Lemma count_where_cons (p : ScoredRow -> bool) ir (data : DataFrame ScoredRow) :
  count_where p (ir :: data) = (Nat.b2n (p ir.2) + count_where p data)%nat.
Proof. unfold count_where. simpl. by destruct (p ir.2). Qed.

(** X17. On the frame that [filter_by_criteria] returns, the count of
    businesses with phone numbers of the sheet Summary is the number of
    rows. The three counts by reviews leave out the rows with more than ten
    reviews or fewer than none: with those they add up to the number of
    rows, and alone they do when the limit on reviews is ten at most and no
    count is negative. *)
Theorem summary_counts_of_filtered (self : HVACDataProcessor) (max_reviews : Z)
    (min_quality_score : float) (data : DataFrame ScoredRow) :
  filter_by_criteria self max_reviews min_quality_score = Ok data ->
  summary_counts data !! 0%nat = Some (lit "Businesses with phone numbers:", length data)
  /\ (exists zero low mid,
        summary_counts data !! 2%nat = Some (lit "Businesses with 0 reviews:", zero)
        /\ summary_counts data !! 3%nat = Some (lit "Businesses with 1-3 reviews:", low)
        /\ summary_counts data !! 4%nat = Some (lit "Businesses with 4-10 reviews:", mid)
        /\ (zero + low + mid
            + count_where (fun r => no_range (review_count (info r))) data)%nat
           = length data
        /\ (max_reviews <= 10 ->
            Forall (fun ir : nat * ScoredRow => 0 <= review_count (info ir.2)) data ->
            (zero + low + mid)%nat = length data)).
Proof.
  unfold filter_by_criteria. destruct (processed_data self) as [df|]; [|done].
  intros [= <-].
  set (data := sort_values _).
  assert (Hall : Forall (fun ir : nat * ScoredRow =>
                   phone (info ir.2) <> [] /\ review_count (info ir.2) <= max_reviews) data).
  { apply Forall_forall. intros ir Hin. unfold data in Hin.
    rewrite sort_values_perm in Hin.
    apply list_elem_of_In, filter_In in Hin as [_ Hm]. unfold meets_criteria in Hm.
    apply andb_true_iff in Hm as [[Hr _]%andb_true_iff Hp].
    apply Z.leb_le in Hr. apply negb_true_iff, bool_decide_eq_false in Hp. done. }
  split.
  - unfold summary_counts. cbn [lookup list_lookup]. do 2 f_equal.
    apply count_where_all. eapply Forall_impl; [exact Hall|].
    intros ir [Hp _]. by rewrite bool_decide_eq_false_2.
  - eexists _, _, _. split; [reflexivity|]. split; [reflexivity|]. split; [reflexivity|].
    assert (Hsum : forall d : DataFrame ScoredRow,
      (count_where (fun r => (review_count (info r) =? 0)%Z) d
       + count_where (fun r => between 1 3 (review_count (info r))) d
       + count_where (fun r => between 4 10 (review_count (info r))) d
       + count_where (fun r => no_range (review_count (info r))) d)%nat = length d).
    { induction d as [|ir d IH]; [done|]. rewrite !count_where_cons. cbn [length].
      rewrite <- IH. unfold between, no_range.
      destruct (Z.eqb_spec (review_count (info ir.2)) 0),
        (Z.leb_spec 1 (review_count (info ir.2))), (Z.leb_spec (review_count (info ir.2)) 3),
        (Z.leb_spec 4 (review_count (info ir.2))), (Z.leb_spec (review_count (info ir.2)) 10),
        (Z.ltb_spec (review_count (info ir.2)) 0), (Z.ltb_spec 10 (review_count (info ir.2)));
        simpl; lia. }
    split; [apply Hsum|]. intros Hmax Hnn. pose proof (Hsum data) as Hd.
    assert (Hout : count_where (fun r => no_range (review_count (info r))) data = 0%nat).
    { clear -Hall Hnn Hmax. induction data as [|ir d IH]; [done|].
      rewrite count_where_cons. apply Forall_cons in Hall as [[_ H1] Hall].
      apply Forall_cons in Hnn as [H2 Hnn]. rewrite IH by done. unfold no_range.
      destruct (Z.ltb_spec (review_count (info ir.2)) 0),
        (Z.ltb_spec 10 (review_count (info ir.2))); simpl; lia. }
    rewrite Hout in Hd. lia.
Qed.

Lemma summary_counts_of_filtered_witness :
  exists data,
    filter_by_criteria {| businesses := []; processed_data := Some sample_scored |} 20 40 = Ok data
    /\ summary_counts data !! 0%nat = Some (lit "Businesses with phone numbers:", length data).
Proof.
  eexists. split; [reflexivity|].
  exact (proj1 (summary_counts_of_filtered
                  {| businesses := []; processed_data := Some sample_scored |} 20 40 _ eq_refl)).
Defined.

(** ** The worker: what a run leaves *)

Section WorkerFrame.
Context `{CharTables}.

Lemma World_eq (a b : World) :
  jobs a = jobs b -> next_job_id a = next_job_id b -> business_data a = business_data b ->
  session_new a = session_new b -> active_jobs a = active_jobs b -> threads a = threads b ->
  report_calls a = report_calls b -> a = b.
Proof. destruct a, b. simpl. by intros -> -> -> -> -> -> ->. Qed.

(** The state that a successful inner block leaves. *)
Lemma try_block_ok_inv env job_id job now w w1 :
  try_block env job_id job now w = (Ok (), w1) ->
  exists all filtered,
    scrape_locations env (business_type job) (locations job) [] = Ok all
    /\ w1 = {| jobs := alter (mark_completed now (Z.of_nat (length all))
                               (Z.of_nat (length filtered))
                               (report_path env job_id (job_name job) Excel)
                               (report_path env job_id (job_name job) Csv)
                               (report_path env job_id (job_name job) Json))
                         job_id (jobs w);
               next_job_id := next_job_id w;
               business_data :=
                 update_scores job_id filtered
                   (business_data w ++ session_new w ++ built_rows env job_id now all);
               session_new := [];
               active_jobs := active_jobs w;
               threads := threads w;
               report_calls :=
                 report_calls w ++
                   [ (Excel, report_path env job_id (job_name job) Excel, filtered);
                     (Csv, report_path env job_id (job_name job) Csv, filtered);
                     (Json, report_path env job_id (job_name job) Json, filtered) ] |}.
Proof.
  unfold try_block.
  destruct (scrape_locations env (business_type job) (locations job) []) as [all|e0]; [|done].
  pose proof (add_businesses_spec env job_id now all w) as [Hw2 _].
  destruct (add_businesses env job_id now all w) as [[[]|e1] w2]; [|done].
  simpl in Hw2. subst w2.
  destruct (clean_and_validate_data _) as [[cleaned processor]|e2]; [|done].
  destruct (filter_by_criteria _ _ _) as [filtered|e3]; [|done].
  destruct (generate_excel_report _ _ _) as [[]|e4]; [|done].
  destruct (export_csv _ _ _) as [[]|e5]; [|done].
  destruct (export_json _ _ _) as [[]|e6]; [|done].
  intros [= <-]. exists all, filtered. split; [reflexivity|].
  apply World_eq; cbn [jobs next_job_id business_data session_new active_jobs threads
                       report_calls]; simpl; try reflexivity.
  - by rewrite app_nil_r.
  - rewrite <- (app_assoc (report_calls w)), <- (app_assoc (report_calls w)). reflexivity.
Qed.



End WorkerFrame.

(** ** Runs of the service: what every reachable state satisfies *)

Section Invariants.
Context `{CharTables}.
Variable env : Env.










End Invariants.


(** ** The paths of the reports *)

Lemma lit_inj (a b : string) : lit a = lit b -> a = b.
Proof.
  unfold lit. intros Hm.
  rewrite <- (string_of_list_ascii_of_string a), <- (string_of_list_ascii_of_string b).
  f_equal. revert Hm. generalize (list_ascii_of_string a) (list_ascii_of_string b).
  induction l as [|x l IH]; intros [|y l']; simpl; try done.
  intros [= Hx Hl]. f_equal; [|by apply IH].
  rewrite <- (ascii_N_embedding x), <- (ascii_N_embedding y). unfold chr in Hx. by rewrite Hx.
Qed.

Lemma str_of_nat_inj (n m : nat) : str_of_nat n = str_of_nat m -> n = m.
Proof.
  unfold str_of_nat. intros Hl%lit_inj.
  apply DecimalNat.Unsigned.to_uint_inj.
  assert (Hs : Some (Nat.to_uint n) = Some (Nat.to_uint m))
    by (by rewrite <- !NilEmpty.usu, Hl).
  by injection Hs.
Qed.

Lemma str_of_nat_digits (n : nat) : Forall (fun c => ascii_digit c = true) (str_of_nat n).
Proof.
  unfold str_of_nat. generalize (Nat.to_uint n). unfold lit.
  induction u; simpl; constructor; done.
Qed.

Lemma digits_sep_inj (d1 d2 r1 r2 : str) (x : char) :
  Forall (fun c => ascii_digit c = true) d1 ->
  Forall (fun c => ascii_digit c = true) d2 ->
  ascii_digit x = false ->
  d1 ++ x :: r1 = d2 ++ x :: r2 -> d1 = d2 /\ r1 = r2.
Proof.
  intros H1. revert d2. induction H1 as [|c d1 Hc _ IH]; intros d2 H2 Hx; simpl.
  - destruct H2 as [|c d2 Hc _]; simpl; [by intros [= ->]|].
    intros [= <- _]. congruence.
  - destruct H2 as [|c' d2 Hc' H2]; simpl.
    + intros [= -> _]. congruence.
    + intros [= -> Hr]. destruct (IH d2 H2 Hx Hr) as [-> ->]. done.
Qed.

Lemma report_ext_inj (s1 s2 : str) (k1 k2 : ReportKind) :
  s1 ++ report_ext k1 = s2 ++ report_ext k2 -> k1 = k2 /\ s1 = s2.
Proof.
  intros Hs. assert (Hk : k1 = k2).
  { apply (f_equal (fun l : list N => rev l)) in Hs. cbv beta in Hs. rewrite !rev_app_distr in Hs.
    destruct k1, k2; try done; vm_compute rev at 1 3 in Hs; discriminate Hs. }
  subst k2. split; [done|]. by apply app_inv_tail in Hs.
Qed.

(** Two reports have the same path only if they are the same report of the
    same job id. *)
Lemma report_path_inj (env : Env) (id1 id2 : nat) (n1 n2 : str) (k1 k2 : ReportKind) :
  report_path env id1 n1 k1 = report_path env id2 n2 k2 ->
  id1 = id2 /\ k1 = k2 /\ replace_spaces n1 = replace_spaces n2.
Proof.
  unfold report_path, path_join, job_prefix. intros Hp.
  apply app_inv_head, app_inv_head in Hp.
  rewrite <- !(app_assoc (lit "job_")) in Hp. apply app_inv_head in Hp.
  rewrite <- !app_assoc in Hp.
  change (lit "_") with [95%N] in Hp. simpl in Hp.
  apply digits_sep_inj in Hp as [Hid Hr];
    [|apply str_of_nat_digits|apply str_of_nat_digits|done].
  apply str_of_nat_inj in Hid. apply report_ext_inj in Hr as [-> Hn]. done.
Qed.


Section ReportCalls.
Context `{CharTables}.

(** The calls of a run: the three reports in order, up to the first writer
    that raises, all with the frame that the filter returned. *)
Lemma try_block_calls env job_id job now w :
  exists filtered n,
    report_calls (try_block env job_id job now w).2 =
      report_calls w ++
      take n [ (Excel, report_path env job_id (job_name job) Excel, filtered);
               (Csv, report_path env job_id (job_name job) Csv, filtered);
               (Json, report_path env job_id (job_name job) Json, filtered) ].
Proof.
  destruct (try_block env job_id job now w) as [[[]|e] w1] eqn:Ht.
  { destruct (try_block_ok_inv _ _ _ _ _ _ Ht) as (all & filtered & _ & ->).
    by exists filtered, 3%nat. }
  revert Ht. unfold try_block.
  destruct (scrape_locations env (business_type job) (locations job) []) as [all|e0].
  2:{ intros [= <- <-]. exists [], 0%nat. simpl. by rewrite app_nil_r. }
  pose proof (add_businesses_spec env job_id now all w) as [Hw2 _].
  destruct (add_businesses env job_id now all w) as [[[]|e1] w2]; simpl in Hw2; subst w2.
  2:{ intros [= <- <-]. exists [], 0%nat. simpl. by rewrite app_nil_r. }
  destruct (clean_and_validate_data _) as [[cleaned processor]|e2].
  2:{ intros [= <- <-]. exists [], 0%nat. simpl. by rewrite app_nil_r. }
  destruct (filter_by_criteria _ _ _) as [filtered|e3].
  2:{ intros [= <- <-]. exists [], 0%nat. simpl. by rewrite app_nil_r. }
  destruct (generate_excel_report _ _ _) as [[]|e4].
  2:{ intros [= <- <-]. by exists filtered, 1%nat. }
  destruct (export_csv _ _ _) as [[]|e5].
  2:{ intros [= <- <-]. exists filtered, 2%nat. simpl.
      by rewrite <- (app_assoc (report_calls w)). }
  destruct (export_json _ _ _) as [[]|e6]; [done|].
  intros [= <- <-]. exists filtered, 3%nat. simpl.
  by rewrite <- (app_assoc (report_calls w)), <- (app_assoc (report_calls w)).
Qed.

Lemma calls_added_eq env job_id job now w :
  exists filtered n,
    calls_added env job_id job now w =
      take n [ (Excel, report_path env job_id (job_name job) Excel, filtered);
               (Csv, report_path env job_id (job_name job) Csv, filtered);
               (Json, report_path env job_id (job_name job) Json, filtered) ].
Proof.
  destruct (try_block_calls env job_id job now w) as (filtered & n & Hc).
  exists filtered, n. unfold calls_added. by rewrite Hc, drop_app_length.
Qed.

Lemma calls_added_path env job_id job now w c :
  c ∈ calls_added env job_id job now w ->
  c.1.2 = report_path env job_id (job_name job) c.1.1.
Proof.
  destruct (calls_added_eq env job_id job now w) as (filtered & n & ->).
  intros Hc%elem_of_take. destruct Hc as (i & Hi & _).
  destruct i as [|[|[|i]]]; simpl in Hi; [| | |done]; by injection Hi as <-.
Qed.

(** X10. The report files of different jobs never collide. If a report
    that one run of a worker writes has the path of a report that another
    run writes, the two runs are of the same job id, the reports are of the
    same kind, and the job names agree once blanks are replaced. The
    reports of one run have pairwise different paths. *)
Theorem report_files_never_collide (env : Env) (id1 id2 : nat) (job1 job2 : ScrapingJob)
    (now1 now2 : datetime) (w1 w2 : World) :
  (forall c1 c2,
     c1 ∈ calls_added env id1 job1 now1 w1 ->
     c2 ∈ calls_added env id2 job2 now2 w2 ->
     c1.1.2 = c2.1.2 ->
     id1 = id2 /\ c1.1.1 = c2.1.1
     /\ replace_spaces (job_name job1) = replace_spaces (job_name job2))
  /\ NoDup ((fun c : ReportCall => c.1.2) <$> calls_added env id1 job1 now1 w1).
Proof.
  split.
  - intros c1 c2 H1%calls_added_path H2%calls_added_path Hp.
    rewrite H1, H2 in Hp. by apply report_path_inj in Hp.
  - destruct (calls_added_eq env id1 job1 now1 w1) as (filtered & n & ->).
    rewrite fmap_take. eapply sublist_NoDup; [|apply sublist_take]. simpl.
    assert (Hne : forall k1 k2, k1 <> k2 ->
              report_path env id1 (job_name job1) k1 <> report_path env id1 (job_name job1) k2).
    { intros k1 k2 Hk Hp. by apply report_path_inj in Hp as (_ & ? & _). }
    repeat constructor; rewrite ?elem_of_cons, ?elem_of_nil;
      intros Hin; repeat destruct Hin as [Hin|Hin]; try done;
      by apply Hne in Hin.
Qed.

End ReportCalls.

(** ** Downloading a report *)

Section Downloads.
Context `{CharTables}.
Variable env : Env.









End Downloads.


(** ** The scores in the table of businesses *)

Lemma set_scores_step job_id row b t :
  set_scores job_id row (b :: t) =
    if is_match job_id (name (info row)) b then with_scores row b :: t
    else b :: set_scores job_id row t.
Proof. reflexivity. Qed.

Lemma set_scores_same job_id row t :
  Forall2 (fun b b' => same_but_scores b b' /\ (bd_job_id b <> job_id -> b' = b))
    t (set_scores job_id row t).
Proof.
  induction t as [|b t IH]; [constructor|]. rewrite set_scores_step.
  destruct (is_match job_id (name (info row)) b) eqn:E.
  - constructor.
    + split; [done|]. intros Hne. unfold is_match in E.
      rewrite bool_decide_eq_false_2 in E by done. done.
    + apply Forall2_same_length_lookup. split; [done|]. intros i x y Hx Hy.
      rewrite Hx in Hy. injection Hy as <-. done.
  - constructor; [done|exact IH].
Qed.

Lemma set_scores_lookup job_id row t i b :
  t !! i = Some b ->
  (is_match job_id (name (info row)) b = true
   /\ (forall j c, (j < i)%nat -> t !! j = Some c -> is_match job_id (name (info row)) c = false)
   -> set_scores job_id row t !! i = Some (with_scores row b))
  /\ (~ (is_match job_id (name (info row)) b = true
         /\ (forall j c, (j < i)%nat -> t !! j = Some c ->
               is_match job_id (name (info row)) c = false))
      -> set_scores job_id row t !! i = Some b).
Proof.
  revert i. induction t as [|b0 t IH]; intros i Hi; [done|]. rewrite set_scores_step.
  destruct i as [|i]; simpl in Hi.
  - injection Hi as ->. destruct (is_match job_id (name (info row)) b) eqn:E; simpl.
    + split; [done|]. intros Hn. exfalso. apply Hn. split; [done|]. intros j c Hj. lia.
    + split; [|done]. by intros [? _].
  - destruct (is_match job_id (name (info row)) b0) eqn:E; simpl.
    + split; [|done]. intros [_ Hall]. specialize (Hall 0%nat b0 ltac:(lia) eq_refl).
      congruence.
    + destruct (IH i Hi) as [IH1 IH2]. split.
      * intros [Hm Hall]. apply IH1. split; [done|]. intros j c Hj Hc.
        apply (Hall (S j) c); [lia|done].
      * intros Hn. apply IH2. intros [Hm Hall]. apply Hn. split; [done|].
        intros [|j] c Hj Hc; simpl in Hc; [by injection Hc as <-|].
        apply (Hall j c); [lia|done].
Qed.

Lemma is_match_true job_id n b :
  is_match job_id n b = true <-> bd_job_id b = job_id /\ name (bd_business b) = n.
Proof.
  unfold is_match. rewrite andb_true_iff, !bool_decide_eq_true. done.
Qed.

Lemma is_match_false job_id n b :
  is_match job_id n b = false <-> ~ (bd_job_id b = job_id /\ name (bd_business b) = n).
Proof. rewrite <- is_match_true. by destruct (is_match job_id n b). Qed.

Lemma with_scores_with_scores row row' b :
  with_scores row (with_scores row' b) = with_scores row b.
Proof. reflexivity. Qed.

(** A step of the loop keeps the rows that are the first of their name. *)
Lemma first_of_name_set_scores job_id row t i b b' :
  bd_job_id b' = bd_job_id b -> bd_business b' = bd_business b ->
  first_of_name job_id (set_scores job_id row t) i b' <-> first_of_name job_id t i b.
Proof.
  intros Hid Hb. unfold first_of_name. rewrite Hid, Hb.
  pose proof (set_scores_same job_id row t) as Hs.
  split; intros [Hj Hall]; (split; [done|]); intros j c Hlt Hc.
  - destruct (Forall2_lookup_l _ _ _ _ _ Hs Hc) as (c' & Hc' & (Hi & Hbb & _) & _).
    rewrite <- Hi, <- Hbb. by apply (Hall j c').
  - destruct (Forall2_lookup_r _ _ _ _ _ Hs Hc) as (c' & Hc' & (Hi & Hbb & _) & _).
    rewrite Hi, Hbb. by apply (Hall j c').
Qed.

Lemma update_scores_cons job_id ir fd t :
  update_scores job_id (ir :: fd) t = update_scores job_id fd (set_scores job_id ir.2 t).
Proof. reflexivity. Qed.

Lemma update_scores_same job_id fd t :
  Forall2 (fun b b' => same_but_scores b b' /\ (bd_job_id b <> job_id -> b' = b))
    t (update_scores job_id fd t).
Proof.
  revert t. induction fd as [|ir fd IH]; intros t.
  - apply Forall2_same_length_lookup. split; [done|]. intros i x y Hx Hy.
    change (update_scores job_id [] t) with t in Hy.
    rewrite Hx in Hy. by injection Hy as <-.
  - rewrite update_scores_cons.
    pose proof (set_scores_same job_id ir.2 t) as H1.
    pose proof (IH (set_scores job_id ir.2 t)) as H2.
    apply Forall2_same_length_lookup. split.
    + by rewrite (Forall2_length _ _ _ H1), (Forall2_length _ _ _ H2).
    + intros i x z Hx Hz.
      destruct (Forall2_lookup_l _ _ _ _ _ H1 Hx) as (y & Hy & (Ha & Hb & Hc) & Hd).
      destruct (Forall2_lookup_l _ _ _ _ _ H2 Hy) as (z' & Hz' & (Ha' & Hb' & Hc') & Hd').
      rewrite Hz in Hz'. injection Hz' as <-. split.
      * unfold same_but_scores. by rewrite Ha', Hb', Hc', Ha, Hb, Hc.
      * intros Hne. rewrite Hd', Hd; [done|done|]. by rewrite Ha.
Qed.

(** X12. After the loop that copies the scores into the table, a row is
    changed only if it is the first row of the job with its name, and then
    it carries the scores of the last row of the filtered frame with that
    name; without such a row it keeps its scores. Every other row is left
    as it was, and no row is added or removed. *)
Theorem update_scores_spec (job_id : nat) (filtered_data : DataFrame ScoredRow)
    (t : list BusinessData) (i : nat) (b : BusinessData) :
  t !! i = Some b ->
  length (update_scores job_id filtered_data t) = length t
  /\ (first_of_name job_id t i b ->
      update_scores job_id filtered_data t !! i =
        Some (match last (rows_named (name (bd_business b)) filtered_data) with
              | Some ir => with_scores ir.2 b
              | None => b
              end))
  /\ (~ first_of_name job_id t i b -> update_scores job_id filtered_data t !! i = Some b).
Proof.
  intros Hi. split.
  { symmetry. apply (Forall2_length _ _ _ (update_scores_same job_id filtered_data t)). }
  revert t b Hi. induction filtered_data as [|ir fd IH]; intros t b Hi; [by split|].
  rewrite update_scores_cons.
  destruct (set_scores_lookup job_id ir.2 t i b Hi) as [S1 S2]. split.
  - intros Hf. pose proof Hf as [Hjob Hall].
    unfold rows_named. cbn [List.filter]. case_bool_decide as Hn.
    + assert (H1 : set_scores job_id ir.2 t !! i = Some (with_scores ir.2 b)).
      { apply S1. split; [by apply is_match_true|]. intros j c Hj Hc.
        apply is_match_false. rewrite Hn. by apply (Hall j c). }
      destruct (IH _ _ H1) as [IH1 _]. rewrite IH1.
      2:{ by apply (first_of_name_set_scores job_id ir.2 t i b (with_scores ir.2 b)). }
      simpl. rewrite last_cons. fold (rows_named (name (bd_business b)) fd).
      by destruct (last (rows_named (name (bd_business b)) fd)).
    + assert (H1 : set_scores job_id ir.2 t !! i = Some b).
      { apply S2. intros [Hm _]. apply is_match_true in Hm as [_ Hm]. done. }
      destruct (IH _ _ H1) as [IH1 _]. rewrite IH1; [done|].
      by apply (first_of_name_set_scores job_id ir.2 t i b b).
  - intros Hnf.
    assert (H1 : set_scores job_id ir.2 t !! i = Some b).
    { apply S2. intros [Hm Hall]. apply Hnf. apply is_match_true in Hm as [Hj Hn].
      split; [done|]. intros j c Hlt Hc. rewrite Hn. apply is_match_false.
      by apply (Hall j c). }
    destruct (IH _ _ H1) as [_ IH2]. apply IH2. intros Hf. apply Hnf.
    by apply (first_of_name_set_scores job_id ir.2 t i b b) in Hf.
Qed.

Lemma update_scores_spec_witness :
  sample_table !! 0%nat = Some (sample_row 1 (lit "Acme Heating"))
  /\ first_of_name 1 sample_table 0 (sample_row 1 (lit "Acme Heating"))
  /\ (bd_priority_score <$> update_scores 1 sample_filtered sample_table !! 0%nat) = Some 5.
Proof.
  split; [reflexivity|].
  assert (Hf : first_of_name 1 sample_table 0 (sample_row 1 (lit "Acme Heating"))).
  { split; [reflexivity|]. intros j c Hj. lia. }
  split; [exact Hf|].
  destruct (update_scores_spec 1 sample_filtered sample_table 0
              (sample_row 1 (lit "Acme Heating")) eq_refl) as (_ & H1 & _).
  rewrite (H1 Hf). reflexivity.
Defined.

(** ** The rows that a worker leaves alone *)



Section WorkerRows.
Context `{CharTables}.


End WorkerRows.

(** ** Sessions *)

Section AuthProps.
Context `{CharTables}.
Variable sha256_hexdigest : str -> str.

Lemma guarded_requests_clear {A St : Type} self (f : St -> A * St) wants_json ts st :
  guarded_requests self f wants_json ts session_clear st =
    (replicate (length ts) (if wants_json then Unauthorized else RedirectToLogin),
     session_clear, st).
Proof.
  induction ts as [|t ts IH]; [done|]. cbn [guarded_requests length replicate].
  unfold login_required at 1. simpl. by rewrite IH.
Qed.

Lemma guarded_requests_logged_in {A St : Type} self (f : St -> A * St) wants_json ts st u t0 :
  let s0 := {| authenticated := Some true; username := u; login_time := Some t0 |} in
  let n := length (in_time (session_timeout self) t0 ts) in
  guarded_requests self f wants_json ts s0 st =
    ((Served <$> (calls f n st).1)
       ++ replicate (length ts - n) (if wants_json then Unauthorized else RedirectToLogin),
     (if decide (n = length ts) then s0 else session_clear),
     (calls f n st).2).
Proof.
  cbv zeta. revert st. induction ts as [|t ts IH]; intros st; [done|].
  cbn [guarded_requests in_time]. unfold login_required at 1, is_authenticated.
  cbn [authenticated login_time].
  destruct (session_timeout self <? t - t0) eqn:E.
  - rewrite guarded_requests_clear. cbn [length calls fst snd fmap list_fmap app].
    rewrite Nat.sub_0_r. done.
  - destruct (f st) as [a st1] eqn:Ef. rewrite IH. cbn [length calls].
    rewrite Ef. destruct (calls f _ st1) as [l st2]. cbn [fst snd].
    rewrite fmap_cons. cbn [app].
    replace (S (length ts) - S (length (in_time (session_timeout self) t0 ts)))%nat
      with (length ts - length (in_time (session_timeout self) t0 ts))%nat by lia.
    destruct (decide (length (in_time (session_timeout self) t0 ts) = length ts)) as [E1|E1],
      (decide (S (length (in_time (session_timeout self) t0 ts)) = S (length ts))) as [E2|E2];
      try (exfalso; lia); reflexivity.
Qed.

Lemma in_time_prefix timeout t0 ts :
  in_time timeout t0 ts `prefix_of` ts
  /\ Forall (fun t => t - t0 <= timeout) (in_time timeout t0 ts)
  /\ (forall t, ts !! length (in_time timeout t0 ts) = Some t -> timeout < t - t0).
Proof.
  induction ts as [|t ts (IH1 & IH2 & IH3)]; simpl.
  - split; [done|]. split; [constructor|done].
  - destruct (timeout <? t - t0) eqn:E.
    + apply Z.ltb_lt in E. split; [apply prefix_nil|]. split; [constructor|].
      intros t' [= <-]. done.
    + apply Z.ltb_ge in E. split; [by apply prefix_cons|].
      split; [by constructor|]. exact IH3.
Qed.

(** X14. After a login at [t0], requests to a guarded route are served
    as long as each comes within the timeout of [t0]: the route is called
    for the requests before the first late one, in order, and that request
    and all that follow are refused, with 401 for the API and a redirect
    otherwise, because the late request clears the session. *)
Theorem session_lifetime {A St : Type} (self : SimpleAuth) (data : LoginData)
    (t0 : datetime) (session s0 : Session) (f : St -> A * St) (wants_json : bool)
    (ts : list datetime) (st : St) :
  login_page sha256_hexdigest self data t0 session = (true, s0) ->
  let n := length (in_time (session_timeout self) t0 ts) in
  guarded_requests self f wants_json ts s0 st =
    ((Served <$> (calls f n st).1)
       ++ replicate (length ts - n) (if wants_json then Unauthorized else RedirectToLogin),
     (if decide (n = length ts) then s0 else session_clear),
     (calls f n st).2)
  /\ Forall (fun t => t - t0 <= session_timeout self) (take n ts)
  /\ (forall t, ts !! n = Some t -> session_timeout self < t - t0).
Proof.
  unfold login_page. destruct (_ && _); [|done]. intros [= <-]. cbv zeta.
  split; [apply guarded_requests_logged_in|].
  destruct (in_time_prefix (session_timeout self) t0 ts) as ([k Hk] & H2 & H3).
  split; [|exact H3].
  rewrite Hk at 2. by rewrite take_app_length.
Qed.

(** X15. A login succeeds exactly when the user name of the request,
    stripped of white space at its ends, is the configured one and the
    passwords have the same hash. So no login succeeds when the configured
    user name has white space at an end. A successful login writes the
    session anew, with the time of the request; a failed one leaves the
    session as it was, a login that it holds included. *)
Theorem login_page_spec (self : SimpleAuth) (data : LoginData) (now : datetime)
    (session : Session) :
  ((login_page sha256_hexdigest self data now session).1 = true <->
     strip (default [] (data_username data)) = auth_username self
     /\ _hash_password sha256_hexdigest (default [] (data_password data)) = password_hash self)
  /\ ((login_page sha256_hexdigest self data now session).1 = true ->
      stripped (auth_username self)
      /\ (login_page sha256_hexdigest self data now session).2 =
           {| authenticated := Some true; username := Some (auth_username self);
              login_time := Some now |})
  /\ ((login_page sha256_hexdigest self data now session).1 = false ->
      (login_page sha256_hexdigest self data now session).2 = session).
Proof.
  unfold login_page. case_bool_decide as Hu; simpl.
  - case_bool_decide as Hp; simpl.
    + split; [done|]. split; [|done]. intros _. split; [|by rewrite Hu].
      rewrite <- Hu. apply strip_stripped.
    + split; [|done]. split; [done|]. by intros [_ ?].
  - split; [|done]. split; [done|]. by intros [? _].
Qed.

End AuthProps.

Lemma session_lifetime_witness :
  let self := @init_app (fun s => s) 3600 (lit "Jake") (lit "JakeWhitbeck") 24 in
  let data := {| data_username := Some (lit " Jake "); data_password := Some (lit "JakeWhitbeck") |} in
  let s0 := {| authenticated := Some true; username := Some (lit "Jake"); login_time := Some 100 |} in
  @login_page ascii_tables (fun s => s) self data 100 session_clear = (true, s0)
  /\ (guarded_requests self (fun n : nat => (n, S n)) true [200; 86501; 300] s0 0%nat).1.1
     = [Served 0%nat; Unauthorized; Unauthorized].
Proof.
  cbv zeta. split; [vm_compute; reflexivity|].
  rewrite (proj1 (@session_lifetime ascii_tables (fun s => s) nat nat
             (@init_app (fun s => s) 3600 (lit "Jake") (lit "JakeWhitbeck") 24)
             {| data_username := Some (lit " Jake "); data_password := Some (lit "JakeWhitbeck") |}
             100 session_clear
             {| authenticated := Some true; username := Some (lit "Jake"); login_time := Some 100 |}
             (fun n : nat => (n, S n)) true [200; 86501; 300] 0%nat
             ltac:(vm_compute; reflexivity))).
  reflexivity.
Defined.

(** ** The scraper *)

Section ScraperProps.
Import Scraper.

Lemma enrich_from_website_fields web content l :
  let e := enrich_from_website web content l in
  l_name e = l_name l /\ l_address e = l_address l /\ l_phone e = l_phone l
  /\ l_website e = l_website l /\ l_star_rating e = l_star_rating l
  /\ l_review_count e = l_review_count l /\ l_hours e = l_hours l
  /\ l_category e = l_category l /\ l_google_maps_url e = l_google_maps_url l
  /\ (truthy (l_owner_name l) = true -> l_owner_name e = l_owner_name l).
Proof.
  cbv zeta. unfold enrich_from_website.
  destruct (extract_contact_from_website web content) as [c|]; [|by repeat split].
  destruct (falsy c); simpl.
  - destruct (truthy (l_owner_name l)) eqn:Et; [by repeat split|].
    destruct (extract_owner_from_website web content) as [o|]; [|by repeat split].
    destruct (falsy o); by repeat split.
  - destruct (truthy (l_owner_name l)) eqn:Et; [by repeat split|].
    destruct (extract_owner_from_website web content) as [o|]; [|by repeat split].
    destruct (falsy o); by repeat split.
Qed.

Lemma enrich_business_data_ok web s l e s' loc now :
  enrich_business_data web s l = (Ok e, s') ->
  l_name l <> None ->
  copied_from l (business_info loc now e).
Proof.
  intros He Hn. unfold enrich_business_data in He.
  destruct (ensure_session web s) as [[[]|e0] s1]; [|done].
  assert (Hname : forall e', l_name e' = l_name l -> l_name l = Some (default [] (l_name e'))).
  { intros e' ->. by destruct (l_name l). }
  destruct (truthy (l_website l)) eqn:Ew.
  - destruct (session_get web (calls_made s1) _) as [[content|]|e1].
    + injection He as <- _.
      pose proof (enrich_from_website_fields web content l) as Hf. cbv zeta in Hf.
      destruct Hf as (H1 & H2 & H3 & H4 & H5 & H6 & H7 & H8 & H9 & H10).
      unfold copied_from, business_info. simpl.
      rewrite H2, H3, H4, H5, H6, H7, H8, H9.
      split; [by apply Hname|]. do 8 (split; [done|]).
      split; [intros Ht; by rewrite (H10 Ht)|intros Hw; congruence].
    + injection He as <- _. unfold copied_from, business_info. simpl.
      split; [by apply Hname|]. by repeat split.
    + injection He as <- _. unfold copied_from, business_info. simpl.
      split; [by apply Hname|]. by repeat split.
  - injection He as <- _. unfold copied_from, business_info. simpl.
    split; [by apply Hname|]. by repeat split.
Qed.

Lemma enrich_business_data_name web s l e s' :
  enrich_business_data web s l = (Ok e, s') -> l_name e = l_name l.
Proof.
  unfold enrich_business_data.
  destruct (ensure_session web s) as [[[]|e0] s1]; [|done].
  destruct (truthy (l_website l)).
  - destruct (session_get web (calls_made s1) _) as [[content|]|e1]; intros [= <- _]; [|done|done].
    apply (enrich_from_website_fields web content l).
  - by intros [= <- _].
Qed.

Lemma scrape_businesses_inv web loc (P : BusinessInfo -> Prop) (Q : Listing -> Prop)
    businesses st :
  (forall l b, Q l -> name b <> [] -> location b = loc -> copied_from l b -> P b) ->
  Forall Q businesses ->
  loop_inv P st -> loop_inv P (scrape_businesses web loc businesses st).2.
Proof.
  intros HP HQ. revert st. induction HQ as [|l businesses Hl _ IH]; intros st Hinv; [done|].
  cbn [scrape_businesses]. cbv zeta.
  destruct (falsy (default [] (l_name l))) eqn:Ef; simpl; [by apply IH|].
  case_bool_decide as Hin; simpl; [by apply IH|].
  destruct Hinv as [Hnd Hall].
  destruct (enrich_business_data web (scraper st) l) as [[e|err] s1] eqn:He; simpl.
  - apply IH. pose proof (enrich_business_data_name _ _ _ _ _ He) as Hname.
    assert (Hln : l_name l <> None) by (by destruct (l_name l)).
    split; simpl.
    + rewrite fmap_app. apply NoDup_app. split; [done|]. split; [|apply NoDup_singleton].
      intros n Hn1 Hn2. simpl in Hn2. apply list_elem_of_singleton in Hn2. subst n.
      apply list_elem_of_fmap in Hn1 as (b & Hb & Hbin).
      rewrite Forall_forall in Hall. destruct (Hall b Hbin) as [Hp _].
      apply Hin. rewrite <- Hname. simpl in Hb. by rewrite Hb.
    + apply Forall_app. split.
      * eapply Forall_impl; [exact Hall|]. intros b [Hb1 Hb2]. split; [|done].
        apply elem_of_union. by right.
      * constructor; [|constructor]. simpl. split.
        -- apply elem_of_union. left. apply elem_of_singleton. by rewrite Hname.
        -- apply (HP l); [done| | |].
           ++ simpl. rewrite Hname. by destruct (default [] (l_name l)).
           ++ done.
           ++ by eapply enrich_business_data_ok.
  - split; simpl; [done|].
    eapply Forall_impl; [exact Hall|]. intros b [Hb1 Hb2]. split; [|done].
    apply elem_of_union. by right.
Qed.

Lemma scrape_queries_inv web loc (P : BusinessInfo -> Prop) qs st :
  (forall n query found l b, query ∈ qs -> search_google_maps web n query = Ok found ->
     l ∈ found -> name b <> [] -> location b = loc -> copied_from l b -> P b) ->
  loop_inv P st -> loop_inv P (scrape_queries web loc qs st).
Proof.
  revert st. induction qs as [|q qs IH]; intros st HP Hinv; [done|].
  cbn [scrape_queries]. cbv zeta.
  assert (HP' : forall n query found l b, query ∈ qs ->
            search_google_maps web n query = Ok found ->
            l ∈ found -> name b <> [] -> location b = loc -> copied_from l b -> P b).
  { intros n query found l b Hq. apply HP. by right. }
  destruct (search_google_maps web (calls_made (scraper st)) q) as [found|e] eqn:Es.
  - apply IH; [done|].
    apply (scrape_businesses_inv web loc P (fun l => l ∈ found)).
    + intros l b Hl. apply (HP (calls_made (scraper st)) q found l b); [by left|done|done].
    + by apply Forall_forall.
    + exact Hinv.
  - apply IH; [done|]. exact Hinv.
Qed.

(** X16. The records that [scrape_location] returns have pairwise
    different names, none of them empty, and carry the location asked for.
    Each one comes from a listing that one of the five searches returned:
    its name, address, phone, website, rating, review count, hours, category
    (HVAC when absent) and URL are those of the listing; an owner name that
    the listing has is kept; and without a website the owner name and the
    additional contact are those of the listing too. This holds whichever
    collaborator raises. *)
Theorem scrape_location_records (web : Web) (s : ScraperState) (loc business_type : str) :
  NoDup (name <$> (scrape_location web s loc business_type).1)
  /\ Forall (found_by web loc business_type) (scrape_location web s loc business_type).1.
Proof.
  unfold scrape_location. cbv zeta. cbn [fst].
  destruct (scrape_queries_inv web loc (found_by web loc business_type)
              (queries business_type loc)
              {| all_businesses := []; processed_names := ∅; scraper := s |})
    as [Hnd Hall].
  - intros n query found l b Hq Hs Hl Hn Hloc Hc. split; [done|]. split; [done|].
    by exists n, query, found, l.
  - split; [constructor|constructor].
  - split; [done|]. eapply Forall_impl; [exact Hall|]. by intros b [_ ?].
Qed.

(** On the sample the ten listings found give one record. *)
Example scrape_location_sample :
  name <$> (scrape_location sample_web {| calls_made := 0; has_session := false |}
              (lit "Kuna, Idaho") (lit "HVAC")).1 = [lit "Acme Heating"].
Proof. vm_compute. reflexivity. Qed.

End ScraperProps.

(** ** The counts of a completed job *)




Section JobCounts.
Context `{CharTables}.
Variable env : Env.








End JobCounts.


(** ** The fields of a job and its status *)

Section JobRecords.
Context `{CharTables}.
Variable env : Env.





End JobRecords.


